(** * Scheduling and resource-pool core of the scraping backend

    A shallow embedding of
    - [utils/concurrency.py]            (ResourcePool, TaskPool),
    - [scraper/browser/manager.py]      (BrowserManager),
    - [scraper/scheduler.py]            (TaskScheduler),
    - [services/proxy.py]               (ProxyService),
    - [scraper/middleware/rate_limit.py] (RateLimitMiddleware),
    followed by the properties of the specification, each one settled
    against the embedded code.

    Conventions.
    - Python objects are mutable; every method is a state transformer
      [S -> outcome A * S]: the mutations made before an exception is
      raised stay in the state, as in Python.
    - [float] values (clock readings, time-outs, health scores, burst
      multipliers) are exact rationals [Q].
    - Calls run one at a time, each to completion: a coroutine that waits
      on a semaphore is never woken by another one. *)

From Stdlib Require Import ZArith QArith Qround Qpower Lia Lqa.
From Stdlib Require Import Ascii String DecimalString.
From stdpp Require Import gmap strings list fin_maps.

Local Open Scope Z_scope.

(** ** Python runtime: exceptions and the state-and-exception monad *)

Module Py.

Inductive exn : Type :=
| TimeoutError (msg : string)
| ValueError (msg : string)
| RuntimeError (msg : string)
| KeyError (key : string)
| AttributeError
| ZeroDivisionError
| TypeError
| ConnectionError
| ResponseError
| RetryError (last : exn).

Inductive outcome (A : Type) : Type :=
| Return (a : A)
| Raise (e : exn).
Arguments Return {A} a.
Arguments Raise {A} e.

Definition is_raise {A} (o : outcome A) : bool :=
  match o with Return _ => false | Raise _ => true end.

Definition M (S A : Type) : Type := S -> outcome A * S.

Definition ret {S A} (a : A) : M S A := fun s => (Return a, s).

Definition raise {S A} (e : exn) : M S A := fun s => (Raise e, s).

Definition bind {S A B} (c : M S A) (k : A -> M S B) : M S B :=
  fun s =>
    match c s with
    | (Return a, s') => k a s'
    | (Raise e, s') => (Raise e, s')
    end.

Definition get {S} : M S S := fun s => (Return s, s).

Definition modify {S} (f : S -> S) : M S unit := fun s => (Return tt, f s).

(** [try: c except Exception as e: h e] *)
Definition try_except {S A} (c : M S A) (h : exn -> M S A) : M S A :=
  fun s =>
    match c s with
    | (Return a, s') => (Return a, s')
    | (Raise e, s') => h e s'
    end.

(** [try: c finally: f]; an exception of [f] replaces the pending
    outcome. *)
Definition try_finally {S A} (c : M S A) (f : M S unit) : M S A :=
  fun s =>
    match c s with
    | (o, s') =>
        match f s' with
        | (Return _, s'') => (o, s'')
        | (Raise e, s'') => (Raise e, s'')
        end
    end.

(** Run a computation on a component of the state. *)
Definition zoom {S T A} (proj : S -> T) (upd : T -> S -> S) (c : M T A)
  : M S A :=
  fun s => match c (proj s) with (o, t') => (o, upd t' s) end.

(** [str(id(obj))]: the decimal rendering of an object's identity. *)
Definition str_id (obj : nat) : string :=
  NilZero.string_of_uint (Nat.to_uint obj).

Definition Qltb (a b : Q) : bool := negb (Qle_bool b a).

(** [time.time()], [loop.time()]: a clock reading, in seconds. *)
Definition Time : Type := Q.

End Py.

Import Py.

Declare Scope py_scope.
Delimit Scope py_scope with py.
Notation "'let!' x ':=' c 'in' k" := (bind c (fun x => k))
  (at level 10, x pattern, c at level 100, k at level 200) : py_scope.
Notation "c ';;;' k" := (bind c (fun _ => k))
  (at level 100, k at level 200, right associativity) : py_scope.
Local Open Scope py_scope.

(** ** utils/concurrency.py *)

Definition DEFAULT_TIMEOUT : Q := 30.
Definition DEFAULT_MAX_SIZE : Z := 100.
Definition CLEANUP_INTERVAL : Z := 300.

Module ResourcePool.

(** A resource is an opaque object, known by its identity; [object()]
    allocates the next one. *)
Definition Resource : Type := nat.

(** An entry of [_in_use]. *)
Record InUse : Type := mkInUse {
  resource : Resource;
  acquired_at : Time;
  last_activity : Time
}.

(** An entry of [_resource_metrics]. *)
Record Metrics : Type := mkMetrics {
  acquire_time : Time;
  acquisitions : Z;
  last_release : option Time;
  total_usage_time : option Q
}.

(** [resource_id] is a [str] and defaults to [None]; both are keys of
    the dictionaries. *)
Record t : Type := mk {
  _semaphore : Z;                               (* asyncio.Semaphore._value *)
  _resources : list Resource;                   (* the idle set *)
  _in_use : gmap (option string) InUse;
  _max_size : Z;
  _resource_metrics : option (gmap (option string) Metrics);
  next_object : nat                             (* allocator of object() *)
}.

Definition with_semaphore (v : Z) (p : t) : t :=
  mk v (_resources p) (_in_use p) (_max_size p) (_resource_metrics p)
     (next_object p).
Definition with_resources (r : list Resource) (p : t) : t :=
  mk (_semaphore p) r (_in_use p) (_max_size p) (_resource_metrics p)
     (next_object p).
Definition with_in_use (u : gmap (option string) InUse) (p : t) : t :=
  mk (_semaphore p) (_resources p) u (_max_size p) (_resource_metrics p)
     (next_object p).
Definition with_metrics (m : option (gmap (option string) Metrics)) (p : t)
  : t :=
  mk (_semaphore p) (_resources p) (_in_use p) (_max_size p) m
     (next_object p).
Definition with_next_object (n : nat) (p : t) : t :=
  mk (_semaphore p) (_resources p) (_in_use p) (_max_size p)
     (_resource_metrics p) n.

Definition __init__ (max_size : Z) (enable_metrics : bool) : t :=
  mk max_size [] ∅ max_size (if enable_metrics then Some ∅ else None) 0%nat.

(** [asyncio.Semaphore.release]: the value grows by one, without bound. *)
Definition semaphore_release : M t unit :=
  modify (fun p => with_semaphore (_semaphore p + 1) p).

(** [await asyncio.wait_for(create_task(semaphore.acquire()), timeout)].
    A permit is taken when one is free; otherwise the waiter is cancelled
    when the time-out fires, which leaves the value as it was.  A time-out
    that is not positive cancels the task before it has run. *)
Definition semaphore_wait_for (timeout : Q) : M t unit :=
  fun p =>
    if Qltb 0 timeout && (0 <? _semaphore p)
    then (Return tt, with_semaphore (_semaphore p - 1) p)
    else (Raise (TimeoutError "asyncio.TimeoutError"), p).

Definition _create_resource : M t Resource :=
  fun p => (Return (next_object p), with_next_object (S (next_object p)) p).

Definition _validate_resource (r : Resource) : bool := true.

Definition _update_acquisition_metrics (now : Time)
    (resource_id : option string) : M t unit :=
  modify (fun p =>
    match _resource_metrics p with
    | Some m =>
        let old := match m !! resource_id with
                   | Some e => acquisitions e
                   | None => 0
                   end in
        with_metrics
          (Some (<[resource_id := mkMetrics now (old + 1) None None]> m)) p
    | None => p
    end).

Definition _update_release_metrics (now : Time)
    (resource_id : option string) : M t unit :=
  modify (fun p =>
    match _resource_metrics p with
    | Some m =>
        match m !! resource_id with
        | Some e =>
            let total := match total_usage_time e with
                         | Some u => u
                         | None => 0%Q
                         end in
            with_metrics
              (Some (<[resource_id :=
                         mkMetrics (acquire_time e) (acquisitions e)
                           (Some now)
                           (Some (total + (now - acquire_time e))%Q)]> m)) p
        | None => p
        end
    | None => p
    end).

(** [set.pop()] on a non-empty idle set, else [_create_resource()]. *)
Definition get_or_create : M t Resource :=
  fun p =>
    match _resources p with
    | r :: rest => (Return r, with_resources rest p)
    | [] => _create_resource p
    end.

(** [set.add] *)
Definition set_add (r : Resource) (l : list Resource) : list Resource :=
  if bool_decide (r ∈ l) then l else r :: l.

Definition acquire (now : Time) (timeout : Q) (resource_id : option string)
  : M t Resource :=
  try_except
    (try_except (semaphore_wait_for timeout)
       (fun _ => raise (TimeoutError "Resource acquisition timeout")) ;;;
     let! resource := get_or_create in
     (fun p => match _resource_metrics p with
               | Some _ => _update_acquisition_metrics now resource_id p
               | None => (Return tt, p)
               end) ;;;
     modify (fun p =>
       with_in_use (<[resource_id := mkInUse resource now now]> (_in_use p))
         p) ;;;
     ret resource)
    (fun e => semaphore_release ;;; raise e).

Definition release (now : Time) (resource : Resource)
    (resource_id : option string) : M t bool :=
  try_except
    (let! p := get in
     match _in_use p !! resource_id with
     | None => ret false
     | Some _ =>
         (match _resource_metrics p with
          | Some _ => _update_release_metrics now resource_id
          | None => ret tt
          end) ;;;
         modify (fun p => with_in_use (delete resource_id (_in_use p)) p) ;;;
         (if _validate_resource resource
          then modify (fun p =>
                 with_resources (set_add resource (_resources p)) p)
          else ret tt) ;;;
         semaphore_release ;;;
         ret true
     end)
    (fun _ => ret false).

(** The number of resources handed out and not yet returned. *)
Definition in_use_count (p : t) : nat := size (_in_use p).

End ResourcePool.

Module TaskPool.

(** An entry of [_task_metadata]. *)
Record TaskMeta : Type := mkTaskMeta {
  resource : ResourcePool.Resource;
  started_at : Time;
  context : gmap string string;
  status : string
}.

(** An entry of [_task_metrics]. *)
Record TaskMetrics : Type := mkTaskMetrics {
  start_time : Time;
  executions : Z;
  end_time : option Time;
  total_execution_time : option Q
}.

Record t : Type := mk {
  _resource_pool : ResourcePool.t;
  _task_metadata : gmap string TaskMeta;
  _task_metrics : option (gmap string TaskMetrics)
}.

Definition with_pool (p : ResourcePool.t) (s : t) : t :=
  mk p (_task_metadata s) (_task_metrics s).
Definition with_metadata (m : gmap string TaskMeta) (s : t) : t :=
  mk (_resource_pool s) m (_task_metrics s).
Definition with_metrics (m : option (gmap string TaskMetrics)) (s : t) : t :=
  mk (_resource_pool s) (_task_metadata s) m.

Definition __init__ (max_concurrent_tasks : Z) (enable_metrics : bool) : t :=
  mk (ResourcePool.__init__ max_concurrent_tasks enable_metrics) ∅
     (if enable_metrics then Some ∅ else None).

Inductive event : Type := Start | End_.

Definition _update_task_metrics (now : Time) (task_id : string) (ev : event)
  : M t unit :=
  modify (fun s =>
    match _task_metrics s with
    | None => s
    | Some m =>
        match ev with
        | Start =>
            let old := match m !! task_id with
                       | Some e => executions e
                       | None => 0
                       end in
            with_metrics
              (Some (<[task_id := mkTaskMetrics now (old + 1) None None]> m))
              s
        | End_ =>
            match m !! task_id with
            | Some e =>
                let total := match total_execution_time e with
                             | Some u => u
                             | None => 0%Q
                             end in
                with_metrics
                  (Some (<[task_id :=
                             mkTaskMetrics (start_time e) (executions e)
                               (Some now)
                               (Some (total + (now - start_time e))%Q)]> m))
                  s
            | None => s
            end
        end
    end).

(** [task_context or {}] *)
Definition context_or_empty (c : option (gmap string string))
  : gmap string string :=
  match c with Some d => d | None => ∅ end.

Definition acquire (now : Time) (task_id : string) (timeout : Q)
    (task_context : option (gmap string string)) : M t bool :=
  try_except
    (if bool_decide (task_id = "")
     then raise (ValueError "Task ID is required")
     else
       let! s := get in
       match _task_metadata s !! task_id with
       | Some _ => ret false
       | None =>
           let! r := zoom _resource_pool with_pool
                       (ResourcePool.acquire now timeout (Some task_id)) in
           modify (fun s =>
             with_metadata
               (<[task_id := mkTaskMeta r now (context_or_empty task_context)
                               "running"]> (_task_metadata s)) s) ;;;
           (fun s => match _task_metrics s with
                     | Some _ => _update_task_metrics now task_id Start s
                     | None => (Return tt, s)
                     end) ;;;
           ret true
       end)
    (fun _ => ret false).

Definition release (now : Time) (task_id : string) : M t bool :=
  try_except
    (let! s := get in
     match _task_metadata s !! task_id with
     | None => ret false
     | Some task_data =>
         modify (fun s =>
           with_metadata (delete task_id (_task_metadata s)) s) ;;;
         (fun s => match _task_metrics s with
                   | Some _ => _update_task_metrics now task_id End_ s
                   | None => (Return tt, s)
                   end) ;;;
         let! success := zoom _resource_pool with_pool
                           (ResourcePool.release now (resource task_data)
                              (Some task_id)) in
         ret success
     end)
    (fun _ => ret false).

End TaskPool.

(** ** Circuit breaker *)

Module CircuitBreaker.

(** Modelled from the spec: the three states of a circuit breaker. *)
Inductive State : Type := Closed | Open | HalfOpen.

Global Instance State_eq_dec : EqDecision State.
Proof. solve_decision. Defined.

(** Modelled from the spec: the circuit-breaker classes come from the
    packages [circuit_breaker] and [circuitbreaker], which are not part of
    the repository.  States Closed, Open and HalfOpen; Closed becomes Open
    after [failure_threshold] consecutive failures; Open becomes HalfOpen
    once [recovery_timeout] has elapsed; HalfOpen becomes Closed on the
    first success and Open on a failure. *)
Record t : Type := mk {
  failure_threshold : Q;
  recovery_timeout : Q;
  failure_count : Z;
  state : State;
  opened_at : Time
}.

Definition __init__ (failure_threshold recovery_timeout : Q) : t :=
  mk failure_threshold recovery_timeout 0 Closed 0%Q.

(** Modelled from the spec: the state as read at time [now]; an Open
    breaker whose recovery time-out has elapsed reads HalfOpen. *)
Definition current_state (now : Time) (cb : t) : State :=
  match state cb with
  | Open =>
      if Qle_bool (opened_at cb + recovery_timeout cb) now
      then HalfOpen else Open
  | s => s
  end.

(** Modelled from the spec: [is_open()] of the breaker package. *)
Definition is_open (now : Time) (cb : t) : bool :=
  bool_decide (current_state now cb = Open).

(** Modelled from the spec: [record_failure()] of the breaker package. *)
Definition record_failure (now : Time) (cb : t) : t :=
  match current_state now cb with
  | Closed =>
      let n := failure_count cb + 1 in
      if Qle_bool (failure_threshold cb) (inject_Z n)
      then mk (failure_threshold cb) (recovery_timeout cb) n Open now
      else mk (failure_threshold cb) (recovery_timeout cb) n Closed
             (opened_at cb)
  | HalfOpen =>
      mk (failure_threshold cb) (recovery_timeout cb) (failure_count cb + 1)
         Open now
  | Open =>
      mk (failure_threshold cb) (recovery_timeout cb) (failure_count cb + 1)
         Open (opened_at cb)
  end.

(** Modelled from the spec: [record_success()] of the breaker package. *)
Definition record_success (now : Time) (cb : t) : t :=
  match current_state now cb with
  | Open => cb
  | _ => mk (failure_threshold cb) (recovery_timeout cb) 0 Closed
           (opened_at cb)
  end.

End CircuitBreaker.

(** ** scraper/browser/manager.py *)

Definition DEFAULT_POOL_SIZE : Z := 10.

(** The numeric entries of [DEFAULT_BROWSER_CONFIG]; an option dictionary
    is a map from option names to numbers, the other entries are never
    read by the code below. *)
Definition DEFAULT_BROWSER_CONFIG : gmap string Q :=
  {[ "timeout" := 30000%Q ]}.

Module BrowserManager.

(** The manager, with the gauge and the error counter of
    [BROWSER_METRICS] that its methods write; log records and the duration
    histogram are write-only and are left out. *)
Record t : Type := mk {
  _config : gmap string Q;
  _browser_pool : ResourcePool.t;
  _active_browsers : gmap string ResourcePool.Resource;
  active_browsers_gauge : Z;       (* BROWSER_METRICS['active_browsers'] *)
  browser_errors : Z               (* BROWSER_METRICS['browser_errors'] *)
}.

Definition with_pool (p : ResourcePool.t) (s : t) : t :=
  mk (_config s) p (_active_browsers s) (active_browsers_gauge s)
     (browser_errors s).
Definition with_active (a : gmap string ResourcePool.Resource) (s : t) : t :=
  mk (_config s) (_browser_pool s) a (active_browsers_gauge s)
     (browser_errors s).
Definition with_gauge (g : Z) (s : t) : t :=
  mk (_config s) (_browser_pool s) (_active_browsers s) g (browser_errors s).
Definition with_errors (e : Z) (s : t) : t :=
  mk (_config s) (_browser_pool s) (_active_browsers s)
     (active_browsers_gauge s) e.

(** [{**a, **b}]: the entries of [b] win. *)
Definition merge_options (a b : gmap string Q) : gmap string Q := b ∪ a.

Definition pool_size_of (config : gmap string Q) : Z :=
  match config !! "pool_size" with
  | Some n => Qfloor n
  | None => DEFAULT_POOL_SIZE
  end.

Definition __init__ (config : gmap string Q) : t :=
  let merged := merge_options DEFAULT_BROWSER_CONFIG config in
  mk merged (ResourcePool.__init__ (pool_size_of merged) true) ∅ 0 0.

Definition get_browser (now : Time) (browser_options : gmap string Q)
  : M t ResourcePool.Resource :=
  try_except
    (let! s := get in
     let merged_options := merge_options (_config s) browser_options in
     let timeout := match merged_options !! "acquire_timeout" with
                    | Some v => v
                    | None => 30%Q
                    end in
     (* no resource_id is passed: the pool records the entry under None *)
     let! browser := zoom _browser_pool with_pool
                       (ResourcePool.acquire now timeout None) in
     (* [if not browser]: an object is never falsy *)
     let browser_id := str_id browser in
     modify (fun s =>
       with_active (<[browser_id := browser]> (_active_browsers s)) s) ;;;
     modify (fun s => with_gauge (active_browsers_gauge s + 1) s) ;;;
     ret browser)
    (fun e =>
       modify (fun s => with_errors (browser_errors s + 1) s) ;;;
       raise e).

(** [cleanup] is the outcome of [browser.cleanup()], a method of the
    pooled object. *)
Definition release_browser (now : Time)
    (cleanup : ResourcePool.Resource -> outcome unit) (browser_id : string)
  : M t bool :=
  try_except
    (let! s := get in
     match _active_browsers s !! browser_id with
     | None => ret false
     | Some browser =>
         (fun s => (cleanup browser, s)) ;;;
         let! success := zoom _browser_pool with_pool
                           (ResourcePool.release now browser
                              (Some browser_id)) in
         (if success : bool
          then
            modify (fun s =>
              with_active (delete browser_id (_active_browsers s)) s) ;;;
            modify (fun s => with_gauge (active_browsers_gauge s - 1) s)
          else ret tt) ;;;
         ret success
     end)
    (fun e =>
       modify (fun s => with_errors (browser_errors s + 1) s) ;;;
       ret false).

End BrowserManager.

(** ** scraper/scheduler.py *)

(** [CIRCUIT_BREAKER_CONFIG] *)
Definition CIRCUIT_BREAKER_failure_threshold : Q := 5.
Definition CIRCUIT_BREAKER_recovery_timeout : Q := 30.

(** The numeric entries of [scraper_settings.get_browser_context_options()];
    there is no ["acquire_timeout"] among its keys. *)
Definition browser_context_options : gmap string Q :=
  {[ "deviceScaleFactor" := 1%Q ]}.

(** [tenacity.retry(stop=stop_after_attempt(n), retry=
    retry_if_exception_type(Exception))] with [n = more + 1]: attempt [k]
    runs [f k]; an exception of the last attempt is wrapped in a
    [RetryError]. *)
Fixpoint tenacity_retry {St A} (more k : nat) (f : nat -> M St A)
  : M St A :=
  fun s =>
    match f k s with
    | (Return a, s') => (Return a, s')
    | (Raise e, s') =>
        match more with
        | O => (Raise (RetryError e), s')
        | S m => tenacity_retry m (S k) f s'
        end
    end.

Module TaskScheduler.

(** A task configuration: [Dict[str, Any]], possibly [None]. *)
Definition Config : Type := option (gmap string string).

(** A job of the APScheduler job store. *)
Record Job : Type := mkJob {
  job_id : string;
  job_kwargs : Config;
  job_priority : option Z;
  next_run_time : Time
}.

(** An entry of [_active_tasks]. *)
Record TaskData : Type := mkTaskData {
  job : Job;
  config : Config;
  status : string;
  scheduled_at : Time;
  start_time : option Time;
  end_time : option Time;
  duration : option Q
}.

Record t : Type := mk {
  _scheduler : gmap string Job;
  _browser_manager : BrowserManager.t;
  _active_tasks : gmap string TaskData;
  _task_locks : gset string;
  _circuit_breaker : CircuitBreaker.t
}.

Definition with_scheduler (j : gmap string Job) (s : t) : t :=
  mk j (_browser_manager s) (_active_tasks s) (_task_locks s)
     (_circuit_breaker s).
Definition with_browser_manager (b : BrowserManager.t) (s : t) : t :=
  mk (_scheduler s) b (_active_tasks s) (_task_locks s) (_circuit_breaker s).
Definition with_active_tasks (a : gmap string TaskData) (s : t) : t :=
  mk (_scheduler s) (_browser_manager s) a (_task_locks s)
     (_circuit_breaker s).
Definition with_task_locks (l : gset string) (s : t) : t :=
  mk (_scheduler s) (_browser_manager s) (_active_tasks s) l
     (_circuit_breaker s).
Definition with_circuit_breaker (c : CircuitBreaker.t) (s : t) : t :=
  mk (_scheduler s) (_browser_manager s) (_active_tasks s) (_task_locks s) c.

Definition __init__ (browser_manager : BrowserManager.t) : t :=
  mk ∅ browser_manager ∅ ∅
     (CircuitBreaker.__init__ CIRCUIT_BREAKER_failure_threshold
        CIRCUIT_BREAKER_recovery_timeout).

(** [not task_config or "url" not in task_config] *)
Definition invalid_config (task_config : Config) : bool :=
  match task_config with
  | None => true
  | Some d => bool_decide (d = ∅) || bool_decide (d !! "url" = None)
  end.

(** [self._scheduler.add_job(..., id=task_id, replace_existing=True)] with
    a date trigger: the job runs at once.  [failure] is the exception the
    scheduling library raises, if it does. *)
Definition add_job (now : Time) (failure : option exn) (task_id : string)
    (task_config : Config) (priority : option Z) : M t Job :=
  match failure with
  | Some e => raise e
  | None =>
      let j := mkJob task_id task_config priority now in
      modify (fun s => with_scheduler (<[task_id := j]> (_scheduler s)) s) ;;;
      ret j
  end.

(** The body of [schedule_task], one attempt. *)
Definition schedule_task_attempt (now : Time) (failure : option exn)
    (task_id : string) (task_config : Config) (priority : option Z)
  : M t bool :=
  try_except
    (if invalid_config task_config
     then raise (ValueError "Invalid task configuration")
     else
       let! s := get in
       if bool_decide
            (CircuitBreaker.current_state now (_circuit_breaker s)
             = CircuitBreaker.Open)
       then ret false
       else
         (if bool_decide (task_id ∈ _task_locks s)
          then ret tt
          else modify (fun s =>
                 with_task_locks ({[task_id]} ∪ _task_locks s) s)) ;;;
         (* async with self._task_locks[task_id] *)
         let! s := get in
         match _active_tasks s !! task_id with
         | Some _ => ret false
         | None =>
             let! j := add_job now failure task_id task_config priority in
             modify (fun s =>
               with_active_tasks
                 (<[task_id := mkTaskData j task_config "scheduled"
                                 (next_run_time j) None None None]>
                    (_active_tasks s)) s) ;;;
             ret true
         end)
    (fun e => raise e).

(** [schedule_task], under its retry decorator: three attempts, attempt
    [k] at time [clock k]. *)
Definition schedule_task (clock : nat -> Time) (failure : option exn)
    (task_id : string) (task_config : Config) (priority : option Z)
  : M t bool :=
  tenacity_retry 2 0
    (fun k => schedule_task_attempt (clock k) failure task_id task_config
                priority).

(** The value returned by [execute_task]. *)
Record Result : Type := mkResult {
  result_status : string;
  result_data : gmap string string
}.

(** The frame of [execute_task]: the scheduler and the local [browser]. *)
Definition Frame : Type := (t * option ResourcePool.Resource)%type.

Definition on_self {A} (c : M t A) : M Frame A :=
  zoom fst (fun s' fr => (s', snd fr)) c.

Definition on_browser_manager {A} (c : M BrowserManager.t A) : M t A :=
  zoom _browser_manager with_browser_manager c.

Definition set_status_running (start : Time) (d : TaskData) : TaskData :=
  mkTaskData (job d) (config d) "running" (scheduled_at d) (Some start)
    (end_time d) (duration d).

Definition set_status_completed (start finish : Time) (d : TaskData)
  : TaskData :=
  mkTaskData (job d) (config d) "completed" (scheduled_at d) (start_time d)
    (Some finish) (Some (finish - start)%Q).

(** The [try] block of [execute_task]. *)
Definition execute_task_try (start finish : Time) (task_id : string)
  : M Frame Result :=
  let! fr := get in
  let s := fst fr in
  if bool_decide
       (CircuitBreaker.current_state start (_circuit_breaker s)
        = CircuitBreaker.Open)
  then raise (RuntimeError "Circuit breaker open")
  else if negb (bool_decide (task_id ∈ _task_locks s))
  then raise (KeyError task_id)
  else
    match _active_tasks s !! task_id with
    | None => raise (RuntimeError "Task not found")
    | Some _ =>
        on_self (modify (fun s =>
          with_active_tasks
            (alter (set_status_running start) task_id (_active_tasks s)) s)) ;;;
        let! browser := on_self (on_browser_manager
                          (BrowserManager.get_browser start
                             browser_context_options)) in
        modify (fun fr : Frame => (fst fr, Some browser)) ;;;
        on_self (modify (fun s =>
          with_active_tasks
            (alter (set_status_completed start finish) task_id
               (_active_tasks s)) s)) ;;;
        ret (mkResult "completed" ∅)
    end.

(** The [finally] block of [execute_task]; the boolean returned by
    [release_browser] is dropped. *)
Definition execute_task_finally (finish : Time)
    (cleanup : ResourcePool.Resource -> outcome unit) : M Frame unit :=
  let! fr := get in
  match snd fr with
  | Some browser =>
      on_self (on_browser_manager
        (BrowserManager.release_browser finish cleanup (str_id browser))) ;;;
      ret tt
  | None => ret tt
  end.

(** The body of [execute_task], one attempt. *)
Definition execute_task_attempt (start finish : Time)
    (cleanup : ResourcePool.Resource -> outcome unit) (task_id : string)
  : M t Result :=
  fun s =>
    match
      try_finally
        (try_except (execute_task_try start finish task_id)
           (fun e =>
              on_self (modify (fun s =>
                with_circuit_breaker
                  (CircuitBreaker.record_failure finish (_circuit_breaker s))
                  s)) ;;;
              raise e))
        (execute_task_finally finish cleanup) (s, None)
    with
    | (o, fr) => (o, fst fr)
    end.

(** [execute_task], under its retry decorator: attempt [k] starts at
    [fst (clock k)] and ends at [snd (clock k)]. *)
Definition execute_task (clock : nat -> Time * Time)
    (cleanup : ResourcePool.Resource -> outcome unit) (task_id : string)
  : M t Result :=
  tenacity_retry 2 0
    (fun k => execute_task_attempt (fst (clock k)) (snd (clock k)) cleanup
                task_id).

End TaskScheduler.

(** ** Python dictionaries whose iteration order is observed

    A [dict] iterates in insertion order; assigning to a key that is
    present keeps its position, and a key that was popped and is set again
    goes to the end. *)

Module Dict.

Abbreviation t V := (list (string * V)%type) (only parsing).

Fixpoint get {V} (k : string) (d : t V) : option V :=
  match d with
  | [] => None
  | (k', v) :: rest => if bool_decide (k' = k) then Some v else get k rest
  end.

Fixpoint set {V} (k : string) (v : V) (d : t V) : t V :=
  match d with
  | [] => [(k, v)]
  | (k', v') :: rest =>
      if bool_decide (k' = k) then (k', v) :: rest
      else (k', v') :: set k v rest
  end.

(** [d.pop(k, None)]: the entry of [k] goes, the others keep their
    order. *)
Fixpoint pop {V} (k : string) (d : t V) : t V :=
  match d with
  | [] => []
  | (k', v') :: rest =>
      if bool_decide (k' = k) then pop k rest else (k', v') :: pop k rest
  end.

Definition keys {V} (d : t V) : list string := map fst d.

Definition len {V} (d : t V) : Z := Z.of_nat (length d).

End Dict.

(** ** services/proxy.py *)

Definition PROXY_POOL_SIZE : Z := 100.
Definition PROXY_SUCCESS_THRESHOLD : Q := 95 # 100.
Definition PROXY_CIRCUIT_BREAKER_THRESHOLD : Q := 85 # 100.
Definition PROXY_recovery_timeout : Q := 300.

(** [max(items, key=key)] on a non-empty list [x :: l]: the first item
    whose key is largest. *)
Fixpoint py_max_by {A} (key : A -> Q) (best : A) (l : list A) : A :=
  match l with
  | [] => best
  | x :: rest =>
      if Qltb (key best) (key x) then py_max_by key x rest
      else py_max_by key best rest
  end.

(** [AsyncRetry(max_retries=n)] with [n = more]: attempt [k] runs [f k];
    the exception of the last attempt is raised as it is. *)
Fixpoint AsyncRetry {St A} (more k : nat) (f : nat -> M St A) : M St A :=
  fun s =>
    match f k s with
    | (Return a, s') => (Return a, s')
    | (Raise e, s') =>
        match more with
        | O => (Raise e, s')
        | S m => AsyncRetry m (S k) f s'
        end
    end.

Module ProxyService.

Record ProxyMetrics : Type := mkProxyMetrics {
  success_count : Z;
  failure_count : Z;
  total_latency : Q;
  last_used : Time;
  last_success : Time;
  health_score : Q
}.

(** [ProxyMetrics()] *)
Definition ProxyMetrics_new : ProxyMetrics :=
  mkProxyMetrics 0 0 0%Q 0%Q 0%Q 1%Q.

(** [ProxyContext(proxy_url, service)] *)
Record ProxyContext : Type := mkProxyContext {
  proxy_url : string;
  ctx_start_time : Time
}.

(** The service; [proxy_health] is the labelled gauge of the module, whose
    [remove] raises [KeyError] on a label that was never set. *)
Record t : Type := mk {
  _pool_size : Z;
  _proxy_metrics : Dict.t ProxyMetrics;
  _circuit_breakers : Dict.t CircuitBreaker.t;
  proxy_health : gmap string Q
}.

Definition with_metrics (m : Dict.t ProxyMetrics) (s : t) : t :=
  mk (_pool_size s) m (_circuit_breakers s) (proxy_health s).
Definition with_breakers (b : Dict.t CircuitBreaker.t) (s : t) : t :=
  mk (_pool_size s) (_proxy_metrics s) b (proxy_health s).
Definition with_health (h : gmap string Q) (s : t) : t :=
  mk (_pool_size s) (_proxy_metrics s) (_circuit_breakers s) h.

Definition __init__ (pool_size : Z) : t := mk pool_size [] [] ∅.

(** [is_valid] is the verdict of [validate_proxy_url] on the URL. *)
Definition _add_proxy (is_valid : bool) (url : string) : M t unit :=
  if negb is_valid then ret tt
  else
    modify (fun s =>
      with_metrics (Dict.set url ProxyMetrics_new (_proxy_metrics s)) s) ;;;
    modify (fun s =>
      with_breakers
        (Dict.set url
           (CircuitBreaker.__init__ PROXY_CIRCUIT_BREAKER_THRESHOLD
              PROXY_recovery_timeout) (_circuit_breakers s)) s).

Definition _remove_proxy (url : string) : M t unit :=
  modify (fun s => with_metrics (Dict.pop url (_proxy_metrics s)) s) ;;;
  modify (fun s => with_breakers (Dict.pop url (_circuit_breakers s)) s) ;;;
  let! s := get in
  match proxy_health s !! url with
  | None => raise (KeyError url)
  | Some _ => modify (fun s => with_health (delete url (proxy_health s)) s)
  end.

(** [success / (success + failure)] on integers. *)
Definition py_div (a b : Z) : outcome Q :=
  if bool_decide (b = 0) then Raise ZeroDivisionError
  else Return (inject_Z a / inject_Z b)%Q.

Definition _record_success (now : Time) (url : string) (duration : Q)
  : M t unit :=
  let! s := get in
  match Dict.get url (_proxy_metrics s) with
  | None => ret tt
  | Some m =>
      let m1 := mkProxyMetrics (success_count m + 1) (failure_count m)
                  (total_latency m + duration)%Q (last_used m) now
                  (health_score m) in
      modify (fun s => with_metrics (Dict.set url m1 (_proxy_metrics s)) s) ;;;
      let! h := (fun s =>
                   (py_div (success_count m1)
                      (success_count m1 + failure_count m1), s)) in
      let m2 := mkProxyMetrics (success_count m1) (failure_count m1)
                  (total_latency m1) (last_used m1) (last_success m1) h in
      modify (fun s => with_metrics (Dict.set url m2 (_proxy_metrics s)) s) ;;;
      modify (fun s => with_health (<[url := h]> (proxy_health s)) s)
  end.

Definition _record_failure (url : string) : M t unit :=
  let! s := get in
  match Dict.get url (_proxy_metrics s) with
  | None => ret tt
  | Some m =>
      let m1 := mkProxyMetrics (success_count m) (failure_count m + 1)
                  (total_latency m) (last_used m) (last_success m)
                  (health_score m) in
      modify (fun s => with_metrics (Dict.set url m1 (_proxy_metrics s)) s) ;;;
      let! h := (fun s =>
                   (py_div (success_count m1)
                      (success_count m1 + failure_count m1), s)) in
      let m2 := mkProxyMetrics (success_count m1) (failure_count m1)
                  (total_latency m1) (last_used m1) (last_success m1) h in
      modify (fun s => with_metrics (Dict.set url m2 (_proxy_metrics s)) s) ;;;
      modify (fun s => with_health (<[url := h]> (proxy_health s)) s)
  end.

(** The list comprehension of [get_proxy]: the URLs of the breakers that
    are not open and whose metrics reach the threshold, in the order of
    [_circuit_breakers]; [self._proxy_metrics[proxy_url]] raises on a
    missing key. *)
Fixpoint healthy_proxies (now : Time) (metrics : Dict.t ProxyMetrics)
    (breakers : Dict.t CircuitBreaker.t) : outcome (list string) :=
  match breakers with
  | [] => Return []
  | (url, cb) :: rest =>
      if CircuitBreaker.is_open now cb
      then healthy_proxies now metrics rest
      else
        match Dict.get url metrics with
        | None => Raise (KeyError url)
        | Some m =>
            match healthy_proxies now metrics rest with
            | Raise e => Raise e
            | Return l =>
                if Qle_bool PROXY_SUCCESS_THRESHOLD (health_score m)
                then Return (url :: l) else Return l
            end
        end
  end.

(** [self._proxy_metrics[p].health_score], the key of the selection. *)
Definition score (metrics : Dict.t ProxyMetrics) (url : string) : Q :=
  match Dict.get url metrics with
  | Some m => health_score m
  | None => 0
  end.

Definition set_last_used (now : Time) (m : ProxyMetrics) : ProxyMetrics :=
  mkProxyMetrics (success_count m) (failure_count m) (total_latency m) now
    (last_success m) (health_score m).

(** The body of [get_proxy], one attempt. *)
Definition get_proxy_attempt (now : Time) : M t (string * ProxyContext) :=
  let! s := get in
  let! healthy := (fun s =>
                     (healthy_proxies now (_proxy_metrics s)
                        (_circuit_breakers s), s)) in
  match healthy with
  | [] => raise (RuntimeError "No healthy proxies available")
  | first :: others =>
      let selected_proxy :=
        py_max_by (score (_proxy_metrics s)) first others in
      match Dict.get selected_proxy (_proxy_metrics s) with
      | None => raise (KeyError selected_proxy)
      | Some m =>
          modify (fun s =>
            with_metrics
              (Dict.set selected_proxy (set_last_used now m)
                 (_proxy_metrics s)) s) ;;;
          ret (selected_proxy, mkProxyContext selected_proxy 0%Q)
      end
  end.

(** [get_proxy], under [AsyncRetry(max_retries=3)]: attempt [k] at time
    [clock k]. *)
Definition get_proxy (clock : nat -> Time) : M t (string * ProxyContext) :=
  AsyncRetry 3 0 (fun k => get_proxy_attempt (clock k)).

(** [replacement] is what [self._proxy_client.get_proxy()] hands back,
    [is_valid] the verdict of the validation of its URL. *)
Definition report_failure (now : Time) (url : string)
    (replacement : outcome string) (is_valid : bool) : M t unit :=
  _record_failure url ;;;
  let! s := get in
  (match Dict.get url (_circuit_breakers s) with
   | None => ret tt
   | Some cb =>
       let cb' := CircuitBreaker.record_failure now cb in
       modify (fun s =>
         with_breakers (Dict.set url cb' (_circuit_breakers s)) s) ;;;
       if CircuitBreaker.is_open now cb' then _remove_proxy url else ret tt
   end) ;;;
  let! s := get in
  if Dict.len (_proxy_metrics s) <? _pool_size s
  then
    try_except
      (let! new_proxy := (fun s => (replacement, s)) in
       _add_proxy is_valid new_proxy)
      (fun _ => ret tt)
  else ret tt.

(** [_check_proxy_health]: [probe] is [Some duration] when the probe
    answers 200 and [None] otherwise. *)
Definition _check_proxy_health (now : Time) (url : string) (probe : option Q)
  : M t unit :=
  match probe with
  | Some duration => _record_success now url duration
  | None => _record_failure url
  end.

(** The removal loop of [_rotate_proxies], over a snapshot of the items. *)
Fixpoint remove_underperforming (items : list (string * ProxyMetrics))
  : M t unit :=
  match items with
  | [] => ret tt
  | (url, m) :: rest =>
      (if Qltb (health_score m) PROXY_SUCCESS_THRESHOLD
       then _remove_proxy url else ret tt) ;;;
      remove_underperforming rest
  end.

Fixpoint add_all (new_proxies : list (string * bool)) : M t unit :=
  match new_proxies with
  | [] => ret tt
  | (url, is_valid) :: rest => _add_proxy is_valid url ;;; add_all rest
  end.

(** [_rotate_proxies]: [fetched] is what the upstream source returns for
    the requested count, each URL with the verdict of its validation. *)
Definition _rotate_proxies (fetched : Z -> outcome (list (string * bool)))
  : M t unit :=
  try_except
    (let! s := get in
     remove_underperforming (_proxy_metrics s) ;;;
     let! s := get in
     let current_size := Dict.len (_proxy_metrics s) in
     if current_size <? _pool_size s
     then
       let! new_proxies := (fun s =>
                              (fetched (_pool_size s - current_size), s)) in
       add_all new_proxies
     else ret tt)
    (fun _ => ret tt).

End ProxyService.

(** ** The counter store (Redis), as driven by the rate limiter *)

Module Redis.

Record Entry : Type := mkEntry {
  value : Z;
  expires_at : Time
}.

(** The server: [reachable] tells whether commands get through. *)
Record t : Type := mk {
  reachable : bool;
  data : gmap string Entry
}.

(** [GET key]: an expired key is gone. *)
Definition get (now : Time) (key : string) (d : gmap string Entry)
  : option Z :=
  match d !! key with
  | Some e => if Qltb now (expires_at e) then Some (value e) else None
  | None => None
  end.

(** [SETEX key seconds value]; a time to live that is not positive is an
    error. *)
Definition setex (now : Time) (key : string) (seconds : Z) (v : Z)
  : M (gmap string Entry) unit :=
  if seconds <=? 0 then raise ResponseError
  else modify (fun d => <[key := mkEntry v (now + inject_Z seconds)%Q]> d).

(** [INCR key] on a live key: the time to live is kept. *)
Definition incr (key : string) : M (gmap string Entry) unit :=
  modify (alter (fun e => mkEntry (value e + 1) (expires_at e)) key).

End Redis.

(** ** scraper/middleware/rate_limit.py *)

Definition DEFAULT_RATE_LIMIT : Z := 1000.
Definition DEFAULT_WINDOW_SECONDS : Z := 60.
Definition RATE_LIMIT_KEY_PREFIX : string := "scraper:rate_limit:".
Definition BURST_LIMIT_MULTIPLIER : Q := 5 # 100.
Definition MAX_BACKOFF_SECONDS : Z := 300.

(** [s.replace(a, b)] for one-character [a] and [b]. *)
Fixpoint replace_char (a b : ascii) (s : string) : string :=
  match s with
  | EmptyString => EmptyString
  | String c rest =>
      String (if bool_decide (c = a) then b else c) (replace_char a b rest)
  end.

(** [int(q)]: truncation towards zero. *)
Definition py_int (q : Q) : Z := Z.quot (Qnum q) (Z.pos (Qden q)).

Module RateLimitMiddleware.

Record Counters : Type := mkCounters {
  rate_limit_hits : Z;
  rate_limit_misses : Z;
  rate_limit_errors : Z
}.

(** [_cache._redis_client] is [None] until the cache service connects. *)
Record t : Type := mk {
  _redis_client : option Redis.t;
  _rate_limits : gmap string Z;
  _window_seconds : gmap string Z;
  _burst_multipliers : gmap string Q;
  _metrics : Counters
}.

Definition with_redis (r : option Redis.t) (s : t) : t :=
  mk r (_rate_limits s) (_window_seconds s) (_burst_multipliers s)
     (_metrics s).
Definition with_counters (c : Counters) (s : t) : t :=
  mk (_redis_client s) (_rate_limits s) (_window_seconds s)
     (_burst_multipliers s) c.

Definition __init__ (cache : option Redis.t) (rate_limits : gmap string Z)
    (window_seconds : gmap string Z) (burst_multipliers : gmap string Q) : t :=
  mk cache rate_limits window_seconds burst_multipliers (mkCounters 0 0 0).

Definition sanitize (s : string) : string :=
  replace_char "/"%char "_"%char (replace_char ":"%char "_"%char s).

Definition _get_rate_limit_key (domain : string) (client_id : option string)
  : string :=
  let key := RATE_LIMIT_KEY_PREFIX +:+ sanitize domain in
  match client_id with
  | Some c =>
      if bool_decide (c = "") then key
      else key +:+ ":client:" +:+ sanitize c
  | None => key
  end.

(** The Lua script of [check_rate_limit], run atomically by the server
    with [KEYS[1] = key], [ARGV[1] = limit] and [ARGV[2] = window]. *)
Definition script (now : Time) (key : string) (limit window : Z)
  : M (gmap string Redis.Entry) (Z * Z) :=
  let! d := get in
  match Redis.get now key d with
  | None =>
      Redis.setex now key window 1 ;;;
      ret (1, limit)
  | Some current =>
      if current <? limit
      then Redis.incr key ;;; ret (1, limit - current)
      else ret (0, 0)
  end.

(** [await self._cache._redis_client.eval(script, ...)] *)
Definition eval (now : Time) (key : string) (limit window : Z)
  : M t (Z * Z) :=
  fun s =>
    match _redis_client s with
    | None => (Raise AttributeError, s)
    | Some r =>
        if Redis.reachable r
        then
          match script now key limit window (Redis.data r) with
          | (o, d') => (o, with_redis (Some (Redis.mk true d')) s)
          end
        else (Raise ConnectionError, s)
    end.

Definition lookup_default {V} (m : gmap string V) (k : string) (dflt : V)
  : V :=
  match m !! k with Some v => v | None => dflt end.

Definition Qmin_ (a b : Q) : Q := if Qle_bool a b then a else b.

(** [self._window_seconds.get(domain, DEFAULT_WINDOW_SECONDS)] *)
Definition window_for (s : t) (domain : string) : Z :=
  lookup_default (_window_seconds s) domain DEFAULT_WINDOW_SECONDS.

(** [int(rate_limit * (1 + burst_multiplier))], both read for the domain
    with their defaults. *)
Definition burst_limit_for (s : t) (domain : string) : Z :=
  let rate_limit := lookup_default (_rate_limits s) domain
                      DEFAULT_RATE_LIMIT in
  let burst_multiplier := lookup_default (_burst_multipliers s) domain
                            BURST_LIMIT_MULTIPLIER in
  py_int (inject_Z rate_limit * (1 + burst_multiplier))%Q.

Definition check_rate_limit (now : Time) (domain : string)
    (client_id : option string) : M t (bool * Z * option Q) :=
  try_except
    (let! s := get in
     let window := window_for s domain in
     let burst_limit := burst_limit_for s domain in
     let key := _get_rate_limit_key domain client_id in
     let! result := eval now key burst_limit window in
     let '(is_allowed, remaining) := result in
     if negb (is_allowed =? 0)
     then
       modify (fun s =>
         with_counters
           (mkCounters (rate_limit_hits (_metrics s))
              (rate_limit_misses (_metrics s) + 1)
              (rate_limit_errors (_metrics s))) s) ;;;
       ret (true, remaining, None)
     else
       modify (fun s =>
         with_counters
           (mkCounters (rate_limit_hits (_metrics s) + 1)
              (rate_limit_misses (_metrics s))
              (rate_limit_errors (_metrics s))) s) ;;;
       if bool_decide (burst_limit = 0) then raise ZeroDivisionError
       else
         let backoff :=
           Qmin_ (inject_Z window
                  * (1 - inject_Z remaining / inject_Z burst_limit))%Q
                 (inject_Z MAX_BACKOFF_SECONDS) in
         ret (false, 0, Some backoff))
    (fun _ =>
       modify (fun s =>
         with_counters
           (mkCounters (rate_limit_hits (_metrics s))
              (rate_limit_misses (_metrics s))
              (rate_limit_errors (_metrics s) + 1)) s) ;;;
       (* Fail closed on errors *)
       ret (false, 0, Some (inject_Z DEFAULT_WINDOW_SECONDS))).

(** [n] calls in a row at the times [times], the flags in order. *)
Fixpoint check_all (times : list Time) (domain : string)
    (client_id : option string) (s : t) : list bool * t :=
  match times with
  | [] => ([], s)
  | now :: rest =>
      match check_rate_limit now domain client_id s with
      | (Return (allowed, _, _), s') =>
          let '(flags, s'') := check_all rest domain client_id s' in
          (allowed :: flags, s'')
      | (Raise _, s') => ([], s')
      end
  end.

End RateLimitMiddleware.

(** ** Notions used by the statements *)

Module PoolFacts.

Import ResourcePool.


(** The calls made on a pool. *)
Inductive call : Type :=
| Acquire (now : Time) (timeout : Q) (resource_id : option string)
| Release (now : Time) (r : Resource) (resource_id : option string).

Definition run_call (c : call) (p : t) : t :=
  match c with
  | Acquire now timeout resource_id => snd (acquire now timeout resource_id p)
  | Release now r resource_id => snd (release now r resource_id p)
  end.



End PoolFacts.

Module ProxyFacts.

Import ProxyService.

(** A breaker entry passes the filter of [get_proxy] at time [now]. *)
Definition qualifies (now : Time) (metrics : Dict.t ProxyMetrics)
    (entry : string * CircuitBreaker.t) : bool :=
  negb (CircuitBreaker.is_open now (snd entry))
  && Qle_bool PROXY_SUCCESS_THRESHOLD (score metrics (fst entry)).

(** The URLs that pass the filter, in the order of the registry. *)
Definition candidates (now : Time) (s : t) : list string :=
  map fst (filter (fun e => qualifies now (_proxy_metrics s) e = true)
             (_circuit_breakers s)).

(** Every proxy that has a breaker has metrics: the two dictionaries are
    filled and emptied together. *)
Definition in_sync (s : t) : Prop :=
  forallb (fun e : string * CircuitBreaker.t =>
             match Dict.get (fst e) (_proxy_metrics s) with
             | Some _ => true
             | None => false
             end) (_circuit_breakers s) = true.

(** The proxy is in neither dictionary. *)
Definition absent (url : string) (s : t) : Prop :=
  (url ∉ Dict.keys (_proxy_metrics s))
  /\ (url ∉ Dict.keys (_circuit_breakers s)).

(** The counters of the proxies are not negative. *)
Definition counts_nonneg (m : ProxyMetrics) : Prop :=
  0 <= success_count m /\ 0 <= failure_count m.

(** The operations of the service, as the background loops and the
    callers issue them. *)
Inductive op : Type :=
| RecordSuccess (now : Time) (url : string) (duration : Q)
| RecordFailure (url : string)
| CheckHealth (now : Time) (url : string) (probe : option Q)
| GetProxy (clock : nat -> Time)
| ReportFailure (now : Time) (url : string) (replacement : outcome string)
    (is_valid : bool)
| Rotate (fetched : Z -> outcome (list (string * bool)))
| AddProxy (is_valid : bool) (url : string).

Definition run_op (o : op) (s : t) : t :=
  match o with
  | RecordSuccess now url duration => snd (_record_success now url duration s)
  | RecordFailure url => snd (_record_failure url s)
  | CheckHealth now url probe => snd (_check_proxy_health now url probe s)
  | GetProxy clock => snd (get_proxy clock s)
  | ReportFailure now url replacement is_valid =>
      snd (report_failure now url replacement is_valid s)
  | Rotate fetched => snd (_rotate_proxies fetched s)
  | AddProxy is_valid url => snd (_add_proxy is_valid url s)
  end.

Definition run_ops (ops : list op) (s : t) : t :=
  fold_left (fun s o => run_op o s) ops s.

(** The operation may put [url] into the registry. *)
Definition may_add (url : string) (o : op) : Prop :=
  match o with
  | ReportFailure _ _ (Return u) true => u = url
  | Rotate fetched => exists n l, fetched n = Return l /\ (url, true) ∈ l
  | AddProxy true u => u = url
  | _ => False
  end.

(** A computation keeps a property of the registry, whatever it returns. *)
Definition preserves {A} (P : t -> Prop) (c : M t A) : Prop :=
  forall s, P s -> P (snd (c s)).

End ProxyFacts.

(** ** utils/concurrency.py: the clean-up sweep *)

Module PoolCleanup.

Import ResourcePool.

(** [current_time - data['last_activity'] > DEFAULT_TIMEOUT] *)
Definition is_stale (current_time : Time) (data : InUse) : bool :=
  Qltb DEFAULT_TIMEOUT (current_time - last_activity data).

(** The list comprehension of [_periodic_cleanup]: the ids whose entry is
    stale. *)
Definition stale_resources (current_time : Time) (p : t)
  : list (option string) :=
  (filter (fun kv : option string * InUse =>
             is_stale current_time (snd kv) = true)
     (map_to_list (_in_use p))).*1.

Definition key_name (rid : option string) : string :=
  match rid with Some k => k | None => "None" end.

(** [for rid in stale_resources: await self.release(self._in_use[rid]
    ['resource'], rid)] *)
Fixpoint release_each (now : Time) (rids : list (option string))
  : M t unit :=
  match rids with
  | [] => ret tt
  | rid :: rest =>
      let! p := get in
      match _in_use p !! rid with
      | None => raise (KeyError (key_name rid))
      | Some data =>
          release now (resource data) rid ;;;
          release_each now rest
      end
  end.

(** One turn of the loop of [_periodic_cleanup], after its sleep: the
    exceptions of the body are logged and dropped. *)
Definition _periodic_cleanup_pass (current_time : Time) : M t unit :=
  try_except
    (let! p := get in
     release_each current_time (stale_resources current_time p))
    (fun _ => ret tt).

End PoolCleanup.

(** ** utils/retry.py *)

Module Retry.

Definition DEFAULT_JITTER_FACTOR : Q := 1 # 10.

(** [min(a, b)]: the first argument unless the second one is smaller. *)
Definition py_min (a b : Q) : Q := if Qltb b a then b else a.

(** [calculate_delay]; [jitter] is the value drawn by
    [random.uniform(-jitter_factor, jitter_factor)]. *)
Definition calculate_delay (attempt : Z)
    (initial_delay max_delay backoff_factor jitter_factor : Q) (jitter : Q)
  : outcome Q :=
  if (attempt <? 0) || Qle_bool initial_delay 0 || Qle_bool max_delay 0
     || Qle_bool backoff_factor 1
  then Raise (ValueError "Invalid retry parameters")
  else
    let delay := py_min (initial_delay * backoff_factor ^ attempt) max_delay in
    let final_delay := (delay * (1 + jitter))%Q in
    Return (py_min final_delay max_delay).

(** The arguments of the decorators [retry] and [AsyncRetry];
    [exceptions] tells which exceptions are caught. *)
Record Config : Type := mkConfig {
  max_retries : Z;
  initial_delay : Q;
  max_delay : Q;
  backoff_factor : Q;
  exceptions : exn -> bool
}.

(** The loop of [wrapper], shared by [retry] and [AsyncRetry]: [n]
    iterations are left, [func attempt] is the call made at that attempt
    and [jitter attempt] the jitter drawn after it.  An exception of
    [calculate_delay] leaves the [except] block in place of the caught one;
    after the loop, [raise last_exception] raises [TypeError] when nothing
    was caught. *)
Fixpoint attempts {St A} (cfg : Config) (jitter : Z -> Q)
    (func : Z -> M St A) (n : nat) (attempt : Z) (last_exception : option exn)
  : M St A :=
  match n with
  | O =>
      match last_exception with
      | Some e => raise e
      | None => raise TypeError
      end
  | S n' =>
      fun s =>
        match func attempt s with
        | (Return a, s') => (Return a, s')
        | (Raise e, s') =>
            if exceptions cfg e
            then
              if attempt =? max_retries cfg then (Raise e, s')
              else
                match calculate_delay attempt (initial_delay cfg)
                        (max_delay cfg) (backoff_factor cfg)
                        DEFAULT_JITTER_FACTOR (jitter attempt) with
                | Raise e' => (Raise e', s')
                | Return _ =>
                    attempts cfg jitter func n' (attempt + 1) (Some e) s'
                end
            else (Raise e, s')
        end
  end.

(** [for attempt in range(max_retries + 1)] *)
Definition wrapper {St A} (cfg : Config) (jitter : Z -> Q)
    (func : Z -> M St A) : M St A :=
  attempts cfg jitter func (Z.to_nat (max_retries cfg + 1)) 0 None.



End Retry.

(** ** scraper/middleware/rate_limit.py: reset and enforcement *)

Module RateLimitAdmin.

Import RateLimitMiddleware.

(** [reset_rate_limit].  The lock of the client is taken without a
    time-out: while the lock key is held by someone else the call does not
    come back, which is the result [None]; otherwise the key of the bucket
    is deleted and the lock is given back. *)
Definition reset_rate_limit (now : Time) (domain : string)
    (client_id : option string) (s : t) : option (outcome bool * t) :=
  let key := _get_rate_limit_key domain client_id in
  let lock_key := key +:+ ":lock" in
  match _redis_client s with
  | None => Some (Return false, s)
  | Some r =>
      if Redis.reachable r
      then
        match Redis.get now lock_key (Redis.data r) with
        | Some _ => None
        | None =>
            Some (Return true,
                  with_redis
                    (Some (Redis.mk true
                             (delete lock_key (delete key (Redis.data r)))))
                    s)
        end
      else Some (Return false, s)
  end.

(** What [handle_rate_limit] ends with: it returns, or it raises
    [RateLimitExceeded(retry_after, quota_details)]. *)
Inductive handled : Type :=
| Proceed
| RateLimitExceeded (retry_after : Z) (limit remaining window_seconds : Z).

(** [int(backoff) if backoff else DEFAULT_WINDOW_SECONDS] *)
Definition retry_after_of (backoff : option Q) : Z :=
  match backoff with
  | Some b => if Qeq_bool b 0 then DEFAULT_WINDOW_SECONDS else py_int b
  | None => DEFAULT_WINDOW_SECONDS
  end.

Definition handle_rate_limit (now : Time) (domain : string)
    (client_id : option string) : M t handled :=
  let! result := check_rate_limit now domain client_id in
  let '(is_allowed, remaining, backoff) := result in
  if negb is_allowed
  then
    let! s := get in
    ret (RateLimitExceeded (retry_after_of backoff)
           (lookup_default (_rate_limits s) domain DEFAULT_RATE_LIMIT)
           remaining
           (lookup_default (_window_seconds s) domain DEFAULT_WINDOW_SECONDS))
  else ret Proceed.

(** The number of calls let through. *)
Definition passed (flags : list bool) : Z :=
  Z.of_nat (length (filter (fun b : bool => b = true) flags)).

End RateLimitAdmin.

Module KeyFacts.

(** The character occurs in the string. *)
Fixpoint contains (c : ascii) (s : string) : bool :=
  match s with
  | EmptyString => false
  | String c' rest => bool_decide (c' = c) || contains c rest
  end.

End KeyFacts.

(** ** scraper/browser/manager.py: sequences of calls *)

Module BrowserFacts.

Import BrowserManager.

(** The calls made on a manager. *)
Inductive call : Type :=
| GetBrowser (now : Time) (browser_options : gmap string Q)
| ReleaseBrowser (now : Time)
    (cleanup : ResourcePool.Resource -> outcome unit) (browser_id : string).

Definition run_call (c : call) (s : t) : t :=
  match c with
  | GetBrowser now browser_options => snd (get_browser now browser_options s)
  | ReleaseBrowser now cleanup browser_id =>
      snd (release_browser now cleanup browser_id s)
  end.

Definition run_calls (calls : list call) (s : t) : t :=
  fold_left (fun s c => run_call c s) calls s.

(** The pool holds no entry under a browser id: its only key, if any, is
    [None]. *)
Definition unkeyed (s : t) : Prop :=
  forall k, ResourcePool._in_use (_browser_pool s) !! Some k = None.

(** [merged_options.get('acquire_timeout', 30.0)] *)
Definition acquire_timeout (s : t) (browser_options : gmap string Q) : Q :=
  match merge_options (_config s) browser_options !! "acquire_timeout" with
  | Some v => v
  | None => 30%Q
  end.

End BrowserFacts.

(** ** scraper/scheduler.py: what a scheduling attempt stores *)

Module SchedulerFacts.

Import TaskScheduler.

(** [if task_id not in self._task_locks: self._task_locks[task_id] =
    asyncio.Lock()] *)
Definition with_lock (task_id : string) (s : t) : t :=
  if bool_decide (task_id ∈ _task_locks s) then s
  else with_task_locks ({[task_id]} ∪ _task_locks s) s.

(** The entry that [schedule_task] stores for a task. *)
Definition scheduled (now : Time) (task_id : string) (task_config : Config)
    (priority : option Z) : TaskData :=
  let j := mkJob task_id task_config priority now in
  mkTaskData j task_config "scheduled" (next_run_time j) None None None.

End SchedulerFacts.

(** ** services/proxy.py: the state of the registry *)

Module RotationFacts.

Import ProxyService.

(** [metrics.health_score < PROXY_SUCCESS_THRESHOLD] *)
Definition underperforming (m : ProxyMetrics) : bool :=
  Qltb (health_score m) PROXY_SUCCESS_THRESHOLD.

(** Every tracked proxy reaches the success threshold. *)
Definition all_healthy (s : t) : Prop :=
  forall url m,
    Dict.get url (_proxy_metrics s) = Some m ->
    (PROXY_SUCCESS_THRESHOLD <= health_score m)%Q.

(** The gauge has a label for every tracked proxy that is below the
    threshold. *)
Definition labelled (s : t) : Prop :=
  forall url m,
    (url, m) ∈ _proxy_metrics s -> underperforming m = true ->
    is_Some (proxy_health s !! url).

End RotationFacts.

Module RegistryFacts.

Import ProxyService RotationFacts.

(** The registry as the operations keep it: no proxy is listed twice, the
    two dictionaries list the same proxies in the same order, and the gauge
    has a label for every proxy below the threshold. *)
Definition well_formed (s : t) : Prop :=
  NoDup (Dict.keys (_proxy_metrics s))
  /\ Dict.keys (_proxy_metrics s) = Dict.keys (_circuit_breakers s)
  /\ labelled s.

(** The registry holds at most [bound] proxies and its size setting is
    [size]. *)
Definition within (bound size : Z) (s : t) : Prop :=
  Dict.len (_proxy_metrics s) <= bound /\ _pool_size s = size.

End RegistryFacts.

(** ** utils/concurrency.py: the metrics *)

Module PoolMetrics.

(** [self._resource_metrics.get(resource_id, {}).get('acquisitions', 0)] *)
Definition acquisitions_of (m : gmap (option string) ResourcePool.Metrics)
    (resource_id : option string) : Z :=
  match m !! resource_id with
  | Some e => ResourcePool.acquisitions e
  | None => 0
  end.

(** [self._task_metrics.get(task_id, {}).get('executions', 0)] *)
Definition executions_of (m : gmap string TaskPool.TaskMetrics)
    (task_id : string) : Z :=
  match m !! task_id with
  | Some e => TaskPool.executions e
  | None => 0
  end.

(** [TaskPool.get_task_metrics] *)
Definition get_task_metrics (s : TaskPool.t) : gmap string TaskPool.TaskMetrics :=
  match TaskPool._task_metrics s with
  | Some m => m
  | None => ∅
  end.

End PoolMetrics.

(** * Properties *)

(** ** The resource pool *)

Section ResourcePoolFacts.

Import ResourcePool.

Variables (now : Time) (timeout : Q) (resource_id : option string).

(** The two ways [acquire] ends: with a permit taken and the entry
    recorded, or with [TimeoutError] and one permit more than before. *)
Lemma acquire_cases (p : t) :
  (exists r p',
      acquire now timeout resource_id p = (Return r, p')
      /\ _in_use p' = <[resource_id := mkInUse r now now]> (_in_use p)
      /\ _semaphore p' = _semaphore p - 1
      /\ 0 < _semaphore p)
  \/ (acquire now timeout resource_id p
      = (Raise (TimeoutError "Resource acquisition timeout"),
         with_semaphore (_semaphore p + 1) p)
      /\ (Qltb 0 timeout && (0 <? _semaphore p) = false)).
Proof.
  unfold acquire, try_except, bind, semaphore_wait_for.
  destruct (Qltb 0 timeout && (0 <? _semaphore p)) eqn:Hw.
  - left. apply andb_prop in Hw as [_ Hs]. apply Z.ltb_lt in Hs.
    unfold get_or_create, _create_resource.
    destruct p as [sem res inuse mx met nxt]; simpl in *.
    destruct res as [|r rest]; destruct met as [m|]; simpl;
      eexists _, _; (split; [reflexivity|]); simpl; auto.
  - right. split; [reflexivity|reflexivity].
Qed.

Lemma acquire_returns_entry (p p' : t) (r : Resource) :
  acquire now timeout resource_id p = (Return r, p') ->
  _in_use p' !! resource_id = Some (mkInUse r now now).
Proof.
  intros H. destruct (acquire_cases p) as [(r0 & p0 & E & Hu & _)|[E _]];
    rewrite E in H; [|discriminate].
  inversion H; subst. rewrite Hu. apply lookup_insert_eq.
Qed.

Lemma release_absent_id (r : Resource) (p : t) :
  _in_use p !! resource_id = None ->
  release now r resource_id p = (Return false, p).
Proof.
  intros H. unfold release, try_except, bind, get. rewrite H. reflexivity.
Qed.

End ResourcePoolFacts.

(** C9. Releasing a resource id that is not in the in-use map returns
    false and leaves the pool as it was: idle set, in-use map, semaphore
    and metrics. *)
Theorem release_unacquired_is_noop (now : Time) (r : ResourcePool.Resource)
    (resource_id : option string) (p : ResourcePool.t) :
  ResourcePool._in_use p !! resource_id = None ->
  ResourcePool.release now r resource_id p = (Return false, p).
Proof.
  intros H. unfold ResourcePool.release, try_except, bind, get.
  rewrite H. reflexivity.
Qed.

Lemma release_unacquired_is_noop_witness :
  let p := snd (ResourcePool.acquire 0%Q 30%Q (Some "held")
                  (ResourcePool.__init__ 2 true)) in
  ResourcePool._in_use p !! Some "never" = None
  /\ ResourcePool.release 1%Q 7%nat (Some "never") p = (Return false, p).
Proof.
  intros p. split; [vm_compute; reflexivity|].
  apply (release_unacquired_is_noop 1%Q 7%nat (Some "never") p).
  vm_compute. reflexivity.
Defined.

(** C2 (the code breaks it). A pool of size 1: the first acquisition takes
    the only permit, the second one times out, and its handler releases a
    permit that was never taken; a third acquisition then succeeds while
    the first resource is still held, so two resources are in use. *)
Theorem acquire_timeout_leaks_a_permit :
  let p0 := ResourcePool.__init__ 1 true in
  let r1 := ResourcePool.acquire 0%Q 30%Q (Some "a") p0 in
  let r2 := ResourcePool.acquire 1%Q 30%Q (Some "b") (snd r1) in
  let r3 := ResourcePool.acquire 40%Q 30%Q (Some "c") (snd r2) in
  fst r1 = Return 0%nat
  /\ ResourcePool._semaphore (snd r1) = 0
  /\ fst r2 = Raise (TimeoutError "Resource acquisition timeout")
  /\ ResourcePool._semaphore (snd r2) = 1
  /\ fst r3 = Return 1%nat
  /\ ResourcePool.in_use_count (snd r3) = 2%nat
  /\ ResourcePool._max_size (snd r3) = 1.
Proof. vm_compute. repeat split. Qed.

(** Whatever the pool, an acquisition that times out leaves one permit
    more than it found. *)
Lemma acquire_timeout_adds_permit (now : Time) (timeout : Q)
    (resource_id : option string) (p p' : ResourcePool.t) (e : exn) :
  ResourcePool.acquire now timeout resource_id p = (Raise e, p') ->
  ResourcePool._semaphore p' = ResourcePool._semaphore p + 1.
Proof.
  intros H.
  destruct (acquire_cases now timeout resource_id p)
    as [(r0 & p0 & E & _)|[E _]]; rewrite E in H; [discriminate|].
  inversion H; subst. reflexivity.
Qed.

Section PoolBound.

Import ResourcePool PoolFacts.

Lemma release_held (now : Time) (r : Resource) (resource_id : option string)
    (p : t) (u : InUse) :
  _in_use p !! resource_id = Some u ->
  exists p',
    release now r resource_id p = (Return true, p')
    /\ _in_use p' = delete resource_id (_in_use p)
    /\ _semaphore p' = _semaphore p + 1
    /\ _max_size p' = _max_size p.
Proof.
  intros H. unfold release, try_except, bind, get. rewrite H.
  destruct p as [sem res inuse mx met nxt]; simpl in *.
  destruct met as [m|]; simpl.
  - destruct (m !! resource_id); simpl; eexists; repeat split; reflexivity.
  - eexists; repeat split; reflexivity.
Qed.





End PoolBound.

(** ** The task pool *)

(** C10. [TaskPool.acquire] returns a boolean on every input; it is false
    for an empty task id, for a task id that already holds a slot (and then
    nothing changes), and when the acquisition from the underlying pool
    raises; a true result records a slot for the task id, which had none
    before, under the same resource as the entry of the pool. *)
Theorem task_pool_acquire_total (now : Time) (task_id : string) (timeout : Q)
    (task_context : option (gmap string string)) (s : TaskPool.t) :
  exists (b : bool) (s' : TaskPool.t),
    TaskPool.acquire now task_id timeout task_context s = (Return b, s')
    /\ (task_id = "" -> b = false /\ s' = s)
    /\ (is_Some (TaskPool._task_metadata s !! task_id) -> b = false /\ s' = s)
    /\ (is_raise (fst (ResourcePool.acquire now timeout (Some task_id)
                         (TaskPool._resource_pool s))) = true -> b = false)
    /\ (b = true ->
        TaskPool._task_metadata s !! task_id = None
        /\ exists meta u,
            TaskPool._task_metadata s' !! task_id = Some meta
            /\ ResourcePool._in_use (TaskPool._resource_pool s')
                 !! Some task_id = Some u
            /\ ResourcePool.resource u = TaskPool.resource meta).
Proof.
  unfold TaskPool.acquire, try_except.
  destruct (bool_decide (task_id = "")) eqn:Hid.
  { exists false, s. simpl. repeat split; auto; discriminate. }
  apply bool_decide_eq_false in Hid.
  unfold bind at 1, get.
  destruct (TaskPool._task_metadata s !! task_id) as [old|] eqn:Hm.
  { exists false, s. simpl. repeat split; auto; discriminate. }
  unfold bind at 1, zoom.
  destruct (ResourcePool.acquire now timeout (Some task_id)
              (TaskPool._resource_pool s)) as [[r|e] p'] eqn:Ha.
  - pose proof (acquire_returns_entry _ _ _ _ _ _ Ha) as Hin.
    destruct s as [pool meta met]; simpl in *.
    destruct met as [m|]; simpl.
    + eexists true, _. split; [reflexivity|].
      split; [intros; contradiction|].
      split; [intros [? ?]; discriminate|].
      split; [discriminate|]. intros _. split; [reflexivity|].
      eexists _, _. simpl. rewrite lookup_insert_eq. split; [reflexivity|].
      split; [exact Hin | reflexivity].
    + eexists true, _. split; [reflexivity|].
      split; [intros; contradiction|].
      split; [intros [? ?]; discriminate|].
      split; [discriminate|]. intros _. split; [reflexivity|].
      eexists _, _. simpl. rewrite lookup_insert_eq. split; [reflexivity|].
      split; [exact Hin | reflexivity].
  - eexists false, _. simpl. split; [reflexivity|].
    split; [intros; contradiction|].
    split; [intros [? ?]; discriminate|].
    split; [reflexivity | discriminate].
Qed.

Lemma task_pool_acquire_total_witness :
  let s := snd (TaskPool.acquire 0%Q "t1" 30%Q None
                  (TaskPool.__init__ 1 true)) in
  is_Some (TaskPool._task_metadata s !! "t1")
  /\ exists (b : bool) (s' : TaskPool.t),
      TaskPool.acquire 1%Q "t1" 30%Q None s = (Return b, s')
      /\ b = false /\ s' = s.
Proof.
  intros s.
  assert (Hheld : is_Some (TaskPool._task_metadata s !! "t1"))
    by (vm_compute; eexists; reflexivity).
  split; [exact Hheld|].
  destruct (task_pool_acquire_total 1%Q "t1" 30%Q None s)
    as (b & s' & E & _ & Hdup & _).
  exists b, s'. split; [exact E|]. exact (Hdup Hheld).
Defined.

(** ** The browser manager and the scheduler *)

(** [get_browser] leaves the pool entry under the key [None]; the release
    asks the pool for the key [str(id(browser))], which the pool does not
    hold, so it answers false and the browser stays in the active map with
    its permit taken. *)
Lemma release_browser_after_get_browser (t1 t2 : Time)
    (options : gmap string Q)
    (cleanup : ResourcePool.Resource -> outcome unit)
    (bm bm1 : BrowserManager.t) (b : ResourcePool.Resource) :
  (forall k, is_Some (ResourcePool._in_use (BrowserManager._browser_pool bm)
                        !! Some k) -> False) ->
  BrowserManager.get_browser t1 options bm = (Return b, bm1) ->
  exists bm2,
    BrowserManager.release_browser t2 cleanup (str_id b) bm1
    = (Return false, bm2)
    /\ BrowserManager._active_browsers bm2 !! str_id b = Some b
    /\ ResourcePool._semaphore (BrowserManager._browser_pool bm2)
       = ResourcePool._semaphore (BrowserManager._browser_pool bm) - 1.
Proof.
  intros Hkeys Hget.
  unfold BrowserManager.get_browser, try_except in Hget.
  unfold bind at 1, get in Hget. unfold bind at 1, zoom in Hget.
  set (timeout := match _ !! "acquire_timeout" with
                  | Some v => v | None => 30%Q end) in Hget.
  destruct (acquire_cases t1 timeout None (BrowserManager._browser_pool bm))
    as [(r & p' & E & Hu & Hs & _)|[E _]]; rewrite E in Hget;
    [|simpl in Hget; discriminate].
  simpl in Hget. inversion Hget; subst b bm1; clear Hget.
  assert (Hnone : ResourcePool._in_use p' !! Some (str_id r) = None).
  { rewrite Hu, lookup_insert_ne by discriminate.
    destruct (ResourcePool._in_use _ !! Some (str_id r)) eqn:Hl; [|reflexivity].
    exfalso. apply (Hkeys (str_id r)). rewrite Hl. eauto. }
  unfold BrowserManager.release_browser, try_except.
  unfold bind at 1, get. simpl. rewrite lookup_insert_eq.
  unfold bind at 1. destruct (cleanup r) as [[]|e].
  - unfold bind at 1, zoom. simpl.
    rewrite (release_absent_id t2 (Some (str_id r)) r p' Hnone).
    simpl. eexists. split; [reflexivity|]. simpl.
    rewrite lookup_insert_eq. split; [reflexivity | exact Hs].
  - simpl. eexists. split; [reflexivity|]. simpl.
    rewrite lookup_insert_eq. split; [reflexivity | exact Hs].
Qed.

(** C3 (the code breaks it). A task is scheduled and executed on a fresh
    manager with ten permits.  The execution succeeds, yet afterwards the
    browser is still in the active map, the gauge reads one, the pool has
    nine permits and keeps its entry, and releasing the id generated at
    acquisition answers false. *)
Theorem execute_task_does_not_return_the_browser :
  let clock := fun k : nat => inject_Z (Z.of_nat k) in
  let bm0 := BrowserManager.__init__ ∅ in
  let s1 := snd (TaskScheduler.schedule_task clock None "t1"
                   (Some {[ "url" := "http://example.com" ]}) None
                   (TaskScheduler.__init__ bm0)) in
  let r := TaskScheduler.execute_task (fun k => (clock k, clock (S k)))
             (fun _ => Return tt) "t1" s1 in
  let bm := TaskScheduler._browser_manager (snd r) in
  BrowserManager._active_browsers bm0 = ∅
  /\ ResourcePool._semaphore (BrowserManager._browser_pool bm0) = 10
  /\ fst r = Return (TaskScheduler.mkResult "completed" ∅)
  /\ BrowserManager._active_browsers bm !! str_id 0 = Some 0%nat
  /\ BrowserManager.active_browsers_gauge bm = 1
  /\ ResourcePool._semaphore (BrowserManager._browser_pool bm) = 9
  /\ ResourcePool.in_use_count (BrowserManager._browser_pool bm) = 1%nat
  /\ fst (BrowserManager.release_browser 5%Q (fun _ => Return tt) (str_id 0)
            bm) = Return false.
Proof. vm_compute. repeat split. Qed.

(** C4, as the claim states it, fails: a configuration without a target
    URL makes [schedule_task] raise; it does not return false. *)
Lemma schedule_task_invalid_config_raises :
  fst (TaskScheduler.schedule_task (fun k => inject_Z (Z.of_nat k)) None "t1"
         (Some ∅) None
         (TaskScheduler.__init__ (BrowserManager.__init__ ∅)))
  = Raise (RetryError (ValueError "Invalid task configuration")).
Proof. vm_compute. reflexivity. Qed.

Lemma tenacity_retry_return {St A} (more k : nat) (f : nat -> M St A)
    (s s' : St) (a : A) :
  f k s = (Return a, s') -> tenacity_retry more k f s = (Return a, s').
Proof. intros H. destruct more; simpl; rewrite H; reflexivity. Qed.

Lemma tenacity_retry_stuck {St A} (more k : nat) (f : nat -> M St A) (s : St)
    (e : exn) :
  (forall j, f j s = (Raise e, s)) ->
  tenacity_retry more k f s = (Raise (RetryError e), s).
Proof.
  intros H. revert k. induction more as [|m IH]; intros k; simpl; rewrite H;
    [reflexivity | apply IH].
Qed.

(** C4, amended. [schedule_task] raises when the configuration is empty
    or has no target URL (each of the three attempts raises [ValueError],
    and nothing changes); with a valid configuration it returns false when
    the breaker is Open, leaving the scheduler as it was, and when the task
    id is already active, leaving the active tasks, the job store and the
    breaker as they were. *)
Theorem schedule_task_rejections (clock : nat -> Time) (failure : option exn)
    (task_id : string) (task_config : TaskScheduler.Config)
    (priority : option Z) (s : TaskScheduler.t) :
  (TaskScheduler.invalid_config task_config = true ->
   TaskScheduler.schedule_task clock failure task_id task_config priority s
   = (Raise (RetryError (ValueError "Invalid task configuration")), s))
  /\ (TaskScheduler.invalid_config task_config = false ->
      CircuitBreaker.current_state (clock 0%nat)
        (TaskScheduler._circuit_breaker s) = CircuitBreaker.Open ->
      TaskScheduler.schedule_task clock failure task_id task_config priority s
      = (Return false, s))
  /\ (TaskScheduler.invalid_config task_config = false ->
      CircuitBreaker.current_state (clock 0%nat)
        (TaskScheduler._circuit_breaker s) <> CircuitBreaker.Open ->
      is_Some (TaskScheduler._active_tasks s !! task_id) ->
      exists s',
        TaskScheduler.schedule_task clock failure task_id task_config
          priority s = (Return false, s')
        /\ TaskScheduler._active_tasks s' = TaskScheduler._active_tasks s
        /\ TaskScheduler._scheduler s' = TaskScheduler._scheduler s
        /\ TaskScheduler._circuit_breaker s'
           = TaskScheduler._circuit_breaker s
        /\ TaskScheduler._browser_manager s'
           = TaskScheduler._browser_manager s).
Proof.
  unfold TaskScheduler.schedule_task. split; [|split].
  - intros Hc. apply tenacity_retry_stuck. intros j.
    unfold TaskScheduler.schedule_task_attempt, try_except. rewrite Hc.
    reflexivity.
  - intros Hc Ho. apply tenacity_retry_return.
    unfold TaskScheduler.schedule_task_attempt, try_except. rewrite Hc.
    unfold bind at 1, get. rewrite bool_decide_eq_true_2 by exact Ho.
    reflexivity.
  - intros Hc Ho [d Hd].
    destruct (bool_decide (task_id ∈ TaskScheduler._task_locks s)) eqn:Hl;
      eexists; (split;
        [ apply tenacity_retry_return;
          unfold TaskScheduler.schedule_task_attempt, try_except; rewrite Hc;
          unfold bind at 1, get; rewrite bool_decide_eq_false_2 by exact Ho;
          unfold bind at 1; rewrite Hl;
          unfold ret, modify, bind, get; simpl; rewrite Hd; reflexivity
        | simpl; auto ]).
Qed.

Lemma schedule_task_rejections_witness :
  let clock := fun k : nat => inject_Z (Z.of_nat k) in
  let cfg := Some ({[ "url" := "http://example.com" ]} : gmap string string) in
  let s0 := TaskScheduler.__init__ (BrowserManager.__init__ ∅) in
  let s_open :=
    TaskScheduler.with_circuit_breaker
      (CircuitBreaker.mk 5 30 5 CircuitBreaker.Open 0%Q) s0 in
  let s1 := snd (TaskScheduler.schedule_task clock None "t1" cfg None s0) in
  TaskScheduler.schedule_task clock None "t1" (Some ∅) None s0
  = (Raise (RetryError (ValueError "Invalid task configuration")), s0)
  /\ TaskScheduler.schedule_task clock None "t1" cfg None s_open
     = (Return false, s_open)
  /\ exists s',
      TaskScheduler.schedule_task clock None "t1" cfg None s1
      = (Return false, s')
      /\ TaskScheduler._active_tasks s' = TaskScheduler._active_tasks s1
      /\ TaskScheduler._scheduler s' = TaskScheduler._scheduler s1
      /\ TaskScheduler._circuit_breaker s' = TaskScheduler._circuit_breaker s1
      /\ TaskScheduler._browser_manager s' = TaskScheduler._browser_manager s1.
Proof.
  intros clock cfg s0 s_open s1. split; [|split].
  - apply (proj1 (schedule_task_rejections clock None "t1" (Some ∅) None s0)).
    vm_compute. reflexivity.
  - apply (proj1 (proj2 (schedule_task_rejections clock None "t1" cfg None
                           s_open))).
    + vm_compute. reflexivity.
    + vm_compute. reflexivity.
  - apply (proj2 (proj2 (schedule_task_rejections clock None "t1" cfg None
                           s1))).
    + vm_compute. reflexivity.
    + vm_compute. discriminate.
    + vm_compute. eexists. reflexivity.
Defined.

(** ** The rate limiter *)

(** C1, as the claim states it, fails: with the counter store out of
    reach the call answers [allowed = false]. *)
Lemma check_rate_limit_store_down_rejects :
  let s := RateLimitMiddleware.__init__ (Some (Redis.mk false ∅)) ∅ ∅ ∅ in
  fst (RateLimitMiddleware.check_rate_limit 0%Q "example.com" None s)
  = Return (false, 0, Some (inject_Z 60)).
Proof. vm_compute. reflexivity. Qed.

(** C1, amended. Whenever the evaluation of the script on the counter
    store raises (store out of reach, client not connected, command
    refused), [check_rate_limit] fails closed: it returns [allowed = false]
    with no remaining quota and a retry delay of [DEFAULT_WINDOW_SECONDS],
    and counts one more error; nothing else changes. *)
Theorem check_rate_limit_fails_closed (now : Time) (domain : string)
    (client_id : option string) (s s1 : RateLimitMiddleware.t) (e : exn) :
  RateLimitMiddleware.eval now
    (RateLimitMiddleware._get_rate_limit_key domain client_id)
    (RateLimitMiddleware.burst_limit_for s domain)
    (RateLimitMiddleware.window_for s domain) s = (Raise e, s1) ->
  RateLimitMiddleware.check_rate_limit now domain client_id s
  = (Return (false, 0, Some (inject_Z DEFAULT_WINDOW_SECONDS)),
     RateLimitMiddleware.with_counters
       (RateLimitMiddleware.mkCounters
          (RateLimitMiddleware.rate_limit_hits
             (RateLimitMiddleware._metrics s1))
          (RateLimitMiddleware.rate_limit_misses
             (RateLimitMiddleware._metrics s1))
          (RateLimitMiddleware.rate_limit_errors
             (RateLimitMiddleware._metrics s1) + 1)) s1).
Proof.
  intros H. unfold RateLimitMiddleware.check_rate_limit, try_except.
  unfold bind at 1, get. unfold bind at 1. rewrite H. reflexivity.
Qed.

Lemma check_rate_limit_fails_closed_witness :
  let s := RateLimitMiddleware.__init__ (Some (Redis.mk false ∅)) ∅ ∅ ∅ in
  RateLimitMiddleware.eval 0%Q
    (RateLimitMiddleware._get_rate_limit_key "example.com" None)
    (RateLimitMiddleware.burst_limit_for s "example.com")
    (RateLimitMiddleware.window_for s "example.com") s
  = (Raise ConnectionError, s)
  /\ RateLimitMiddleware.check_rate_limit 0%Q "example.com" None s
     = (Return (false, 0, Some (inject_Z DEFAULT_WINDOW_SECONDS)),
        RateLimitMiddleware.with_counters
          (RateLimitMiddleware.mkCounters 0 0 1) s).
Proof.
  intros s. split; [vm_compute; reflexivity|].
  apply (check_rate_limit_fails_closed 0%Q "example.com" None s s
           ConnectionError).
  vm_compute. reflexivity.
Defined.

(** An unreachable or unconnected store makes the evaluation raise and
    leaves the limiter as it was. *)
Lemma eval_store_down (now : Time) (key : string) (limit window : Z)
    (s : RateLimitMiddleware.t) :
  match RateLimitMiddleware._redis_client s with
  | None => True
  | Some r => Redis.reachable r = false
  end ->
  exists e, RateLimitMiddleware.eval now key limit window s = (Raise e, s).
Proof.
  unfold RateLimitMiddleware.eval.
  destruct (RateLimitMiddleware._redis_client s) as [r|]; intros H.
  - rewrite H. eexists; reflexivity.
  - eexists; reflexivity.
Qed.

(** The counter of a key counts the calls let through in its window: a
    call that is let through moves it from [c] (0 when the key is new or
    expired) to [c + 1], never beyond [max 1 limit]; a call that is turned
    down leaves the store as it was. *)
Lemma script_counter (now : Time) (key : string) (limit window : Z)
    (d d' : gmap string Redis.Entry) (allowed remaining : Z) :
  RateLimitMiddleware.script now key limit window d
  = (Return (allowed, remaining), d') ->
  let before := match Redis.get now key d with Some c => c | None => 0 end in
  (allowed <> 0 ->
   Redis.get now key d' = Some (before + 1) /\ before + 1 <= Z.max 1 limit)
  /\ (allowed = 0 -> d' = d /\ limit <= before).
Proof.
  unfold RateLimitMiddleware.script, bind, get. cbv beta iota.
  destruct (Redis.get now key d) as [c|] eqn:Hg.
  - destruct (c <? limit) eqn:Hc.
    + unfold Redis.incr, modify, ret. intros E. inversion E; subst. cbv zeta.
      apply Z.ltb_lt in Hc. split; [|lia]. intros _. split; [|lia].
      unfold Redis.get in *. rewrite lookup_alter_eq.
      destruct (d !! key) as [e|]; [|discriminate]. simpl.
      destruct (Qltb now (Redis.expires_at e)); [|discriminate].
      inversion Hg; subst. reflexivity.
    + unfold ret. intros E. inversion E; subst. cbv zeta.
      apply Z.ltb_ge in Hc. split; [intros H; contradiction | auto].
  - unfold Redis.setex. destruct (window <=? 0) eqn:Hw;
      [unfold raise; discriminate|].
    unfold modify, ret. intros E. inversion E; subst. cbv zeta.
    apply Z.leb_gt in Hw. split; [|lia]. intros _. split; [|lia].
    unfold Redis.get. rewrite lookup_insert_eq. simpl.
    assert (Hlt : Qltb now (now + inject_Z window) = true).
    { unfold Qltb. apply negb_true_iff.
      destruct (Qle_bool (now + inject_Z window) now) eqn:Hle; [|reflexivity].
      apply Qle_bool_iff in Hle. exfalso.
      assert (H0 : (0 < inject_Z window)%Q) by (unfold Qlt; simpl; lia).
      apply (Qlt_not_le _ _ H0).
      apply (Qplus_le_r _ _ now). rewrite Qplus_0_r. exact Hle. }
    rewrite Hlt. reflexivity.
Qed.

(** The scenario of the specification: limit 5 and no burst.  Five calls
    in the window pass, the sixth and a later one in the same window do
    not; once the window of 60 seconds is over, calls pass again. *)
Lemma five_pass_sixth_rejected :
  let s := RateLimitMiddleware.__init__ (Some (Redis.mk true ∅))
             {[ "example.com" := 5 ]} {[ "example.com" := 60 ]}
             {[ "example.com" := 0%Q ]} in
  fst (RateLimitMiddleware.check_all
         [0%Q; 1%Q; 2%Q; 3%Q; 4%Q; 5%Q; 59%Q; 60%Q; 61%Q] "example.com" None s)
  = [true; true; true; true; true; false; false; true; true].
Proof. vm_compute. reflexivity. Qed.

(** C7 (the code breaks it). The script lets the first call of a window
    through without looking at the limit: with limit 0 and no burst the
    bound [limit * (1 + burst)] is 0, and yet the first call is allowed
    (the later ones in the window are not). *)
Theorem zero_limit_lets_first_call_through :
  let s := RateLimitMiddleware.__init__ (Some (Redis.mk true ∅))
             {[ "example.com" := 0 ]} {[ "example.com" := 60 ]}
             {[ "example.com" := 0%Q ]} in
  RateLimitMiddleware.burst_limit_for s "example.com" = 0
  /\ fst (RateLimitMiddleware.check_rate_limit 0%Q "example.com" None s)
     = Return (true, 0, None)
  /\ fst (RateLimitMiddleware.check_all [0%Q; 1%Q; 2%Q] "example.com" None s)
     = [true; false; false].
Proof. vm_compute. repeat split. Qed.

(** ** The proxy registry *)

Section DictFacts.

Context {V : Type}.
Implicit Types (d : Dict.t V) (k : string) (v : V).

Lemma dict_get_set_eq k v d : Dict.get k (Dict.set k v d) = Some v.
Proof.
  induction d as [|[k' v'] rest IH]; simpl.
  - rewrite bool_decide_eq_true_2; reflexivity.
  - destruct (bool_decide (k' = k)) eqn:E; simpl; rewrite E; auto.
Qed.

Lemma dict_get_set_ne k k' v d :
  k <> k' -> Dict.get k' (Dict.set k v d) = Dict.get k' d.
Proof.
  intros Hne. induction d as [|[k0 v0] rest IH]; simpl.
  - rewrite bool_decide_eq_false_2; auto.
  - destruct (bool_decide (k0 = k)) eqn:E; simpl.
    + apply bool_decide_eq_true in E. subst k0.
      rewrite bool_decide_eq_false_2; auto.
    + rewrite IH. reflexivity.
Qed.

Lemma dict_get_none k d : Dict.get k d = None <-> k ∉ Dict.keys d.
Proof.
  unfold Dict.keys. induction d as [|[k' v'] rest IH]; simpl.
  - split; [intros _; apply not_elem_of_nil | reflexivity].
  - rewrite not_elem_of_cons. destruct (bool_decide (k' = k)) eqn:E.
    + apply bool_decide_eq_true in E. split; [discriminate|].
      intros [Hne _]. congruence.
    + apply bool_decide_eq_false in E. rewrite IH. split.
      * intros H. split; [congruence | exact H].
      * intros [_ H]. exact H.
Qed.

Lemma dict_get_some_in k v d : Dict.get k d = Some v -> k ∈ Dict.keys d.
Proof.
  intros H. destruct (decide (k ∈ Dict.keys d)) as [Hin|Hout]; [exact Hin|].
  apply dict_get_none in Hout. congruence.
Qed.

Lemma dict_keys_set k v d x :
  x ∈ Dict.keys (Dict.set k v d) <-> x = k \/ x ∈ Dict.keys d.
Proof.
  unfold Dict.keys. induction d as [|[k' v'] rest IH]; simpl.
  - rewrite list_elem_of_singleton. split; [auto|].
    intros [H|H]; [exact H | inversion H].
  - destruct (bool_decide (k' = k)) eqn:E; simpl.
    + apply bool_decide_eq_true in E. subst k'.
      rewrite !elem_of_cons. tauto.
    + rewrite !elem_of_cons, IH. tauto.
Qed.

Lemma dict_keys_pop k d x :
  x ∈ Dict.keys (Dict.pop k d) <-> x <> k /\ x ∈ Dict.keys d.
Proof.
  unfold Dict.keys. induction d as [|[k' v'] rest IH]; simpl.
  - split; [intros H; inversion H | intros [_ H]; inversion H].
  - destruct (bool_decide (k' = k)) eqn:E; simpl.
    + apply bool_decide_eq_true in E. subst k'.
      rewrite IH, elem_of_cons. split; [tauto|].
      intros [Hne [->|H]]; [contradiction | auto].
    + apply bool_decide_eq_false in E.
      rewrite !elem_of_cons, IH. split.
      * intros [->|[H1 H2]]; [split; [congruence | auto] | tauto].
      * tauto.
Qed.

End DictFacts.

Section HealthScore.

Import ProxyService ProxyFacts.

(** The quotient of the counters lies between 0 and 1. *)
Lemma ratio_in_unit_interval (a b : Z) :
  0 <= a -> 0 <= b -> 0 < a + b ->
  (0 <= inject_Z a / inject_Z (a + b) <= 1)%Q.
Proof.
  intros Ha Hb Hab.
  assert (Hpos : (0 < inject_Z (a + b))%Q).
  { unfold Qlt; simpl; lia. }
  split.
  - apply Qle_shift_div_l; [exact Hpos|].
    rewrite Qmult_0_l. unfold Qle; simpl; lia.
  - apply Qle_shift_div_r; [exact Hpos|].
    rewrite Qmult_1_l. rewrite <- Zle_Qle. lia.
Qed.

Lemma py_div_nonzero (a b : Z) :
  b <> 0 -> py_div a b = Return (inject_Z a / inject_Z b)%Q.
Proof. intros H. unfold py_div. rewrite bool_decide_eq_false_2; auto. Qed.

(** C8. After a success report and after a failure report on a tracked
    proxy, the reported counter has grown by one, the other one is as it
    was, and the stored health score is the quotient [success / (success +
    failure)] of the counters as they are after the report, a value between
    0 and 1; the metrics of a proxy that has just been added carry the
    health score 1. *)
Theorem health_score_is_the_success_ratio (now : Time) (url fresh : string)
    (duration : Q) (s : t) (m : ProxyMetrics) :
  Dict.get url (_proxy_metrics s) = Some m ->
  counts_nonneg m ->
  (exists s1 m1,
      _record_success now url duration s = (Return tt, s1)
      /\ Dict.get url (_proxy_metrics s1) = Some m1
      /\ success_count m1 = success_count m + 1
      /\ failure_count m1 = failure_count m
      /\ (health_score m1
          == inject_Z (success_count m1)
             / inject_Z (success_count m1 + failure_count m1))%Q
      /\ (0 <= health_score m1 <= 1)%Q)
  /\ (exists s2 m2,
         _record_failure url s = (Return tt, s2)
         /\ Dict.get url (_proxy_metrics s2) = Some m2
         /\ success_count m2 = success_count m
         /\ failure_count m2 = failure_count m + 1
         /\ (health_score m2
             == inject_Z (success_count m2)
                / inject_Z (success_count m2 + failure_count m2))%Q
         /\ (0 <= health_score m2 <= 1)%Q)
  /\ (exists m0,
         Dict.get fresh (_proxy_metrics (snd (_add_proxy true fresh s)))
         = Some m0
         /\ success_count m0 = 0 /\ failure_count m0 = 0
         /\ (health_score m0 == 1)%Q).
Proof.
  intros Hm [Hs Hf]. split; [|split].
  - unfold _record_success. unfold bind at 1, get. rewrite Hm.
    unfold bind at 1, modify. unfold bind at 1. cbn [success_count failure_count].
    rewrite py_div_nonzero by lia.
    unfold bind, modify. cbn.
    eexists _, _. split; [reflexivity|]. cbn.
    rewrite dict_get_set_eq. split; [reflexivity|]. cbn.
    split; [reflexivity|]. split; [reflexivity|].
    split; [reflexivity|]. apply ratio_in_unit_interval; lia.
  - unfold _record_failure. unfold bind at 1, get. rewrite Hm.
    unfold bind at 1, modify. unfold bind at 1. cbn [success_count failure_count].
    rewrite py_div_nonzero by lia.
    unfold bind, modify. cbn.
    eexists _, _. split; [reflexivity|]. cbn.
    rewrite dict_get_set_eq. split; [reflexivity|]. cbn.
    split; [reflexivity|]. split; [reflexivity|].
    split; [reflexivity|]. apply ratio_in_unit_interval; lia.
  - unfold _add_proxy. cbn. rewrite dict_get_set_eq.
    eexists. split; [reflexivity|]. cbn. repeat split; reflexivity.
Qed.

End HealthScore.

Section Selection.

Import ProxyService ProxyFacts.

Lemma Qltb_true (a b : Q) : Qltb a b = true <-> (a < b)%Q.
Proof.
  unfold Qltb. rewrite negb_true_iff. split.
  - intros H. apply Qnot_le_lt. intros Hle.
    apply Qle_bool_iff in Hle. congruence.
  - intros H. destruct (Qle_bool b a) eqn:E; [|reflexivity].
    apply Qle_bool_iff in E. exfalso. exact (Qlt_not_le _ _ H E).
Qed.

Lemma Qltb_false (a b : Q) : Qltb a b = false <-> (b <= a)%Q.
Proof.
  unfold Qltb. rewrite negb_false_iff. apply Qle_bool_iff.
Qed.

(** [max] returns the first item with the largest key: the items before
    it have a smaller key, the items after it a key that is not larger. *)
Lemma py_max_by_first {A} (key : A -> Q) (l pre mid : list A) (best : A) :
  (forall q, q ∈ pre -> (key q < key best)%Q) ->
  (forall q, q ∈ mid -> (key q <= key best)%Q) ->
  exists l1 l2,
    pre ++ best :: mid ++ l = l1 ++ py_max_by key best l :: l2
    /\ (forall q, q ∈ l1 -> (key q < key (py_max_by key best l))%Q)
    /\ (forall q, q ∈ l2 -> (key q <= key (py_max_by key best l))%Q).
Proof.
  revert pre mid best. induction l as [|x rest IH]; intros pre mid best Hp Hm.
  - simpl. exists pre, mid. rewrite app_nil_r. auto.
  - simpl. destruct (Qltb (key best) (key x)) eqn:E.
    + apply Qltb_true in E.
      destruct (IH (pre ++ best :: mid) [] x) as (l1 & l2 & Heq & H1 & H2).
      * intros q Hq. apply elem_of_app in Hq as [Hq|Hq].
        -- eapply Qlt_trans; [apply Hp, Hq | exact E].
        -- apply elem_of_cons in Hq as [->|Hq]; [exact E|].
           eapply Qle_lt_trans; [apply Hm, Hq | exact E].
      * intros q Hq. inversion Hq.
      * exists l1, l2. split; [|auto].
        rewrite <- Heq. simpl. rewrite <- app_assoc. reflexivity.
    + apply Qltb_false in E.
      destruct (IH pre (mid ++ [x]) best) as (l1 & l2 & Heq & H1 & H2).
      * exact Hp.
      * intros q Hq. apply elem_of_app in Hq as [Hq|Hq]; [auto|].
        apply list_elem_of_singleton in Hq. subst q. exact E.
      * exists l1, l2. split; [|auto].
        rewrite <- Heq. rewrite <- app_assoc. reflexivity.
Qed.

Lemma healthy_proxies_candidates (now : Time) (metrics : Dict.t ProxyMetrics)
    (breakers : Dict.t CircuitBreaker.t) :
  forallb (fun e : string * CircuitBreaker.t =>
             match Dict.get (fst e) metrics with
             | Some _ => true
             | None => false
             end) breakers = true ->
  healthy_proxies now metrics breakers
  = Return (map fst (filter (fun e => qualifies now metrics e = true)
                       breakers)).
Proof.
  induction breakers as [|[url cb] rest IH]; intros Hs; [reflexivity|].
  simpl in Hs. apply andb_prop in Hs as [Hh Hr].
  rewrite filter_cons. cbn [healthy_proxies]. cbn [fst snd] in *.
  destruct (CircuitBreaker.is_open now cb) eqn:Ho.
  - rewrite decide_False; [apply IH, Hr|].
    unfold qualifies. cbn [fst snd]. rewrite Ho. discriminate.
  - destruct (Dict.get url metrics) as [m|] eqn:Hg; [|discriminate].
    rewrite (IH Hr).
    assert (Hq : qualifies now metrics (url, cb)
                 = Qle_bool PROXY_SUCCESS_THRESHOLD (health_score m)).
    { unfold qualifies, score. cbn [fst snd]. rewrite Ho, Hg. reflexivity. }
    destruct (Qle_bool PROXY_SUCCESS_THRESHOLD (health_score m)).
    + rewrite decide_True by exact Hq. reflexivity.
    + rewrite decide_False by (rewrite Hq; discriminate). reflexivity.
Qed.

Lemma healthy_proxies_keys (now : Time) (metrics : Dict.t ProxyMetrics)
    (breakers : Dict.t CircuitBreaker.t) (hs : list string) :
  healthy_proxies now metrics breakers = Return hs ->
  forall q, q ∈ hs -> q ∈ Dict.keys breakers.
Proof.
  unfold Dict.keys. revert hs.
  induction breakers as [|[url cb] rest IH]; intros hs H q Hq; simpl in *.
  - inversion H; subst. inversion Hq.
  - destruct (CircuitBreaker.is_open now cb).
    + apply elem_of_cons. right. eapply IH; eauto.
    + destruct (Dict.get url metrics); [|discriminate].
      destruct (healthy_proxies now metrics rest) as [l|e]; [|discriminate].
      destruct (Qle_bool _ _); inversion H; subst.
      * apply elem_of_cons in Hq as [->|Hq]; apply elem_of_cons; [left|right];
          eauto.
      * apply elem_of_cons. right. eauto.
Qed.

Lemma py_max_by_in {A} (key : A -> Q) (l : list A) (best : A) :
  py_max_by key best l ∈ best :: l.
Proof.
  destruct (py_max_by_first key l [] [] best) as (l1 & l2 & Heq & _ & _).
  - intros q Hq; inversion Hq.
  - intros q Hq; inversion Hq.
  - simpl in Heq. rewrite Heq. apply elem_of_app. right. apply elem_of_cons.
    left. reflexivity.
Qed.

Lemma in_sync_lookup (s : t) (q : string) :
  in_sync s -> q ∈ Dict.keys (_circuit_breakers s) ->
  exists m, Dict.get q (_proxy_metrics s) = Some m.
Proof.
  unfold in_sync, Dict.keys. intros Hs Hq.
  apply list_elem_of_fmap in Hq as ([q' cb] & -> & Hin).
  rewrite forallb_forall in Hs. apply list_elem_of_In in Hin.
  specialize (Hs _ Hin). simpl in *.
  destruct (Dict.get q' (_proxy_metrics s)); [eauto | discriminate].
Qed.

(** One attempt of [get_proxy] on a registry whose dictionaries agree. *)
Lemma get_proxy_attempt_spec (now : Time) (s : t) :
  in_sync s ->
  match candidates now s with
  | [] =>
      get_proxy_attempt now s
      = (Raise (RuntimeError "No healthy proxies available"), s)
  | first :: others =>
      exists m,
        let p := py_max_by (score (_proxy_metrics s)) first others in
        Dict.get p (_proxy_metrics s) = Some m
        /\ get_proxy_attempt now s
           = (Return (p, mkProxyContext p 0%Q),
              with_metrics
                (Dict.set p (set_last_used now m) (_proxy_metrics s)) s)
  end.
Proof.
  intros Hs. unfold get_proxy_attempt, bind, get. cbv beta iota.
  pose proof (healthy_proxies_candidates now _ _ Hs) as Hh.
  fold (candidates now s) in Hh. rewrite Hh.
  destruct (candidates now s) as [|first others] eqn:Hc; [reflexivity|].
  assert (Hin : py_max_by (score (_proxy_metrics s)) first others
                ∈ Dict.keys (_circuit_breakers s)).
  { eapply healthy_proxies_keys; [exact Hh|]. apply py_max_by_in. }
  destruct (in_sync_lookup _ _ Hs Hin) as [m Hm].
  exists m. cbv beta iota zeta. split; [exact Hm|]. rewrite Hm. reflexivity.
Qed.

(** The attempts of [AsyncRetry] when a failed attempt leaves the state
    untouched: the first attempt that returns decides. *)
Lemma AsyncRetry_cases {St A} (f : nat -> M St A) (s : St) (more k : nat) :
  (forall j e s', f j s = (Raise e, s') -> s' = s) ->
  (exists j a s',
      (k <= j <= k + more)%nat
      /\ (forall i, (k <= i < j)%nat -> is_raise (fst (f i s)) = true)
      /\ f j s = (Return a, s')
      /\ AsyncRetry more k f s = (Return a, s'))
  \/ (exists e,
         (forall i, (k <= i <= k + more)%nat -> is_raise (fst (f i s)) = true)
         /\ f (k + more)%nat s = (Raise e, s)
         /\ AsyncRetry more k f s = (Raise e, s)).
Proof.
  intros Hst. revert k. induction more as [|m IH]; intros k; simpl.
  - destruct (f k s) as [[a|e] s'] eqn:E.
    + left. exists k, a, s'. repeat split; auto; try lia.
    + pose proof (Hst _ _ _ E); subst s'. right. exists e.
      rewrite Nat.add_0_r. repeat split; auto.
      intros i Hi. assert (i = k) by lia. subst i. rewrite E. reflexivity.
  - destruct (f k s) as [[a|e] s'] eqn:E.
    + left. exists k, a, s'. repeat split; auto; try lia.
    + pose proof (Hst _ _ _ E); subst s'.
      destruct (IH (S k)) as [(j & a & s' & Hj & Hbefore & Hf & Hr)
                             |(e' & Hall & Hlast & Hr)].
      * left. exists j, a, s'. repeat split; auto; try lia.
        intros i Hi. destruct (decide (i = k)) as [->|Hne].
        -- rewrite E. reflexivity.
        -- apply Hbefore. lia.
      * right. exists e'. replace (k + S m)%nat with (S k + m)%nat by lia.
        repeat split; auto.
        intros i Hi. destruct (decide (i = k)) as [->|Hne].
        -- rewrite E. reflexivity.
        -- apply Hall. lia.
Qed.

End Selection.

Section GetProxy.

Import ProxyService ProxyFacts.

Lemma get_proxy_attempt_raise (now : Time) (s : t) :
  in_sync s ->
  is_raise (fst (get_proxy_attempt now s)) = true ->
  candidates now s = []
  /\ get_proxy_attempt now s
     = (Raise (RuntimeError "No healthy proxies available"), s).
Proof.
  intros Hs Hr. pose proof (get_proxy_attempt_spec now s Hs) as H.
  destruct (candidates now s) as [|first others]; [auto|].
  destruct H as (m & _ & E). rewrite E in Hr. discriminate.
Qed.

(** C5, amended. On a registry whose two dictionaries agree, [get_proxy]
    looks, at each of its at most four attempts, at the proxies whose
    breaker is not Open and whose health score reaches the threshold, in
    the order of the registry.  It returns at the first attempt that finds
    one, and what it returns is the first of those with the highest health
    score: every candidate before it has a strictly smaller score, every
    candidate after it a score that is not larger (a tie goes to the proxy
    that is earlier in the registry, whatever its last use).  The last use
    of the returned proxy is set to the time of the attempt.  It raises
    [RuntimeError], leaving the registry as it was, exactly when no attempt
    finds a candidate. *)
Theorem get_proxy_returns_first_best (clock : nat -> Time) (s : t) :
  in_sync s ->
  match get_proxy clock s with
  | (Return (p, ctx), s') =>
      exists (k : nat) (l1 l2 : list string) (m : ProxyMetrics),
        (k <= 3)%nat
        /\ (forall j, (j < k)%nat -> candidates (clock j) s = [])
        /\ candidates (clock k) s = l1 ++ p :: l2
        /\ (forall q, q ∈ l1 ->
            (score (_proxy_metrics s) q < score (_proxy_metrics s) p)%Q)
        /\ (forall q, q ∈ l2 ->
            (score (_proxy_metrics s) q <= score (_proxy_metrics s) p)%Q)
        /\ proxy_url ctx = p
        /\ Dict.get p (_proxy_metrics s) = Some m
        /\ s' = with_metrics
                  (Dict.set p (set_last_used (clock k) m) (_proxy_metrics s))
                  s
  | (Raise e, s') =>
      e = RuntimeError "No healthy proxies available"
      /\ s' = s
      /\ forall k, (k <= 3)%nat -> candidates (clock k) s = []
  end.
Proof.
  intros Hs. unfold get_proxy.
  assert (Hst : forall j e s',
             get_proxy_attempt (clock j) s = (Raise e, s') -> s' = s).
  { intros j e s' E.
    assert (Hraise : is_raise (fst (get_proxy_attempt (clock j) s)) = true)
      by (rewrite E; reflexivity).
    destruct (get_proxy_attempt_raise (clock j) s Hs Hraise) as [_ E'].
    rewrite E in E'. inversion E'. reflexivity. }
  destruct (AsyncRetry_cases (fun k => get_proxy_attempt (clock k)) s 3 0 Hst)
    as [(j & [p ctx] & s' & Hj & Hbefore & Hf & Hr)|(e & Hall & Hlast & Hr)].
  - rewrite Hr.
    pose proof (get_proxy_attempt_spec (clock j) s Hs) as H.
    destruct (candidates (clock j) s) as [|first others] eqn:Hc.
    { rewrite Hf in H. discriminate. }
    destruct H as (m & Hm & E). rewrite Hf in E. inversion E; subst; clear E.
    destruct (py_max_by_first (score (_proxy_metrics s)) others [] [] first)
      as (l1 & l2 & Heq & H1 & H2).
    { intros q Hq; inversion Hq. }
    { intros q Hq; inversion Hq. }
    exists j, l1, l2, m. simpl in Heq.
    split; [lia|]. split.
    { intros i Hi.
      apply (get_proxy_attempt_raise (clock i) s Hs), Hbefore. lia. }
    split; [rewrite Hc; exact Heq|].
    repeat split; auto.
  - rewrite Hr.
    simpl in Hlast.
    assert (Hraise : is_raise (fst (get_proxy_attempt (clock 3%nat) s)) = true)
      by (rewrite Hlast; reflexivity).
    destruct (get_proxy_attempt_raise (clock 3%nat) s Hs Hraise) as [_ E].
    rewrite Hlast in E. inversion E; subst.
    split; [reflexivity|]. split; [reflexivity|].
    intros k Hk. apply (get_proxy_attempt_raise (clock k) s Hs), Hall. lia.
Qed.

Lemma get_proxy_returns_first_best_witness :
  let s1 := snd (_add_proxy true "http://b:1"
                   (snd (_add_proxy true "http://a:1" (__init__ 2)))) in
  let clock := fun _ : nat => 100%Q in
  in_sync s1
  /\ match get_proxy clock s1 with
     | (Return (p, ctx), s') =>
         exists (k : nat) (l1 l2 : list string) (m : ProxyMetrics),
           (k <= 3)%nat
           /\ (forall j, (j < k)%nat -> candidates (clock j) s1 = [])
           /\ candidates (clock k) s1 = l1 ++ p :: l2
           /\ (forall q, q ∈ l1 ->
               (score (_proxy_metrics s1) q < score (_proxy_metrics s1) p)%Q)
           /\ (forall q, q ∈ l2 ->
               (score (_proxy_metrics s1) q <= score (_proxy_metrics s1) p)%Q)
           /\ proxy_url ctx = p
           /\ Dict.get p (_proxy_metrics s1) = Some m
           /\ s' = with_metrics
                     (Dict.set p (set_last_used (clock k) m)
                        (_proxy_metrics s1)) s1
     | (Raise e, s') =>
         e = RuntimeError "No healthy proxies available"
         /\ s' = s1
         /\ forall k, (k <= 3)%nat -> candidates (clock k) s1 = []
     end.
Proof.
  intros s1 clock. split; [vm_compute; reflexivity|].
  apply (get_proxy_returns_first_best clock s1). vm_compute. reflexivity.
Defined.

(** C5, as the claim states it, fails: two proxies with the same health
    score both pass the filter; the first one was used at time 100, the
    second one never; the next call returns the first one again, not the
    least recently used one. *)
Lemma get_proxy_tie_ignores_last_use :
  let s1 := snd (_add_proxy true "http://b:1"
                   (snd (_add_proxy true "http://a:1" (__init__ 2)))) in
  let s2 := snd (get_proxy (fun _ => 100%Q) s1) in
  candidates 101%Q s2 = ["http://a:1"; "http://b:1"]
  /\ (score (_proxy_metrics s2) "http://a:1"
      == score (_proxy_metrics s2) "http://b:1")%Q
  /\ (last_used <$> Dict.get "http://a:1" (_proxy_metrics s2)) = Some 100%Q
  /\ (last_used <$> Dict.get "http://b:1" (_proxy_metrics s2)) = Some 0%Q
  /\ fst (get_proxy (fun _ => 101%Q) s2)
     = Return ("http://a:1", mkProxyContext "http://a:1" 0%Q).
Proof. vm_compute. repeat split. Qed.

End GetProxy.

Lemma health_score_is_the_success_ratio_witness :
  let s := snd (ProxyService._add_proxy true "http://a:1"
                  (ProxyService.__init__ 2)) in
  let m := ProxyService.ProxyMetrics_new in
  Dict.get "http://a:1" (ProxyService._proxy_metrics s) = Some m
  /\ ProxyFacts.counts_nonneg m
  /\ exists s1 m1,
      ProxyService._record_success 5%Q "http://a:1" (1 # 2) s = (Return tt, s1)
      /\ Dict.get "http://a:1" (ProxyService._proxy_metrics s1) = Some m1
      /\ ProxyService.success_count m1 = ProxyService.success_count m + 1
      /\ ProxyService.failure_count m1 = ProxyService.failure_count m
      /\ (ProxyService.health_score m1
          == inject_Z (ProxyService.success_count m1)
             / inject_Z (ProxyService.success_count m1
                         + ProxyService.failure_count m1))%Q
      /\ (0 <= ProxyService.health_score m1 <= 1)%Q.
Proof.
  intros s m.
  assert (Hm : Dict.get "http://a:1" (ProxyService._proxy_metrics s) = Some m)
    by (vm_compute; reflexivity).
  assert (Hn : ProxyFacts.counts_nonneg m) by (split; vm_compute; discriminate).
  split; [exact Hm|]. split; [exact Hn|].
  exact (proj1 (health_score_is_the_success_ratio 5%Q "http://a:1"
                  "http://b:1" (1 # 2) s m Hm Hn)).
Defined.

Section Eviction.

Import ProxyService ProxyFacts.

Variable url : string.

Lemma preserves_ret {A} (P : t -> Prop) (a : A) : preserves P (ret a).
Proof. intros s H. exact H. Qed.

Lemma preserves_raise {A} (P : t -> Prop) (e : exn) :
  preserves P (raise e : M t A).
Proof. intros s H. exact H. Qed.

Lemma preserves_lift {A} (P : t -> Prop) (o : outcome A) :
  preserves P (fun s => (o, s)).
Proof. intros s H. exact H. Qed.

Lemma preserves_modify (P : t -> Prop) (f : t -> t) :
  (forall s, P s -> P (f s)) -> preserves P (modify f).
Proof. intros Hf s H. apply Hf, H. Qed.

Lemma preserves_bind {A B} (P : t -> Prop) (c : M t A) (k : A -> M t B) :
  preserves P c -> (forall a, preserves P (k a)) -> preserves P (bind c k).
Proof.
  intros Hc Hk s H. unfold bind. specialize (Hc s H).
  destruct (c s) as [[a|e] s']; simpl in *; [apply Hk, Hc | exact Hc].
Qed.

Lemma preserves_get {A} (P : t -> Prop) (k : t -> M t A) :
  (forall s, P s -> P (snd (k s s))) -> preserves P (bind get k).
Proof. intros Hk s H. unfold bind, get. apply Hk, H. Qed.

Lemma preserves_try_except {A} (P : t -> Prop) (c : M t A)
    (h : exn -> M t A) :
  preserves P c -> (forall e, preserves P (h e)) ->
  preserves P (try_except c h).
Proof.
  intros Hc Hh s H. unfold try_except. specialize (Hc s H).
  destruct (c s) as [[a|e] s']; simpl in *; [exact Hc | apply Hh, Hc].
Qed.

Lemma absent_set_metrics (u : string) (v : ProxyMetrics) (s : t) :
  u <> url -> absent url s ->
  absent url (with_metrics (Dict.set u v (_proxy_metrics s)) s).
Proof.
  intros Hne [Hm Hb]. split; [|exact Hb]. simpl.
  rewrite dict_keys_set. intros [H|H]; [congruence | contradiction].
Qed.

Lemma absent_set_breakers (u : string) (v : CircuitBreaker.t) (s : t) :
  u <> url -> absent url s ->
  absent url (with_breakers (Dict.set u v (_circuit_breakers s)) s).
Proof.
  intros Hne [Hm Hb]. split; [exact Hm|]. simpl.
  rewrite dict_keys_set. intros [H|H]; [congruence | contradiction].
Qed.

Lemma absent_pop_metrics (u : string) (s : t) :
  absent url s -> absent url (with_metrics (Dict.pop u (_proxy_metrics s)) s).
Proof.
  intros [Hm Hb]. split; [|exact Hb]. simpl.
  rewrite dict_keys_pop. intros [_ H]. contradiction.
Qed.

Lemma absent_pop_breakers (u : string) (s : t) :
  absent url s ->
  absent url (with_breakers (Dict.pop u (_circuit_breakers s)) s).
Proof.
  intros [Hm Hb]. split; [exact Hm|]. simpl.
  rewrite dict_keys_pop. intros [_ H]. contradiction.
Qed.

Lemma absent_with_health (h : gmap string Q) (s : t) :
  absent url s -> absent url (with_health h s).
Proof. intros H. exact H. Qed.

Lemma absent_tracked_ne (u : string) (m : ProxyMetrics) (s : t) :
  absent url s -> Dict.get u (_proxy_metrics s) = Some m -> u <> url.
Proof.
  intros [Hm _] Hg ->. apply dict_get_some_in in Hg. contradiction.
Qed.

Lemma absent_breaker_ne (u : string) (cb : CircuitBreaker.t) (s : t) :
  absent url s -> Dict.get u (_circuit_breakers s) = Some cb -> u <> url.
Proof.
  intros [_ Hb] Hg ->. apply dict_get_some_in in Hg. contradiction.
Qed.

Lemma preserves_at {A} (P : t -> Prop) (c : M t A) (s : t) :
  preserves P c -> P s -> P (snd (c s)).
Proof. intros Hc H. apply Hc, H. Qed.

Create HintDb evict.

#[local] Hint Resolve preserves_ret preserves_raise preserves_lift
  absent_set_metrics absent_set_breakers absent_pop_metrics
  absent_pop_breakers absent_with_health : evict.

Lemma record_success_absent (now : Time) (u : string) (d : Q) :
  preserves (absent url) (_record_success now u d).
Proof.
  unfold _record_success. apply preserves_get. intros s H.
  destruct (Dict.get u (_proxy_metrics s)) as [m|] eqn:Hg; [|exact H].
  pose proof (absent_tracked_ne _ _ _ H Hg) as Hne.
  apply (preserves_at (absent url)); [|exact H].
  apply preserves_bind.
  - apply preserves_modify. auto with evict.
  - intros _. apply preserves_bind; [apply preserves_lift|].
    intros h. apply preserves_bind; [|intros _]; apply preserves_modify;
      auto with evict.
Qed.

Lemma record_failure_absent (u : string) :
  preserves (absent url) (_record_failure u).
Proof.
  unfold _record_failure. apply preserves_get. intros s H.
  destruct (Dict.get u (_proxy_metrics s)) as [m|] eqn:Hg; [|exact H].
  pose proof (absent_tracked_ne _ _ _ H Hg) as Hne.
  apply (preserves_at (absent url)); [|exact H].
  apply preserves_bind.
  - apply preserves_modify. auto with evict.
  - intros _. apply preserves_bind; [apply preserves_lift|].
    intros h. apply preserves_bind; [|intros _]; apply preserves_modify;
      auto with evict.
Qed.

Lemma remove_proxy_absent (u : string) :
  preserves (absent url) (_remove_proxy u).
Proof.
  unfold _remove_proxy.
  apply preserves_bind; [apply preserves_modify; auto with evict|].
  intros _. apply preserves_bind; [apply preserves_modify; auto with evict|].
  intros _. apply preserves_get. intros s H.
  destruct (proxy_health s !! u); [|exact H]. exact H.
Qed.

(** Whatever the registry, removing [url] leaves it in neither
    dictionary, also when the gauge has no label for it and the removal
    ends in [KeyError]. *)
Lemma remove_proxy_evicts (s : t) : absent url (snd (_remove_proxy url s)).
Proof.
  unfold _remove_proxy, bind, modify, get. simpl.
  assert (Ha : absent url
                 (with_breakers (Dict.pop url (_circuit_breakers s))
                    (with_metrics (Dict.pop url (_proxy_metrics s)) s))).
  { split; simpl; rewrite dict_keys_pop; intros [Hne _]; congruence. }
  destruct (proxy_health s !! url); simpl; exact Ha.
Qed.

Lemma add_proxy_absent (is_valid : bool) (u : string) :
  ~ (u = url /\ is_valid = true) ->
  preserves (absent url) (_add_proxy is_valid u).
Proof.
  intros Hno. unfold _add_proxy. destruct is_valid; simpl;
    [|apply preserves_ret].
  assert (Hne : u <> url) by (intros ->; apply Hno; auto).
  apply preserves_bind; [|intros _]; apply preserves_modify;
    auto with evict.
Qed.

Lemma get_proxy_attempt_absent (now : Time) :
  preserves (absent url) (get_proxy_attempt now).
Proof.
  unfold get_proxy_attempt. apply preserves_get. intros s H.
  unfold bind at 1.
  destruct (healthy_proxies now (_proxy_metrics s) (_circuit_breakers s))
    as [[|first others]|e] eqn:Hh; try exact H.
  destruct (Dict.get _ (_proxy_metrics s)) as [m|] eqn:Hg; [|exact H].
  pose proof (absent_tracked_ne _ _ _ H Hg) as Hne.
  apply (preserves_at (absent url)); [|exact H].
  apply preserves_bind; [apply preserves_modify; auto with evict|].
  intros _. apply preserves_ret.
Qed.

Lemma get_proxy_attempt_returns_key (now : Time) (s s' : t) (p : string)
    (ctx : ProxyContext) :
  get_proxy_attempt now s = (Return (p, ctx), s') ->
  p ∈ Dict.keys (_circuit_breakers s).
Proof.
  unfold get_proxy_attempt, bind, get. cbv beta iota.
  destruct (healthy_proxies now (_proxy_metrics s) (_circuit_breakers s))
    as [[|first others]|e] eqn:Hh; try discriminate.
  destruct (Dict.get _ (_proxy_metrics s)) as [m|] eqn:Hg; [|discriminate].
  unfold modify, ret. intros E. inversion E; subst.
  eapply healthy_proxies_keys; [exact Hh | apply py_max_by_in].
Qed.

Lemma AsyncRetry_inv {A} (P : t -> Prop) (Q : A -> Prop) (f : nat -> M t A) :
  (forall k, preserves P (f k)) ->
  (forall k s a s', P s -> f k s = (Return a, s') -> Q a) ->
  forall more k s,
    P s ->
    P (snd (AsyncRetry more k f s))
    /\ (forall a s', AsyncRetry more k f s = (Return a, s') -> Q a).
Proof.
  intros Hp Hq. induction more as [|m IH]; intros k s H; simpl.
  - pose proof (Hp k s H) as H'. destruct (f k s) as [[a|e] s1] eqn:E.
    + split; [exact H'|]. intros a' s' E'. inversion E'; subst. eauto.
    + split; [exact H'|]. intros a' s' E'. discriminate.
  - pose proof (Hp k s H) as H'. destruct (f k s) as [[a|e] s1] eqn:E.
    + split; [exact H'|]. intros a' s' E'. inversion E'; subst. eauto.
    + apply IH. exact H'.
Qed.

Lemma get_proxy_absent (clock : nat -> Time) (s : t) :
  absent url s ->
  absent url (snd (get_proxy clock s))
  /\ forall p ctx s', get_proxy clock s = (Return (p, ctx), s') -> p <> url.
Proof.
  intros H. unfold get_proxy.
  destruct (AsyncRetry_inv (absent url)
              (fun a : string * ProxyContext => fst a <> url)
              (fun k => get_proxy_attempt (clock k))) with (more := 3%nat)
              (k := 0%nat) (s := s) as [H1 H2]; auto.
  - intros k. apply get_proxy_attempt_absent.
  - intros k s0 [p ctx] s' [_ Hb] E. simpl. intros ->.
    apply get_proxy_attempt_returns_key in E. contradiction.
  - split; [exact H1|]. intros p ctx s' E. exact (H2 _ _ E).
Qed.

End Eviction.

Section EvictionOps.

Import ProxyService ProxyFacts.

Variable url : string.

Lemma preserves_lift_bind {A B} (P : t -> Prop) (o : outcome A)
    (k : A -> M t B) :
  (forall a, o = Return a -> preserves P (k a)) ->
  preserves P (bind (fun s => (o, s)) k).
Proof.
  intros Hk s H. unfold bind. destruct o as [a|e]; simpl; [|exact H].
  apply (Hk a eq_refl), H.
Qed.

(** The last step of [report_failure]: asking for a replacement. *)
Lemma replacement_absent (replacement : outcome string) (is_valid : bool) :
  ~ (replacement = Return url /\ is_valid = true) ->
  preserves (absent url)
    (try_except
       (bind (fun s => (replacement, s))
          (fun new_proxy => _add_proxy is_valid new_proxy))
       (fun _ => ret tt)).
Proof.
  intros Hno. apply preserves_try_except; [|intros _; apply preserves_ret].
  apply preserves_lift_bind. intros a ->. apply add_proxy_absent.
  intros [-> Hv]. apply Hno. auto.
Qed.

Lemma report_failure_absent (now : Time) (u : string)
    (replacement : outcome string) (is_valid : bool) :
  ~ (replacement = Return url /\ is_valid = true) ->
  preserves (absent url) (report_failure now u replacement is_valid).
Proof.
  intros Hno. unfold report_failure.
  apply preserves_bind; [apply record_failure_absent|]. intros _.
  apply preserves_get. intros s H.
  apply (preserves_at (absent url)); [|exact H].
  apply preserves_bind.
  - destruct (Dict.get u (_circuit_breakers s)) as [cb|] eqn:Hg;
      [|apply preserves_ret].
    pose proof (absent_breaker_ne url _ _ _ H Hg) as Hne.
    apply preserves_bind.
    + apply preserves_modify. intros s0 H0.
      apply absent_set_breakers; assumption.
    + intros _. destruct (CircuitBreaker.is_open now _);
        [apply remove_proxy_absent | apply preserves_ret].
  - intros _. apply preserves_get. intros s0 H0.
    destruct (Dict.len (_proxy_metrics s0) <? _pool_size s0); [|exact H0].
    apply (preserves_at (absent url)); [|exact H0].
    apply replacement_absent, Hno.
Qed.

Lemma remove_underperforming_absent (items : list (string * ProxyMetrics)) :
  preserves (absent url) (remove_underperforming items).
Proof.
  induction items as [|[u m] rest IH]; simpl; [apply preserves_ret|].
  apply preserves_bind; [|intros _; exact IH].
  destruct (Qltb (health_score m) PROXY_SUCCESS_THRESHOLD);
    [apply remove_proxy_absent | apply preserves_ret].
Qed.

Lemma add_all_absent (new_proxies : list (string * bool)) :
  (url, true) ∉ new_proxies ->
  preserves (absent url) (add_all new_proxies).
Proof.
  induction new_proxies as [|[u v] rest IH]; intros Hout; simpl;
    [apply preserves_ret|].
  apply not_elem_of_cons in Hout as [Hne Hrest].
  apply preserves_bind; [|intros _; apply IH, Hrest].
  apply add_proxy_absent. intros [-> ->]. apply Hne. reflexivity.
Qed.

Lemma rotate_proxies_absent (fetched : Z -> outcome (list (string * bool))) :
  (forall n l, fetched n = Return l -> (url, true) ∉ l) ->
  preserves (absent url) (_rotate_proxies fetched).
Proof.
  intros Hf. unfold _rotate_proxies.
  apply preserves_try_except; [|intros _; apply preserves_ret].
  apply preserves_get. intros s H.
  apply (preserves_at (absent url)); [|exact H].
  apply preserves_bind; [apply remove_underperforming_absent|]. intros _.
  apply preserves_get. intros s0 H0.
  destruct (Dict.len (_proxy_metrics s0) <? _pool_size s0); [|exact H0].
  unfold bind.
  destruct (fetched (_pool_size s0 - Dict.len (_proxy_metrics s0)))
    as [l|e] eqn:E; simpl; [|exact H0].
  apply (add_all_absent l); [|exact H0]. eapply Hf, E.
Qed.

Lemma run_op_absent (o : op) (s : t) :
  ~ may_add url o -> absent url s -> absent url (run_op o s).
Proof.
  intros Hno H. destruct o as [now u d|u|now u probe|clock
                              |now u replacement is_valid|fetched|is_valid u];
    simpl.
  - apply record_success_absent, H.
  - apply record_failure_absent, H.
  - destruct probe; simpl;
      [apply record_success_absent | apply record_failure_absent]; exact H.
  - apply get_proxy_absent, H.
  - apply report_failure_absent; [|exact H].
    intros [-> ->]. apply Hno. reflexivity.
  - apply rotate_proxies_absent; [|exact H].
    intros n l E Hin. apply Hno. simpl. eauto.
  - apply add_proxy_absent; [|exact H].
    intros [-> ->]. apply Hno. reflexivity.
Qed.

Lemma run_ops_absent (ops : list op) (s : t) :
  Forall (fun o => ~ may_add url o) ops ->
  absent url s -> absent url (run_ops ops s).
Proof.
  unfold run_ops. revert s. induction ops as [|o rest IH]; intros s Hall H;
    simpl; [exact H|].
  inversion Hall; subst. apply IH; [assumption|]. apply run_op_absent; auto.
Qed.

(** With counters that are not negative the quotient is defined: the
    failure is recorded and the breakers are not touched. *)
Lemma record_failure_returns (u : string) (s : t) :
  (forall m, Dict.get u (_proxy_metrics s) = Some m -> counts_nonneg m) ->
  exists s',
    _record_failure u s = (Return tt, s')
    /\ _circuit_breakers s' = _circuit_breakers s.
Proof.
  intros Hn. unfold _record_failure. unfold bind at 1, get.
  destruct (Dict.get u (_proxy_metrics s)) as [m|] eqn:Hg.
  - destruct (Hn m eq_refl) as [Hs Hf].
    unfold bind at 1, modify. unfold bind at 1.
    cbn [success_count failure_count].
    rewrite py_div_nonzero by lia. unfold bind, modify. cbn.
    eexists. split; reflexivity.
  - eexists. split; reflexivity.
Qed.

(** C6, amended. A failure report that opens the breaker of a proxy
    removes the proxy from the registry: both of its entries go, unless
    the upstream source hands the same URL back as the replacement.  From
    then on, as long as no operation adds the URL again, the proxy stays
    out: no success or failure recorded for it (health checks included),
    no rotation and no later report brings it back, it is never among the
    candidates, and [get_proxy] never returns it, at any time, before or
    after the recovery time-out of the breaker. *)
Theorem opened_proxy_is_evicted_for_good (now : Time)
    (replacement : outcome string) (is_valid : bool) (s : t)
    (cb : CircuitBreaker.t) (ops : list op) :
  Dict.get url (_circuit_breakers s) = Some cb ->
  (forall m, Dict.get url (_proxy_metrics s) = Some m -> counts_nonneg m) ->
  CircuitBreaker.is_open now (CircuitBreaker.record_failure now cb) = true ->
  ~ (replacement = Return url /\ is_valid = true) ->
  Forall (fun o => ~ may_add url o) ops ->
  let s1 := snd (report_failure now url replacement is_valid s) in
  let s2 := run_ops ops s1 in
  absent url s1
  /\ absent url s2
  /\ (forall later, url ∉ candidates later s2)
  /\ (forall clock p ctx s3,
         get_proxy clock s2 = (Return (p, ctx), s3) -> p <> url).
Proof.
  intros Hcb Hn Hopen Hno Hops s1 s2.
  assert (H1 : absent url s1).
  { subst s1. unfold report_failure. unfold bind at 1.
    destruct (record_failure_returns url s Hn) as (sA & E & Hb). rewrite E.
    unfold bind at 1, get. unfold bind at 1. rewrite Hb, Hcb.
    unfold bind at 1, modify. rewrite Hopen.
    set (sB := with_breakers _ sA).
    pose proof (remove_proxy_evicts url sB) as Hev.
    destruct (_remove_proxy url sB) as [[[]|e] sC]; simpl in Hev |- *;
      [|exact Hev].
    apply (preserves_at (absent url)); [|exact Hev].
    apply preserves_get. intros s0 H0.
    destruct (Dict.len (_proxy_metrics s0) <? _pool_size s0); [|exact H0].
    apply (preserves_at (absent url)); [|exact H0].
    apply replacement_absent, Hno. }
  assert (H2 : absent url s2) by (apply run_ops_absent; assumption).
  split; [exact H1|]. split; [exact H2|]. split.
  - intros later Hin. unfold candidates in Hin.
    apply list_elem_of_fmap in Hin as ([q c] & -> & Hin).
    apply list_elem_of_filter in Hin as [_ Hin].
    destruct H2 as [_ Hb]. apply Hb. unfold Dict.keys.
    apply list_elem_of_fmap. exists (q, c). auto.
  - intros clock p ctx s3 E.
    exact (proj2 (get_proxy_absent url clock s2 H2) p ctx s3 E).
Qed.

End EvictionOps.

Section EvictionExamples.

Import ProxyService ProxyFacts.

Let a : string := "http://a:1".
Let s0 : t := snd (_add_proxy true a (__init__ 1)).
Let cb0 : CircuitBreaker.t :=
  CircuitBreaker.__init__ PROXY_CIRCUIT_BREAKER_THRESHOLD
    PROXY_recovery_timeout.
Let ops : list op :=
  [CheckHealth 400%Q a (Some (1 # 2)); GetProxy (fun _ => 401%Q)].

Lemma opened_proxy_is_evicted_for_good_witness :
  Dict.get a (_circuit_breakers s0) = Some cb0
  /\ CircuitBreaker.is_open 10%Q (CircuitBreaker.record_failure 10%Q cb0)
     = true
  /\ Forall (fun o => ~ may_add a o) ops
  /\ let s1 := snd (report_failure 10%Q a (Raise ConnectionError) true s0) in
     let s2 := run_ops ops s1 in
     absent a s1
     /\ absent a s2
     /\ (forall later, a ∉ candidates later s2)
     /\ (forall clock p ctx s3,
            get_proxy clock s2 = (Return (p, ctx), s3) -> p <> a).
Proof.
  assert (Hcb : Dict.get a (_circuit_breakers s0) = Some cb0)
    by (vm_compute; reflexivity).
  assert (Hopen : CircuitBreaker.is_open 10%Q
                    (CircuitBreaker.record_failure 10%Q cb0) = true)
    by (vm_compute; reflexivity).
  assert (Hops : Forall (fun o => ~ may_add a o) ops).
  { repeat constructor; simpl; auto. }
  split; [exact Hcb|]. split; [exact Hopen|]. split; [exact Hops|].
  apply (opened_proxy_is_evicted_for_good a 10%Q (Raise ConnectionError) true
           s0 cb0 ops Hcb).
  - intros m Hm. vm_compute in Hm. inversion Hm; subst.
    split; vm_compute; discriminate.
  - exact Hopen.
  - intros [H _]. discriminate.
  - exact Hops.
Defined.

(** C6, as the claim states it, fails: the only proxy of the registry is
    handed out at time 5; one failure report at time 10 opens its breaker
    (the threshold is 0.85) and the proxy is removed; at time 400, after
    the recovery time-out of 300 seconds, a health-check success is
    recorded for it; at time 401 it is still not a candidate and
    [get_proxy] raises. *)
Lemma evicted_proxy_stays_out_after_recovery :
  let s1 := snd (report_failure 10%Q a (Raise ConnectionError) true s0) in
  let s2 := snd (_check_proxy_health 400%Q a (Some (1 # 2)) s1) in
  fst (get_proxy (fun _ => 5%Q) s0) = Return (a, mkProxyContext a 0%Q)
  /\ CircuitBreaker.is_open 10%Q (CircuitBreaker.record_failure 10%Q cb0)
     = true
  /\ CircuitBreaker.is_open 400%Q (CircuitBreaker.record_failure 10%Q cb0)
     = false
  /\ _proxy_metrics s2 = []
  /\ _circuit_breakers s2 = []
  /\ candidates 401%Q s2 = []
  /\ fst (get_proxy (fun _ => 401%Q) s2)
     = Raise (RuntimeError "No healthy proxies available").
Proof. vm_compute. repeat split. Qed.

End EvictionExamples.

(** * Further properties of the modules *)

(** ** utils/concurrency.py *)

Section PoolRoundTrip.

Import ResourcePool PoolFacts.

(** X1. A resource acquired under an id and released under the same id
    goes back to the idle set: the release answers true, the in-use map
    loses the id and the permit is back.  No object is created as long as
    the idle set is not empty: the next acquisition hands out an idle
    resource. *)
Theorem acquire_release_round_trip (t1 t2 t3 : Time) (timeout : Q)
    (rid rid' : option string) (p p1 : t) (r : Resource) :
  acquire t1 timeout rid p = (Return r, p1) ->
  exists p2,
    release t2 r rid p1 = (Return true, p2)
    /\ _in_use p2 = delete rid (_in_use p)
    /\ _semaphore p2 = _semaphore p
    /\ r ∈ _resources p2
    /\ exists r' p3,
        acquire t3 timeout rid' p2 = (Return r', p3)
        /\ r' ∈ _resources p2
        /\ next_object p3 = next_object p2.
Proof.
  intros Ha.
  unfold acquire, try_except, bind, semaphore_wait_for in Ha.
  destruct (Qltb 0 timeout && (0 <? _semaphore p)) eqn:Hw;
    [|simpl in Ha; discriminate].
  apply andb_prop in Hw as [Ht Hs]. apply Z.ltb_lt in Hs.
  unfold get_or_create, _create_resource in Ha.
  destruct p as [sem res inuse mx met nxt]; simpl in *.
  assert (Hgo : forall (res2 : list Resource) met2 inuse2 nxt2,
             r ∈ res2 ->
             exists r' p3,
               acquire t3 timeout rid'
                 (mk sem res2 inuse2 mx met2 nxt2) = (Return r', p3)
               /\ r' ∈ res2 /\ next_object p3 = nxt2).
  { intros res2 met2 inuse2 nxt2 Hin.
    unfold acquire, try_except, bind, semaphore_wait_for. simpl.
    rewrite Ht. simpl. rewrite (proj2 (Z.ltb_lt 0 sem) Hs).
    unfold get_or_create. simpl.
    destruct res2 as [|r0 rest]; [inversion Hin|].
    destruct met2; simpl; eexists _, _;
      (split; [reflexivity|]); simpl; split; auto; apply elem_of_cons; auto. }
  assert (Hadd : forall l, r ∈ set_add r l).
  { intros l. unfold set_add. destruct (bool_decide (r ∈ l)) eqn:E.
    - apply bool_decide_eq_true in E. exact E.
    - apply elem_of_cons. auto. }
  destruct res as [|r0 rest]; destruct met as [m|]; simpl in Ha;
    inversion Ha; subst; clear Ha;
    unfold release, try_except, bind, get; simpl;
    rewrite lookup_insert_eq; simpl;
    try rewrite lookup_insert_eq; simpl;
    eexists; (split; [reflexivity|]); simpl;
    rewrite delete_insert_eq;
    (split; [reflexivity|]); (split; [lia|]); (split; [apply Hadd|]);
    (replace (sem - 1 + 1) with sem by lia); apply Hgo, Hadd.
Qed.

Lemma acquire_release_round_trip_witness :
  let p := ResourcePool.__init__ 2 true in
  let a := acquire 0%Q 30%Q (Some "a") p in
  a = (Return 0%nat, snd a)
  /\ exists p2,
      release 1%Q 0%nat (Some "a") (snd a) = (Return true, p2)
      /\ _in_use p2 = delete (Some "a") (_in_use p)
      /\ _semaphore p2 = _semaphore p
      /\ 0%nat ∈ _resources p2
      /\ exists r' p3,
          acquire 2%Q 30%Q (Some "b") p2 = (Return r', p3)
          /\ r' ∈ _resources p2
          /\ next_object p3 = next_object p2.
Proof.
  intros p a.
  assert (Ha : a = (Return 0%nat, snd a)) by (vm_compute; reflexivity).
  split; [exact Ha|].
  exact (acquire_release_round_trip 0%Q 1%Q 2%Q 30%Q (Some "a") (Some "b") p
           (snd a) 0%nat Ha).
Defined.

End PoolRoundTrip.


Section Sweep.

Import ResourcePool PoolCleanup.

Lemma release_each_spec (now : Time) (rids : list (option string)) :
  forall p : t,
    NoDup rids ->
    (forall k, k ∈ rids -> is_Some (_in_use p !! k)) ->
    exists p',
      release_each now rids p = (Return tt, p')
      /\ (forall k, _in_use p' !! k
                    = if bool_decide (k ∈ rids) then None
                      else _in_use p !! k)
      /\ _semaphore p' = _semaphore p + Z.of_nat (length rids).
Proof.
  induction rids as [|rid rest IH]; intros p Hnd Hin.
  - exists p. split; [reflexivity|]. split; [|simpl; lia].
    intros k. rewrite bool_decide_eq_false_2; [reflexivity|].
    apply not_elem_of_nil.
  - apply NoDup_cons in Hnd as [Hout Hnd].
    destruct (Hin rid) as [data Hd]; [apply elem_of_cons; auto|].
    destruct (release_held now (resource data) rid p data Hd)
      as (p1 & E & Hu & Hs & _).
    destruct (IH p1 Hnd) as (p' & E' & Hu' & Hs').
    { intros k Hk. rewrite Hu, lookup_delete_ne.
      - apply Hin, elem_of_cons. auto.
      - intros ->. contradiction. }
    exists p'. split.
    { cbn [release_each]. unfold bind at 1, get. rewrite Hd.
      unfold bind. rewrite E. exact E'. }
    split.
    + intros k. rewrite Hu'.
      destruct (bool_decide (k ∈ rest)) eqn:Hk.
      * apply bool_decide_eq_true in Hk.
        rewrite bool_decide_eq_true_2; [reflexivity|].
        apply elem_of_cons; auto.
      * apply bool_decide_eq_false in Hk. rewrite Hu.
        destruct (decide (k = rid)) as [->|Hne].
        -- rewrite lookup_delete_eq, bool_decide_eq_true_2; [reflexivity|].
           apply elem_of_cons; auto.
        -- rewrite lookup_delete_ne by congruence.
           rewrite bool_decide_eq_false_2; [reflexivity|].
           rewrite elem_of_cons. tauto.
    + rewrite Hs', Hs. simpl length. lia.
Qed.

Lemma stale_resources_elem (now : Time) (p : t) (k : option string) :
  k ∈ stale_resources now p
  <-> exists data, _in_use p !! k = Some data /\ is_stale now data = true.
Proof.
  unfold stale_resources. rewrite list_elem_of_fmap. split.
  - intros ([k' data] & -> & Hin). apply list_elem_of_filter in Hin as [Hs Hin].
    apply elem_of_map_to_list in Hin. exists data. auto.
  - intros (data & Hl & Hs). exists (k, data). split; [reflexivity|].
    apply list_elem_of_filter. split; [exact Hs|].
    apply elem_of_map_to_list. exact Hl.
Qed.

Lemma stale_resources_NoDup (now : Time) (p : t) :
  NoDup (stale_resources now p).
Proof.
  unfold stale_resources.
  pose proof (NoDup_fst_map_to_list (_in_use p)) as Hnd.
  induction (map_to_list (_in_use p)) as [|[k d] l IH]; [constructor|].
  simpl in Hnd. apply NoDup_cons in Hnd as [Hout Hnd].
  rewrite filter_cons. destruct (decide _); [|apply IH, Hnd].
  simpl. apply NoDup_cons. split; [|apply IH, Hnd].
  intros Hin. apply Hout. apply list_elem_of_fmap in Hin as (x & -> & Hx).
  apply list_elem_of_filter in Hx as [_ Hx].
  apply list_elem_of_fmap. exists x. auto.
Qed.

(** X3. One pass of the periodic clean-up never raises and reclaims
    exactly the stale entries: an id whose last activity is more than
    [DEFAULT_TIMEOUT] seconds old leaves the in-use map, every other entry
    stays as it is, and the semaphore gains one permit per reclaimed
    entry. *)
Theorem periodic_cleanup_reclaims_stale (current_time : Time) (p : t) :
  exists p',
    _periodic_cleanup_pass current_time p = (Return tt, p')
    /\ (forall k,
           _in_use p' !! k
           = match _in_use p !! k with
             | Some data =>
                 if is_stale current_time data then None else Some data
             | None => None
             end)
    /\ _semaphore p'
       = _semaphore p
         + Z.of_nat (length (stale_resources current_time p)).
Proof.
  destruct (release_each_spec current_time (stale_resources current_time p) p)
    as (p' & E & Hu & Hs).
  - apply stale_resources_NoDup.
  - intros k Hk. apply stale_resources_elem in Hk as (data & Hl & _).
    rewrite Hl. eauto.
  - exists p'. split.
    + unfold _periodic_cleanup_pass, try_except, bind, get. rewrite E.
      reflexivity.
    + split; [|exact Hs]. intros k. rewrite Hu.
      destruct (_in_use p !! k) as [data|] eqn:Hl.
      * destruct (is_stale current_time data) eqn:Hst.
        -- rewrite bool_decide_eq_true_2; [reflexivity|].
           apply stale_resources_elem. eauto.
        -- rewrite bool_decide_eq_false_2; [reflexivity|].
           intros Hin. apply stale_resources_elem in Hin as (d & Hd & Hs').
           congruence.
      * destruct (bool_decide _); reflexivity.
Qed.

End Sweep.

Section TaskPoolRelease.

Import TaskPool.

Lemma task_metrics_keeps_pool (now : Time) (task_id : string) (ev : event)
    (s : t) :
  _resource_pool (snd (_update_task_metrics now task_id ev s))
  = _resource_pool s
  /\ _task_metadata (snd (_update_task_metrics now task_id ev s))
     = _task_metadata s.
Proof.
  unfold _update_task_metrics, modify. simpl.
  destruct (_task_metrics s) as [m|]; [|auto].
  destruct ev; [auto|]. destruct (m !! task_id); auto.
Qed.

(** The state in which [release] calls the pool: the entry is popped and
    the metrics are closed. *)
Lemma release_known (now : Time) (task_id : string) (s : t)
    (meta : TaskMeta) :
  _task_metadata s !! task_id = Some meta ->
  exists s1,
    _resource_pool s1 = _resource_pool s
    /\ _task_metadata s1 = delete task_id (_task_metadata s)
    /\ release now task_id s
       = match ResourcePool.release now (resource meta) (Some task_id)
                 (_resource_pool s) with
         | (Return b, p') => (Return b, with_pool p' s1)
         | (Raise e, p') => (Return false, with_pool p' s1)
         end.
Proof.
  intros Hm. unfold release, try_except. unfold bind at 1, get. rewrite Hm.
  unfold bind at 1, modify. unfold bind at 1.
  set (s0 := with_metadata (delete task_id (_task_metadata s)) s).
  exists (snd (_update_task_metrics now task_id End_ s0)).
  destruct (task_metrics_keeps_pool now task_id End_ s0) as [Hp Hd].
  split; [rewrite Hp; reflexivity|]. split; [rewrite Hd; reflexivity|].
  assert (Hstep : (match _task_metrics s0 with
                   | Some _ => _update_task_metrics now task_id End_ s0
                   | None => (Return tt, s0)
                   end)
                  = (Return tt, snd (_update_task_metrics now task_id End_ s0))).
  { unfold _update_task_metrics, modify. simpl.
    destruct (_task_metrics s); reflexivity. }
  rewrite Hstep. unfold bind, zoom. rewrite Hp.
  change (_resource_pool s0) with (_resource_pool s).
  destruct (ResourcePool.release now (resource meta) (Some task_id)
              (_resource_pool s)) as [[b|e] p']; reflexivity.
Qed.

(** X4. [TaskPool.release] never raises.  For an unknown task id it
    answers false and changes nothing.  For a known task id it always
    forgets the task; its answer is the one of the pool: true, with the
    slot given back, when the pool still holds the slot of the task, and
    false, with the pool untouched, when the pool no longer holds it. *)
Theorem task_pool_release_total (now : Time) (task_id : string) (s : t) :
  exists (b : bool) (s' : t),
    release now task_id s = (Return b, s')
    /\ _task_metadata s' = delete task_id (_task_metadata s)
    /\ match _task_metadata s !! task_id with
       | None => b = false /\ s' = s
       | Some _ =>
           match ResourcePool._in_use (_resource_pool s) !! Some task_id with
           | None => b = false /\ _resource_pool s' = _resource_pool s
           | Some _ =>
               b = true
               /\ ResourcePool._in_use (_resource_pool s')
                  = delete (Some task_id)
                      (ResourcePool._in_use (_resource_pool s))
               /\ ResourcePool._semaphore (_resource_pool s')
                  = ResourcePool._semaphore (_resource_pool s) + 1
           end
       end.
Proof.
  destruct (_task_metadata s !! task_id) as [meta|] eqn:Hm.
  - destruct (release_known now task_id s meta Hm) as (s1 & Hp & Hd & E).
    rewrite E.
    destruct (ResourcePool._in_use (_resource_pool s) !! Some task_id)
      as [u|] eqn:Hu.
    + destruct (release_held now (resource meta) (Some task_id)
                  (_resource_pool s) u Hu) as (p' & E' & Hu' & Hs' & _).
      rewrite E'. exists true, (with_pool p' s1). simpl. auto.
    + rewrite (release_absent_id now (Some task_id) (resource meta)
                 (_resource_pool s) Hu).
      exists false, (with_pool (_resource_pool s) s1). simpl. auto.
  - exists false, s. unfold release, try_except, bind, get. rewrite Hm.
    split; [reflexivity|]. split; [|auto].
    symmetry. apply delete_id. exact Hm.
Qed.

(** X5. A slot that [TaskPool.acquire] has granted is given back by
    [TaskPool.release]: the release answers true, the task metadata are as
    before the acquisition, and the pool has its permit back and no entry
    for the task. *)
Theorem task_pool_round_trip (t1 t2 : Time) (task_id : string) (timeout : Q)
    (task_context : option (gmap string string)) (s s1 : t) :
  acquire t1 task_id timeout task_context s = (Return true, s1) ->
  exists s2,
    release t2 task_id s1 = (Return true, s2)
    /\ _task_metadata s2 = _task_metadata s
    /\ ResourcePool._in_use (_resource_pool s2)
       = delete (Some task_id) (ResourcePool._in_use (_resource_pool s))
    /\ ResourcePool._semaphore (_resource_pool s2)
       = ResourcePool._semaphore (_resource_pool s).
Proof.
  intros Ha. unfold acquire, try_except in Ha.
  destruct (bool_decide (task_id = "")); [simpl in Ha; discriminate|].
  unfold bind at 1, get in Ha.
  destruct (_task_metadata s !! task_id) as [old|] eqn:Hm;
    [simpl in Ha; discriminate|].
  unfold bind at 1, zoom in Ha.
  destruct (acquire_cases t1 timeout (Some task_id) (_resource_pool s))
    as [(r & p1 & E & Hu & Hs & _)|[E _]]; rewrite E in Ha;
    [|simpl in Ha; discriminate].
  unfold bind at 1, modify in Ha.
  set (s0 := with_metadata _ (with_pool p1 s)) in Ha.
  assert (Hs1 : _resource_pool s1 = p1
                /\ _task_metadata s1
                   = <[task_id := mkTaskMeta r t1
                                    (context_or_empty task_context)
                                    "running"]> (_task_metadata s)).
  { unfold bind, ret in Ha.
    destruct (_task_metrics s0) eqn:Hmet.
    - destruct (task_metrics_keeps_pool t1 task_id Start s0) as [Hp Hd].
      unfold _update_task_metrics, modify in Ha, Hp, Hd. simpl in Ha, Hp, Hd.
      inversion Ha; subst s1. rewrite Hp, Hd. auto.
    - inversion Ha; subst s1. auto. }
  destruct Hs1 as [Hp1 Hd1].
  assert (Hm1 : _task_metadata s1 !! task_id
                = Some (mkTaskMeta r t1 (context_or_empty task_context)
                          "running")).
  { rewrite Hd1. apply lookup_insert_eq. }
  destruct (release_known t2 task_id s1 _ Hm1) as (s2 & Hp2 & Hd2 & E2).
  assert (Hin : ResourcePool._in_use (_resource_pool s1) !! Some task_id
                = Some (ResourcePool.mkInUse r t1 t1)).
  { rewrite Hp1, Hu. apply lookup_insert_eq. }
  destruct (release_held t2 r (Some task_id) (_resource_pool s1) _ Hin)
    as (p' & E' & Hu' & Hs' & _).
  simpl in E2. rewrite E' in E2. rewrite E2.
  exists (with_pool p' s2). split; [reflexivity|]. simpl.
  split; [rewrite Hd2, Hd1; apply delete_insert_id, Hm|].
  split.
  - rewrite Hu', Hp1, Hu. apply delete_insert_eq.
  - rewrite Hs', Hp1, Hs. lia.
Qed.

Lemma task_pool_round_trip_witness :
  let s := __init__ 1 true in
  let a := acquire 0%Q "t1" 30%Q None s in
  a = (Return true, snd a)
  /\ exists s2,
      release 5%Q "t1" (snd a) = (Return true, s2)
      /\ _task_metadata s2 = _task_metadata s
      /\ ResourcePool._in_use (_resource_pool s2)
         = delete (Some "t1") (ResourcePool._in_use (_resource_pool s))
      /\ ResourcePool._semaphore (_resource_pool s2)
         = ResourcePool._semaphore (_resource_pool s).
Proof.
  intros s a.
  assert (Ha : a = (Return true, snd a)) by (vm_compute; reflexivity).
  split; [exact Ha|].
  exact (task_pool_round_trip 0%Q 5%Q "t1" 30%Q None s (snd a) Ha).
Defined.

End TaskPoolRelease.

(** ** utils/retry.py *)

Section Backoff.

Import Retry.









End Backoff.


Section RetryWrapper.

Import Retry.

Context {St A : Type}.
Variables (cfg : Config) (jitter : Z -> Q) (func : Z -> M St A).




(** X9. A wrapper that is set up wrongly does not retry.  With a delay
    bound that is not positive or a back-off factor that is not above 1,
    the first caught exception is replaced by the [ValueError] of
    [calculate_delay] and the function is not called again; with a
    negative [max_retries] the function is never called and the wrapper
    raises [TypeError]. *)
Theorem wrapper_wrong_setup (s s' : St) (e : exn) :
  ((initial_delay cfg <= 0)%Q \/ (max_delay cfg <= 0)%Q
   \/ (backoff_factor cfg <= 1)%Q ->
   1 <= max_retries cfg ->
   exceptions cfg e = true ->
   func 0 s = (Raise e, s') ->
   wrapper cfg jitter func s
   = (Raise (ValueError "Invalid retry parameters"), s'))
  /\ (max_retries cfg < 0 ->
      wrapper cfg jitter func s = (Raise TypeError, s)).
Proof.
  unfold wrapper. split.
  - intros Hbad Hm Hex Hr.
    destruct (Z.to_nat (max_retries cfg + 1)) as [|n] eqn:Hn; [lia|].
    cbn [attempts]. rewrite Hr, Hex.
    rewrite (proj2 (Z.eqb_neq 0 (max_retries cfg))) by lia.
    assert (Hd : calculate_delay 0 (initial_delay cfg) (max_delay cfg)
                   (backoff_factor cfg) DEFAULT_JITTER_FACTOR (jitter 0)
                 = Raise (ValueError "Invalid retry parameters")).
    { unfold calculate_delay. cbn [Z.ltb Z.compare orb].
      destruct Hbad as [H|[H|H]]; apply Qle_bool_iff in H; rewrite H;
        rewrite ?orb_true_r; reflexivity. }
    rewrite Hd. reflexivity.
  - intros Hm. replace (Z.to_nat (max_retries cfg + 1)) with 0%nat by lia.
    reflexivity.
Qed.

End RetryWrapper.

Section RetryExamples.

Import Retry.

(** A function that fails twice and then returns its attempt number; the
    state counts the calls. *)
Let flaky (attempt : Z) : M nat Z :=
  fun calls =>
    if attempt <? 2 then (Raise ConnectionError, S calls)
    else (Return attempt, S calls).


Let unset : Config := mkConfig 3 0 60 2 (fun _ => true).


Lemma wrapper_wrong_setup_witness :
  (initial_delay unset <= 0)%Q
  /\ wrapper unset (fun _ => 0%Q) flaky 0%nat
     = (Raise (ValueError "Invalid retry parameters"), 1%nat).
Proof.
  assert (Hi : (initial_delay unset <= 0)%Q) by (vm_compute; discriminate).
  split; [exact Hi|].
  apply (proj1 (wrapper_wrong_setup unset (fun _ => 0%Q) flaky 0%nat 1%nat
                  ConnectionError)).
  - left. exact Hi.
  - vm_compute. discriminate.
  - reflexivity.
  - reflexivity.
Defined.

End RetryExamples.

(** ** scraper/middleware/rate_limit.py *)

Section RateLimitKeys.

Import RateLimitMiddleware KeyFacts.

Lemma replace_char_free (a b : ascii) (s : string) :
  a <> b -> contains a (replace_char a b s) = false.
Proof.
  intros Hne. induction s as [|c rest IH]; [reflexivity|]. simpl.
  rewrite IH, orb_false_r. destruct (bool_decide (c = a)) eqn:E.
  - apply bool_decide_eq_false. congruence.
  - exact E.
Qed.

Lemma replace_char_keeps_free (a b x : ascii) (s : string) :
  b <> x -> contains x s = false -> contains x (replace_char a b s) = false.
Proof.
  intros Hne. induction s as [|c rest IH]; [reflexivity|]. simpl.
  intros H. apply orb_false_elim in H as [Hc Hr]. rewrite (IH Hr), orb_false_r.
  destruct (bool_decide (c = a)); [|exact Hc].
  apply bool_decide_eq_false. exact Hne.
Qed.

Lemma sanitize_free (s : string) :
  contains ":" (sanitize s) = false /\ contains "/" (sanitize s) = false.
Proof.
  unfold sanitize. split.
  - apply replace_char_keeps_free; [discriminate|].
    apply replace_char_free. discriminate.
  - apply replace_char_free. discriminate.
Qed.

Lemma app_assoc_string (a b c : string) :
  (a +:+ b) +:+ c = a +:+ (b +:+ c).
Proof.
  induction a as [|x a IH]; [reflexivity|].
  change (String x ((a +:+ b) +:+ c) = String x (a +:+ (b +:+ c))).
  f_equal. exact IH.
Qed.

Lemma app_cancel_l (p x y : string) : p +:+ x = p +:+ y -> x = y.
Proof.
  induction p as [|c p IH]; simpl; [auto|]. intros H. inversion H. auto.
Qed.

Lemma contains_app_sep (c : ascii) (a x : string) :
  contains c (a +:+ String c x) = true.
Proof.
  induction a as [|c' a IH]; simpl.
  - rewrite bool_decide_eq_true_2; reflexivity.
  - rewrite IH. apply orb_true_r.
Qed.

(** A separator character that occurs in neither left part splits in one
    way only. *)
Lemma app_sep_inj (c : ascii) (a a' x y : string) :
  contains c a = false -> contains c a' = false ->
  a +:+ String c x = a' +:+ String c y -> a = a' /\ x = y.
Proof.
  revert a'. induction a as [|h a IH]; intros [|h' a'] Ha Ha' H; simpl in *.
  - inversion H. auto.
  - inversion H; subst h'. rewrite bool_decide_eq_true_2 in Ha' by reflexivity.
    discriminate.
  - inversion H; subst h. rewrite bool_decide_eq_true_2 in Ha by reflexivity.
    discriminate.
  - inversion H; subst h'.
    apply orb_false_elim in Ha as [_ Ha]. apply orb_false_elim in Ha' as [_ Ha'].
    destruct (IH a' Ha Ha' H2) as [-> ->]. auto.
Qed.

(** X10. Two buckets share a key only when they must.  The keys of two
    domains are equal exactly when the domains agree once [:] and [/] are
    replaced by [_]; a key with a client part is never the key of a
    domain alone; and two keys with client parts are equal exactly when
    both their domains and their clients agree after the replacement. *)
Theorem rate_limit_keys_separate (d d' c c' : string) :
  c <> "" -> c' <> "" ->
  (_get_rate_limit_key d None = _get_rate_limit_key d' None
   <-> sanitize d = sanitize d')
  /\ _get_rate_limit_key d (Some c) <> _get_rate_limit_key d' None
  /\ (_get_rate_limit_key d (Some c) = _get_rate_limit_key d' (Some c')
      <-> sanitize d = sanitize d' /\ sanitize c = sanitize c').
Proof.
  intros Hc Hc'. unfold _get_rate_limit_key.
  rewrite !(bool_decide_eq_false_2 _ Hc), !(bool_decide_eq_false_2 _ Hc').
  destruct (sanitize_free d) as [Hd _]. destruct (sanitize_free d') as [Hd' _].
  split; [|split].
  - split; [apply app_cancel_l | intros ->; reflexivity].
  - rewrite app_assoc_string. intros H. apply app_cancel_l in H.
    rewrite <- H in Hd'.
    change (":client:" +:+ sanitize c)
      with (String ":" ("client:" +:+ sanitize c)) in Hd'.
    rewrite contains_app_sep in Hd'. discriminate.
  - rewrite !app_assoc_string. split.
    + intros H. apply app_cancel_l in H.
      change (":client:" +:+ sanitize c)
        with (String ":" ("client:" +:+ sanitize c)) in H.
      change (":client:" +:+ sanitize c')
        with (String ":" ("client:" +:+ sanitize c')) in H.
      apply app_sep_inj in H as [H1 H2]; [|assumption..].
      split; [exact H1|]. apply (app_cancel_l "client:"). exact H2.
    + intros [-> ->]. reflexivity.
Qed.

Lemma rate_limit_keys_separate_witness :
  "c1" <> "" /\ "c:2" <> ""
  /\ _get_rate_limit_key "a.com:80" (Some "c1")
     <> _get_rate_limit_key "a.com_80" None
  /\ (_get_rate_limit_key "a.com:80" None = _get_rate_limit_key "a.com/80" None
      <-> sanitize "a.com:80" = sanitize "a.com/80").
Proof.
  assert (H1 : "c1" <> "") by discriminate.
  assert (H2 : "c:2" <> "") by discriminate.
  split; [exact H1|]. split; [exact H2|].
  destruct (rate_limit_keys_separate "a.com:80" "a.com_80" "c1" "c:2" H1 H2)
    as (_ & Hsep & _).
  destruct (rate_limit_keys_separate "a.com:80" "a.com/80" "c1" "c:2" H1 H2)
    as (Hdom & _ & _).
  split; [exact Hsep | exact Hdom].
Defined.

End RateLimitKeys.

Section RateLimitCalls.

Import RateLimitMiddleware RateLimitAdmin.

(** The configuration of the limiter is the same in both states. *)
Let same_config (s s' : t) : Prop :=
  _rate_limits s' = _rate_limits s
  /\ _window_seconds s' = _window_seconds s
  /\ _burst_multipliers s' = _burst_multipliers s.

Lemma Qltb_plus_pos (now : Time) (w : Z) :
  0 < w -> Qltb now (now + inject_Z w) = true.
Proof.
  intros Hw. apply Qltb_true.
  assert (H0 : (0 < inject_Z w)%Q) by (unfold Qlt; simpl; lia).
  apply (Qplus_lt_r _ _ now) in H0. rewrite Qplus_0_r in H0. exact H0.
Qed.

Lemma Qmin_le_r (a b : Q) : (Qmin_ a b <= b)%Q.
Proof.
  unfold Qmin_. destruct (Qle_bool a b) eqn:E; [|apply Qle_refl].
  apply Qle_bool_iff. exact E.
Qed.

(** [check_rate_limit] on a store that answers: the flag follows the
    script, the store is the one the script leaves, the configuration is
    untouched and the retry delay is at most [MAX_BACKOFF_SECONDS]. *)
Lemma check_rate_limit_on_store (now : Time) (domain : string)
    (client_id : option string) (s : t) (d : gmap string Redis.Entry) :
  _redis_client s = Some (Redis.mk true d) ->
  exists (o : outcome (Z * Z)) (d' : gmap string Redis.Entry)
         (flag : bool) (rem : Z) (bo : option Q) (s' : t),
    script now (_get_rate_limit_key domain client_id)
      (burst_limit_for s domain) (window_for s domain) d = (o, d')
    /\ check_rate_limit now domain client_id s = (Return (flag, rem, bo), s')
    /\ _redis_client s' = Some (Redis.mk true d')
    /\ same_config s s'
    /\ (flag = true
        <-> exists a r, o = Return (a, r) /\ a <> 0)
    /\ (flag = true -> bo = None
                       /\ exists a, o = Return (a, rem))
    /\ (forall b, bo = Some b -> (b <= inject_Z MAX_BACKOFF_SECONDS)%Q).
Proof.
  intros Hr. unfold check_rate_limit, try_except, bind, get, eval.
  cbv beta iota. rewrite Hr. cbn [Redis.reachable Redis.data].
  destruct (script now (_get_rate_limit_key domain client_id)
              (burst_limit_for s domain) (window_for s domain) d)
    as [[[a r]|e] d'] eqn:Hsc; cbv beta iota.
  - destruct (a =? 0) eqn:Ha; cbn [negb]; cbv beta iota.
    + apply Z.eqb_eq in Ha. subst a.
      unfold modify, raise, ret. cbv beta iota.
      destruct (bool_decide (burst_limit_for s domain = 0)) eqn:Hb;
        cbv beta iota.
      * eexists _, _, false, 0, _, _. split; [reflexivity|].
        split; [reflexivity|]. cbn. split; [reflexivity|].
        split; [repeat split|].
        split; [split; [discriminate | intros (a & r' & E & Hne);
                                       inversion E; congruence]|].
        split; [discriminate|].
        intros b E. inversion E; subst. apply Qle_bool_iff. reflexivity.
      * eexists _, _, false, 0, _, _. split; [reflexivity|].
        split; [reflexivity|]. cbn. split; [reflexivity|].
        split; [repeat split|].
        split; [split; [discriminate | intros (a & r' & E & Hne);
                                       inversion E; congruence]|].
        split; [discriminate|].
        intros b E. inversion E; subst. apply Qmin_le_r.
    + apply Z.eqb_neq in Ha. unfold modify, ret. cbv beta iota.
      eexists _, _, true, r, None, _. split; [reflexivity|].
      split; [reflexivity|]. cbn. split; [reflexivity|].
      split; [repeat split|].
      split; [split; [eauto | reflexivity]|].
      split; [eauto | discriminate].
  - unfold modify, ret. cbv beta iota.
    eexists _, _, false, 0, _, _. split; [reflexivity|].
    split; [reflexivity|]. cbn. split; [reflexivity|].
    split; [repeat split|].
    split; [split; [discriminate | intros (a & r' & E & _); discriminate]|].
    split; [discriminate|].
    intros b E. inversion E; subst. apply Qle_bool_iff. reflexivity.
Qed.

End RateLimitCalls.

Section RateLimitReset.

Import RateLimitMiddleware RateLimitAdmin.

(** X11. On a store that answers and with the lock free, resetting a
    bucket returns true, whatever its counter was, and touches no other
    key; when the window of the domain is positive, the next call for the
    bucket is let through and the counter starts again at 1. *)
Theorem reset_then_check_passes (t1 t2 : Time) (domain : string)
    (client_id : option string) (s : t) (d : gmap string Redis.Entry) :
  let key := _get_rate_limit_key domain client_id in
  _redis_client s = Some (Redis.mk true d) ->
  Redis.get t1 (key +:+ ":lock") d = None ->
  0 < window_for s domain ->
  exists (s1 : t) (d1 : gmap string Redis.Entry),
    reset_rate_limit t1 domain client_id s = Some (Return true, s1)
    /\ _redis_client s1 = Some (Redis.mk true d1)
    /\ (forall k, k <> key -> k <> key +:+ ":lock" -> d1 !! k = d !! k)
    /\ exists (rem : Z) (s2 : t) (d2 : gmap string Redis.Entry),
        check_rate_limit t2 domain client_id s1
        = (Return (true, rem, None), s2)
        /\ _redis_client s2 = Some (Redis.mk true d2)
        /\ Redis.get t2 key d2 = Some 1.
Proof.
  intros key Hr Hlock Hw.
  unfold reset_rate_limit. fold key. rewrite Hr.
  cbn [Redis.reachable Redis.data]. rewrite Hlock.
  set (d1 := delete (key +:+ ":lock") (delete key d)).
  set (s1 := with_redis (Some (Redis.mk true d1)) s).
  exists s1, d1. split; [reflexivity|]. split; [reflexivity|].
  split.
  { intros k Hk Hl. unfold d1. rewrite !lookup_delete_ne by congruence.
    reflexivity. }
  assert (Hnone : Redis.get t2 key d1 = None).
  { unfold Redis.get, d1. rewrite lookup_delete.
    destruct (decide (key +:+ ":lock" = key)); [reflexivity|].
    rewrite lookup_delete_eq. reflexivity. }
  assert (Hr1 : _redis_client s1 = Some (Redis.mk true d1)) by reflexivity.
  destruct (check_rate_limit_on_store t2 domain client_id s1 d1 Hr1)
    as (o & d2 & flag & rem & bo & s2 & Hsc & Hck & Hr2 & _ & Hflag & Hbo & _).
  fold key in Hsc.
  change (burst_limit_for s1 domain) with (burst_limit_for s domain) in Hsc.
  change (window_for s1 domain) with (window_for s domain) in Hsc.
  unfold script, bind, get in Hsc. cbv beta iota in Hsc. rewrite Hnone in Hsc.
  unfold Redis.setex in Hsc.
  rewrite (proj2 (Z.leb_gt (window_for s domain) 0) Hw) in Hsc.
  unfold modify, ret in Hsc. inversion Hsc; subst o d2; clear Hsc.
  assert (Hf : flag = true).
  { apply Hflag. eexists _, _. split; [reflexivity | lia]. }
  subst flag. destruct (Hbo eq_refl) as [-> _].
  eexists rem, s2, _. split; [exact Hck|]. split; [exact Hr2|].
  unfold Redis.get. rewrite lookup_insert_eq. cbn [Redis.expires_at Redis.value].
  rewrite (Qltb_plus_pos t2 _ Hw). reflexivity.
Qed.

Lemma reset_then_check_passes_witness :
  let s0 := __init__ (Some (Redis.mk true ∅)) {[ "example.com" := 1 ]}
              {[ "example.com" := 60 ]} {[ "example.com" := 0%Q ]} in
  let s := snd (check_rate_limit 0%Q "example.com" None s0) in
  fst (check_rate_limit 1%Q "example.com" None s)
  = Return (false, 0, Some 60%Q)
  /\ exists (s1 : t) (d1 : gmap string Redis.Entry),
      reset_rate_limit 2%Q "example.com" None s = Some (Return true, s1)
      /\ _redis_client s1 = Some (Redis.mk true d1)
      /\ exists (rem : Z) (s2 : t) (d2 : gmap string Redis.Entry),
          check_rate_limit 3%Q "example.com" None s1
          = (Return (true, rem, None), s2)
          /\ _redis_client s2 = Some (Redis.mk true d2)
          /\ Redis.get 3%Q (_get_rate_limit_key "example.com" None) d2
             = Some 1.
Proof.
  intros s0 s. split; [vm_compute; reflexivity|].
  destruct (reset_then_check_passes 2%Q 3%Q "example.com" None s
              (match _redis_client s with
               | Some r => Redis.data r
               | None => ∅
               end))
    as (s1 & d1 & H1 & H2 & _ & H3).
  - vm_compute. reflexivity.
  - vm_compute. reflexivity.
  - vm_compute. reflexivity.
  - exists s1, d1. auto.
Defined.

End RateLimitReset.

Section RateLimitHandle.

Import RateLimitMiddleware RateLimitAdmin.

Lemma py_int_le (q : Q) (n : Z) : (q <= inject_Z n)%Q -> py_int q <= n.
Proof.
  unfold Qle, py_int. simpl. intros H. rewrite Z.mul_1_r in H.
  rewrite <- (Z.quot_mul n (Z.pos (Qden q))) by lia.
  apply Z.quot_le_mono; lia.
Qed.

(** [check_rate_limit] always returns: a triple whose retry delay, if
    any, is at most [MAX_BACKOFF_SECONDS], with the limits of the domain
    as they were. *)
Lemma check_rate_limit_total (now : Time) (domain : string)
    (client_id : option string) (s : t) :
  exists (flag : bool) (rem : Z) (bo : option Q) (s' : t),
    check_rate_limit now domain client_id s = (Return (flag, rem, bo), s')
    /\ _rate_limits s' = _rate_limits s
    /\ _window_seconds s' = _window_seconds s
    /\ (forall b, bo = Some b -> (b <= inject_Z MAX_BACKOFF_SECONDS)%Q).
Proof.
  destruct (_redis_client s) as [[[] d]|] eqn:Hr.
  - destruct (check_rate_limit_on_store now domain client_id s d Hr)
      as (o & d' & flag & rem & bo & s' & _ & Hck & _ & (H1 & H2 & _) & _ & _
          & Hb).
    exists flag, rem, bo, s'. auto.
  - unfold check_rate_limit, try_except, bind, get, eval. cbv beta iota.
    rewrite Hr. cbn [Redis.reachable]. unfold modify, ret. cbv beta iota.
    eexists false, 0, _, _. split; [reflexivity|]. cbn.
    split; [reflexivity|]. split; [reflexivity|].
    intros b E. inversion E; subst. apply Qle_bool_iff. reflexivity.
  - unfold check_rate_limit, try_except, bind, get, eval. cbv beta iota.
    rewrite Hr. unfold modify, ret. cbv beta iota.
    eexists false, 0, _, _. split; [reflexivity|]. cbn.
    split; [reflexivity|]. split; [reflexivity|].
    intros b E. inversion E; subst. apply Qle_bool_iff. reflexivity.
Qed.

(** X12. [handle_rate_limit] lets the caller proceed exactly when
    [check_rate_limit] allows the request; otherwise it raises
    [RateLimitExceeded] with the limit and the window of the domain, and
    the retry delay it announces is never above [MAX_BACKOFF_SECONDS]. *)
Theorem handle_rate_limit_outcome (now : Time) (domain : string)
    (client_id : option string) (s : t) :
  exists (flag : bool) (rem : Z) (bo : option Q) (s' : t),
    check_rate_limit now domain client_id s = (Return (flag, rem, bo), s')
    /\ handle_rate_limit now domain client_id s
       = (Return
            (if flag then Proceed
             else RateLimitExceeded (retry_after_of bo)
                    (lookup_default (_rate_limits s) domain
                       DEFAULT_RATE_LIMIT)
                    rem
                    (lookup_default (_window_seconds s) domain
                       DEFAULT_WINDOW_SECONDS)),
          s')
    /\ retry_after_of bo <= MAX_BACKOFF_SECONDS.
Proof.
  destruct (check_rate_limit_total now domain client_id s)
    as (flag & rem & bo & s' & Hck & H1 & H2 & Hb).
  exists flag, rem, bo, s'. split; [exact Hck|]. split.
  - unfold handle_rate_limit, bind. rewrite Hck.
    destruct flag; cbn [negb]; [reflexivity|].
    unfold get, ret. rewrite H1, H2. reflexivity.
  - unfold retry_after_of. destruct bo as [b|]; [|vm_compute; discriminate].
    destruct (Qeq_bool b 0); [vm_compute; discriminate|].
    apply py_int_le, Hb. reflexivity.
Qed.

End RateLimitHandle.

Section RateLimitWindow.

Import RateLimitMiddleware RateLimitAdmin.

Variables (domain : string) (client_id : option string).

Let key : string := _get_rate_limit_key domain client_id.

Lemma passed_cons (b : bool) (l : list bool) :
  passed (b :: l) = (if b then 1 else 0) + passed l.
Proof.
  unfold passed. rewrite filter_cons. destruct b.
  - rewrite decide_True by reflexivity. simpl length. lia.
  - rewrite decide_False by discriminate. lia.
Qed.

(** While the counter of the bucket is live, the calls let through and
    the counter together never pass the larger of the counter and the
    limit. *)
Lemma live_window_bound (limit : Z) (times : list Time) :
  forall (s : t) (d : gmap string Redis.Entry) (c : Z) (expiry : Time),
    burst_limit_for s domain = limit ->
    _redis_client s = Some (Redis.mk true d) ->
    d !! key = Some (Redis.mkEntry c expiry) ->
    (forall now, now ∈ times -> (now < expiry)%Q) ->
    passed (fst (check_all times domain client_id s)) + c <= Z.max c limit.
Proof.
  induction times as [|now rest IH]; intros s d c expiry HL Hr Hd Hlive.
  - simpl. unfold passed. simpl. lia.
  - cbn [check_all].
    destruct (check_rate_limit_on_store now domain client_id s d Hr)
      as (o & d' & flag & rem & bo & s' & Hsc & Hck & Hr' & (C1 & C2 & C3)
          & Hflag & _ & _).
    rewrite Hck. fold key in Hsc. rewrite HL in Hsc.
    assert (HL' : burst_limit_for s' domain = limit).
    { unfold burst_limit_for. rewrite C1, C3. exact HL. }
    assert (Hget : Redis.get now key d = Some c).
    { unfold Redis.get. rewrite Hd. cbn [Redis.expires_at Redis.value].
      rewrite (proj2 (Qltb_true now expiry)); [reflexivity|].
      apply Hlive, elem_of_cons. auto. }
    assert (Hrest : forall t0, t0 ∈ rest -> (t0 < expiry)%Q).
    { intros t0 Ht0. apply Hlive, elem_of_cons. auto. }
    unfold script, bind, get in Hsc. cbv beta iota in Hsc.
    rewrite Hget in Hsc.
    destruct (c <? limit) eqn:Hc.
    + apply Z.ltb_lt in Hc. unfold Redis.incr, modify, ret in Hsc.
      inversion Hsc; subst o d'; clear Hsc.
      assert (Hf : flag = true).
      { apply Hflag. eexists _, _. split; [reflexivity | lia]. }
      subst flag.
      assert (Hd' : alter (fun e => Redis.mkEntry (Redis.value e + 1)
                                      (Redis.expires_at e)) key d !! key
                    = Some (Redis.mkEntry (c + 1) expiry)).
      { rewrite lookup_alter_eq, Hd. reflexivity. }
      pose proof (IH s' _ (c + 1) expiry HL' Hr' Hd' Hrest) as Hb.
      destruct (check_all rest domain client_id s') as [flags s''].
      cbn [fst] in *. rewrite passed_cons. lia.
    + apply Z.ltb_ge in Hc. unfold ret in Hsc.
      inversion Hsc; subst o d'; clear Hsc.
      assert (Hf : flag = false).
      { destruct flag; [|reflexivity].
        destruct (proj1 Hflag eq_refl) as (a & r & E & Hne).
        inversion E; subst. contradiction. }
      subst flag.
      pose proof (IH s' d c expiry HL' Hr' Hd Hrest) as Hb.
      destruct (check_all rest domain client_id s') as [flags s''].
      cbn [fst] in *. rewrite passed_cons. lia.
Qed.

(** X13. Within one window the bucket lets through at most
    [max 1 (int (limit * (1 + burst)))] calls: starting from a bucket with
    no live counter, on a store that answers and with a positive window,
    the first call opens the window, and of all the calls made before the
    window is over no more than that many are allowed. *)
Theorem calls_within_a_window_bounded (s : t) (d : gmap string Redis.Entry)
    (first : Time) (later : list Time) :
  _redis_client s = Some (Redis.mk true d) ->
  Redis.get first key d = None ->
  0 < window_for s domain ->
  (forall now, now ∈ later ->
               (now < first + inject_Z (window_for s domain))%Q) ->
  passed (fst (check_all (first :: later) domain client_id s))
  <= Z.max 1 (burst_limit_for s domain).
Proof.
  intros Hr Hnone Hw Hlater. cbn [check_all].
  destruct (check_rate_limit_on_store first domain client_id s d Hr)
    as (o & d' & flag & rem & bo & s' & Hsc & Hck & Hr' & (C1 & C2 & C3)
        & Hflag & _ & _).
  rewrite Hck. fold key in Hsc.
  assert (HL' : burst_limit_for s' domain = burst_limit_for s domain).
  { unfold burst_limit_for. rewrite C1, C3. reflexivity. }
  unfold script, bind, get in Hsc. cbv beta iota in Hsc.
  rewrite Hnone in Hsc. unfold Redis.setex in Hsc.
  rewrite (proj2 (Z.leb_gt (window_for s domain) 0) Hw) in Hsc.
  unfold modify, ret in Hsc. inversion Hsc; subst o d'; clear Hsc.
  assert (Hf : flag = true).
  { apply Hflag. eexists _, _. split; [reflexivity | lia]. }
  subst flag.
  pose proof (live_window_bound (burst_limit_for s domain) later s' _ 1
                (first + inject_Z (window_for s domain))%Q HL' Hr'
                (lookup_insert_eq _ _ _) Hlater) as Hb.
  destruct (check_all later domain client_id s') as [flags s''].
  cbn [fst] in *. rewrite passed_cons. lia.
Qed.

End RateLimitWindow.

Lemma calls_within_a_window_bounded_witness :
  let s := RateLimitMiddleware.__init__ (Some (Redis.mk true ∅))
             {[ "example.com" := 2 ]} {[ "example.com" := 60 ]}
             {[ "example.com" := 0%Q ]} in
  let later := [1%Q; 2%Q; 30%Q; 59%Q] in
  Redis.get 0%Q (RateLimitMiddleware._get_rate_limit_key "example.com" None) ∅
  = None
  /\ RateLimitAdmin.passed
       (fst (RateLimitMiddleware.check_all (0%Q :: later) "example.com" None
               s))
     <= Z.max 1 (RateLimitMiddleware.burst_limit_for s "example.com").
Proof.
  intros s later. split; [reflexivity|].
  apply (calls_within_a_window_bounded "example.com" None s ∅ 0%Q later).
  - reflexivity.
  - reflexivity.
  - vm_compute. reflexivity.
  - intros now Hin. unfold later in Hin.
    repeat (apply elem_of_cons in Hin as [->|Hin]; [reflexivity|]).
    inversion Hin.
Defined.

(** ** scraper/browser/manager.py *)

Section BrowserManagerFacts.

Import BrowserManager BrowserFacts.

Lemma with_pool_same (s : t) : with_pool (_browser_pool s) s = s.
Proof. destruct s; reflexivity. Qed.

(** [get_browser], by the outcome of the acquisition. *)
Lemma get_browser_unfold (now : Time) (browser_options : gmap string Q)
    (s : t) :
  get_browser now browser_options s
  = match ResourcePool.acquire now (acquire_timeout s browser_options) None
            (_browser_pool s) with
    | (Return b, p') =>
        (Return b,
         with_gauge (active_browsers_gauge s + 1)
           (with_active (<[str_id b := b]> (_active_browsers s))
              (with_pool p' s)))
    | (Raise e, p') =>
        (Raise e, with_errors (browser_errors s + 1) (with_pool p' s))
    end.
Proof.
  unfold get_browser, try_except, bind, get, zoom, acquire_timeout.
  cbv beta iota.
  destruct (ResourcePool.acquire now _ None (_browser_pool s)) as [[b|e] p'];
    reflexivity.
Qed.

(** The two ways [get_browser] ends. *)
Lemma get_browser_cases (now : Time) (browser_options : gmap string Q)
    (s : t) :
  (exists b p',
      get_browser now browser_options s
      = (Return b,
         with_gauge (active_browsers_gauge s + 1)
           (with_active (<[str_id b := b]> (_active_browsers s))
              (with_pool p' s)))
      /\ ResourcePool._in_use p'
         = <[None := ResourcePool.mkInUse b now now]>
             (ResourcePool._in_use (_browser_pool s))
      /\ ResourcePool._semaphore p'
         = ResourcePool._semaphore (_browser_pool s) - 1
      /\ 0 < ResourcePool._semaphore (_browser_pool s))
  \/ (get_browser now browser_options s
      = (Raise (TimeoutError "Resource acquisition timeout"),
         with_errors (browser_errors s + 1)
           (with_pool
              (ResourcePool.with_semaphore
                 (ResourcePool._semaphore (_browser_pool s) + 1)
                 (_browser_pool s)) s))
      /\ (Qltb 0 (acquire_timeout s browser_options)
          && (0 <? ResourcePool._semaphore (_browser_pool s)) = false)).
Proof.
  rewrite get_browser_unfold.
  destruct (acquire_cases now (acquire_timeout s browser_options) None
              (_browser_pool s)) as [(r & p' & E & Hu & Hs & Hpos)|[E Hw]];
    rewrite E.
  - left. exists r, p'. split; [reflexivity|]. auto.
  - right. split; [reflexivity | exact Hw].
Qed.

(** The ways [release_browser] ends. *)
Lemma release_browser_cases (now : Time)
    (cleanup : ResourcePool.Resource -> outcome unit) (browser_id : string)
    (s : t) :
  exists (b : bool) (s' : t),
    release_browser now cleanup browser_id s = (Return b, s')
    /\ match _active_browsers s !! browser_id with
       | None => b = false /\ s' = s
       | Some browser =>
           match cleanup browser with
           | Raise _ =>
               b = false /\ s' = with_errors (browser_errors s + 1) s
           | Return _ =>
               match ResourcePool._in_use (_browser_pool s)
                       !! Some browser_id with
               | None => b = false /\ s' = s
               | Some _ =>
                   b = true
                   /\ _active_browsers s'
                      = delete browser_id (_active_browsers s)
                   /\ active_browsers_gauge s' = active_browsers_gauge s - 1
                   /\ browser_errors s' = browser_errors s
                   /\ ResourcePool._in_use (_browser_pool s')
                      = delete (Some browser_id)
                          (ResourcePool._in_use (_browser_pool s))
                   /\ ResourcePool._semaphore (_browser_pool s')
                      = ResourcePool._semaphore (_browser_pool s) + 1
               end
           end
       end.
Proof.
  unfold release_browser, try_except. unfold bind at 1, get.
  destruct (_active_browsers s !! browser_id) as [browser|] eqn:Ha.
  - unfold bind at 1. destruct (cleanup browser) as [[]|e].
    + unfold bind at 1, zoom.
      destruct (ResourcePool._in_use (_browser_pool s) !! Some browser_id)
        as [u|] eqn:Hu.
      * destruct (release_held now browser (Some browser_id)
                    (_browser_pool s) u Hu) as (p' & E & Hu' & Hs' & _).
        rewrite E. eexists true, _. split; [reflexivity|]. simpl. repeat split; auto.
      * rewrite (release_absent_id now (Some browser_id) browser
                   (_browser_pool s) Hu).
        exists false, s. split; [|auto]. simpl. rewrite with_pool_same.
        reflexivity.
    + eexists false, _. split; [reflexivity|]. auto.
  - exists false, s. split; [reflexivity | auto].
Qed.

(** Whether [acquire] hands out a resource is decided by the time-out and
    the permits. *)
Lemma acquire_decided (now : Time) (timeout : Q)
    (resource_id : option string) (p : ResourcePool.t) :
  if Qltb 0 timeout && (0 <? ResourcePool._semaphore p)
  then exists r p',
      ResourcePool.acquire now timeout resource_id p = (Return r, p')
      /\ ResourcePool._in_use p'
         = <[resource_id := ResourcePool.mkInUse r now now]>
             (ResourcePool._in_use p)
      /\ ResourcePool._semaphore p' = ResourcePool._semaphore p - 1
  else ResourcePool.acquire now timeout resource_id p
       = (Raise (TimeoutError "Resource acquisition timeout"),
          ResourcePool.with_semaphore (ResourcePool._semaphore p + 1) p).
Proof.
  destruct (Qltb 0 timeout && (0 <? ResourcePool._semaphore p)) eqn:Hw.
  - destruct (acquire_cases now timeout resource_id p)
      as [(r & p' & E & Hu & Hs & _)|[_ Hw']]; [eauto | congruence].
  - unfold ResourcePool.acquire, try_except, bind,
      ResourcePool.semaphore_wait_for. rewrite Hw. reflexivity.
Qed.

(** X14. [release_browser] never raises.  An id that is not active gets
    false and nothing changes; when the clean-up of the browser raises,
    the answer is false and one error is counted, the browser staying
    active; when the pool holds no entry under the id, the answer is false
    and nothing changes; only when the pool holds an entry under the id is
    the answer true, and then the browser leaves the active map, the gauge
    goes down by one and the pool gets its permit back. *)
Theorem release_browser_total (now : Time)
    (cleanup : ResourcePool.Resource -> outcome unit) (browser_id : string)
    (s : t) :
  exists (b : bool) (s' : t),
    release_browser now cleanup browser_id s = (Return b, s')
    /\ match _active_browsers s !! browser_id with
       | None => b = false /\ s' = s
       | Some browser =>
           match cleanup browser with
           | Raise _ =>
               b = false /\ s' = with_errors (browser_errors s + 1) s
           | Return _ =>
               match ResourcePool._in_use (_browser_pool s)
                       !! Some browser_id with
               | None => b = false /\ s' = s
               | Some _ =>
                   b = true
                   /\ _active_browsers s'
                      = delete browser_id (_active_browsers s)
                   /\ active_browsers_gauge s' = active_browsers_gauge s - 1
                   /\ browser_errors s' = browser_errors s
                   /\ ResourcePool._in_use (_browser_pool s')
                      = delete (Some browser_id)
                          (ResourcePool._in_use (_browser_pool s))
                   /\ ResourcePool._semaphore (_browser_pool s')
                      = ResourcePool._semaphore (_browser_pool s) + 1
               end
           end
       end.
Proof. apply release_browser_cases. Qed.

(** X15. [get_browser] hands out a browser exactly when the time-out is
    positive and the pool has a permit: the browser is then active under
    [str(id(browser))], the gauge is one higher, and the pool has one
    permit less and records the browser under the key [None].  Otherwise
    the call raises [TimeoutError] and counts one error; the active map and
    the gauge are as before, and the pool has one permit more. *)
Theorem get_browser_outcome (now : Time) (browser_options : gmap string Q)
    (s : t) :
  let r := get_browser now browser_options s in
  if Qltb 0 (acquire_timeout s browser_options)
     && (0 <? ResourcePool._semaphore (_browser_pool s))
  then exists b,
      fst r = Return b
      /\ _active_browsers (snd r) = <[str_id b := b]> (_active_browsers s)
      /\ active_browsers_gauge (snd r) = active_browsers_gauge s + 1
      /\ browser_errors (snd r) = browser_errors s
      /\ ResourcePool._semaphore (_browser_pool (snd r))
         = ResourcePool._semaphore (_browser_pool s) - 1
      /\ ResourcePool._in_use (_browser_pool (snd r)) !! None
         = Some (ResourcePool.mkInUse b now now)
  else fst r = Raise (TimeoutError "Resource acquisition timeout")
       /\ _active_browsers (snd r) = _active_browsers s
       /\ active_browsers_gauge (snd r) = active_browsers_gauge s
       /\ browser_errors (snd r) = browser_errors s + 1
       /\ ResourcePool._semaphore (_browser_pool (snd r))
          = ResourcePool._semaphore (_browser_pool s) + 1.
Proof.
  intros r. subst r. rewrite get_browser_unfold.
  pose proof (acquire_decided now (acquire_timeout s browser_options) None
                (_browser_pool s)) as H.
  destruct (Qltb 0 (acquire_timeout s browser_options)
            && (0 <? ResourcePool._semaphore (_browser_pool s))).
  - destruct H as (b & p' & E & Hu & Hs). rewrite E. exists b. simpl.
    repeat split; auto. rewrite Hu. apply lookup_insert_eq.
  - rewrite H. simpl. repeat split; reflexivity.
Qed.

Lemma init_unkeyed (config : gmap string Q) : unkeyed (__init__ config).
Proof. intros k. reflexivity. Qed.

Lemma release_browser_unkeyed (now : Time)
    (cleanup : ResourcePool.Resource -> outcome unit) (browser_id : string)
    (s : t) :
  unkeyed s ->
  exists s',
    release_browser now cleanup browser_id s = (Return false, s')
    /\ (s' = s \/ s' = with_errors (browser_errors s + 1) s).
Proof.
  intros Hk.
  destruct (release_browser_cases now cleanup browser_id s)
    as (b & s' & E & H).
  rewrite E, (Hk browser_id) in *.
  destruct (_active_browsers s !! browser_id) as [browser|].
  - destruct (cleanup browser); destruct H as [-> ->]; eauto.
  - destruct H as [-> ->]. eauto.
Qed.

Lemma run_call_step (c : call) (s : t) :
  unkeyed s ->
  unkeyed (run_call c s)
  /\ active_browsers_gauge s <= active_browsers_gauge (run_call c s)
  /\ forall k, is_Some (_active_browsers s !! k) ->
               is_Some (_active_browsers (run_call c s) !! k).
Proof.
  intros Hk. destruct c as [now options|now cleanup browser_id]; simpl.
  - destruct (get_browser_cases now options s)
      as [(b & p' & E & Hu & _)|[E _]]; rewrite E; simpl.
    + split; [|split; [lia|]].
      * intros k. simpl. rewrite Hu, lookup_insert_ne by discriminate.
        apply Hk.
      * intros k Hin. destruct (decide (str_id b = k)) as [->|Hne].
        -- rewrite lookup_insert_eq. eauto.
        -- rewrite lookup_insert_ne by exact Hne. exact Hin.
    + split; [|split; [lia | auto]]. intros k. simpl. apply Hk.
  - destruct (release_browser_unkeyed now cleanup browser_id s Hk)
      as (s' & E & [->| ->]); rewrite E; simpl.
    + split; [exact Hk|]. split; [lia | auto].
    + split; [exact Hk|]. split; [lia | auto].
Qed.

Lemma run_calls_step (calls : list call) (s : t) :
  unkeyed s ->
  unkeyed (run_calls calls s)
  /\ active_browsers_gauge s <= active_browsers_gauge (run_calls calls s)
  /\ forall k, is_Some (_active_browsers s !! k) ->
               is_Some (_active_browsers (run_calls calls s) !! k).
Proof.
  unfold run_calls. revert s.
  induction calls as [|c rest IH]; intros s Hk; simpl.
  - split; [exact Hk|]. split; [lia | auto].
  - destruct (run_call_step c s Hk) as (Hk1 & Hg1 & Ha1).
    destruct (IH _ Hk1) as (Hk2 & Hg2 & Ha2).
    split; [exact Hk2|]. split; [lia | auto].
Qed.

(** X16. On a manager that was created by [__init__] and has served any
    sequence of [get_browser] and [release_browser] calls, no browser ever
    goes back to the pool: every [release_browser] answers false and
    leaves the active map, the gauge and the pool as they are; whatever
    calls follow, a browser id that is active stays active and the gauge
    never goes down. *)
Theorem browsers_are_never_returned (config : gmap string Q)
    (calls more : list call) :
  let s := run_calls calls (__init__ config) in
  (forall now cleanup browser_id,
      let r := release_browser now cleanup browser_id s in
      fst r = Return false
      /\ _active_browsers (snd r) = _active_browsers s
      /\ active_browsers_gauge (snd r) = active_browsers_gauge s
      /\ _browser_pool (snd r) = _browser_pool s)
  /\ (forall k, is_Some (_active_browsers s !! k) ->
                is_Some (_active_browsers (run_calls more s) !! k))
  /\ active_browsers_gauge s <= active_browsers_gauge (run_calls more s).
Proof.
  intros s.
  assert (Hk : unkeyed s)
    by (apply run_calls_step, init_unkeyed).
  split.
  - intros now cleanup browser_id r. subst r.
    destruct (release_browser_unkeyed now cleanup browser_id s Hk)
      as (s' & E & [->| ->]); rewrite E; simpl; auto.
  - destruct (run_calls_step more s Hk) as (_ & Hg & Ha). auto.
Qed.

Lemma browsers_are_never_returned_witness :
  let calls := [GetBrowser 0%Q ∅] in
  let more := [ReleaseBrowser 1%Q (fun _ => Return tt) (str_id 0);
               GetBrowser 2%Q ∅] in
  let s := run_calls calls (__init__ ∅) in
  is_Some (_active_browsers s !! str_id 0)
  /\ fst (release_browser 1%Q (fun _ => Return tt) (str_id 0) s)
     = Return false
  /\ is_Some (_active_browsers (run_calls more s) !! str_id 0)
  /\ active_browsers_gauge s <= active_browsers_gauge (run_calls more s).
Proof.
  intros calls more s.
  assert (Ha : is_Some (_active_browsers s !! str_id 0))
    by (vm_compute; eauto).
  destruct (browsers_are_never_returned ∅ calls more) as (Hr & Hk & Hg).
  split; [exact Ha|].
  split; [exact (proj1 (Hr 1%Q (fun _ => Return tt) (str_id 0)))|].
  split; [exact (Hk (str_id 0) Ha) | exact Hg].
Defined.

End BrowserManagerFacts.

(** ** scraper/scheduler.py *)

Section SchedulerSchedule.

Import TaskScheduler SchedulerFacts.

Lemma with_lock_fields (task_id : string) (s : t) :
  _task_locks (with_lock task_id s) = {[task_id]} ∪ _task_locks s
  /\ _active_tasks (with_lock task_id s) = _active_tasks s
  /\ _scheduler (with_lock task_id s) = _scheduler s
  /\ _circuit_breaker (with_lock task_id s) = _circuit_breaker s
  /\ _browser_manager (with_lock task_id s) = _browser_manager s.
Proof.
  unfold with_lock. destruct (bool_decide (task_id ∈ _task_locks s)) eqn:E.
  - apply bool_decide_eq_true in E. split; [|repeat split].
    apply set_eq. intros x. rewrite elem_of_union, elem_of_singleton.
    split; [auto | intros [->|H]; auto].
  - repeat split.
Qed.

Lemma with_lock_idem (task_id : string) (s : t) :
  with_lock task_id (with_lock task_id s) = with_lock task_id s.
Proof.
  unfold with_lock at 1.
  rewrite bool_decide_eq_true_2; [reflexivity|].
  rewrite (proj1 (with_lock_fields task_id s)).
  apply elem_of_union_l, elem_of_singleton. reflexivity.
Qed.

(** One attempt of [schedule_task] on a task id that is not active, with
    a valid configuration and a breaker that is not open. *)
Lemma schedule_task_attempt_fresh (now : Time) (failure : option exn)
    (task_id : string) (task_config : Config) (priority : option Z) (s : t) :
  invalid_config task_config = false ->
  CircuitBreaker.current_state now (_circuit_breaker s)
  <> CircuitBreaker.Open ->
  _active_tasks s !! task_id = None ->
  schedule_task_attempt now failure task_id task_config priority s
  = match failure with
    | Some e => (Raise e, with_lock task_id s)
    | None =>
        (Return true,
         with_active_tasks
           (<[task_id := scheduled now task_id task_config priority]>
              (_active_tasks s))
           (with_scheduler
              (<[task_id := mkJob task_id task_config priority now]>
                 (_scheduler s))
              (with_lock task_id s)))
    end.
Proof.
  intros Hc Ho Ha.
  unfold schedule_task_attempt, try_except. rewrite Hc.
  unfold bind at 1, get. rewrite bool_decide_eq_false_2 by exact Ho.
  unfold with_lock, scheduled.
  destruct (bool_decide (task_id ∈ _task_locks s)) eqn:Hl;
    unfold bind, get, modify, ret, add_job, raise; cbn; rewrite Ha;
    destruct failure; reflexivity.
Qed.

(** One attempt of [schedule_task] on a task id that is active. *)
Lemma schedule_task_attempt_known (now : Time) (failure : option exn)
    (task_id : string) (task_config : Config) (priority : option Z) (s : t) :
  invalid_config task_config = false ->
  is_Some (_active_tasks s !! task_id) ->
  schedule_task_attempt now failure task_id task_config priority s
  = (Return false,
     if bool_decide (CircuitBreaker.current_state now (_circuit_breaker s)
                     = CircuitBreaker.Open)
     then s else with_lock task_id s).
Proof.
  intros Hc [d Hd].
  unfold schedule_task_attempt, try_except. rewrite Hc.
  unfold bind at 1, get.
  destruct (bool_decide (CircuitBreaker.current_state now (_circuit_breaker s)
                         = CircuitBreaker.Open)); [reflexivity|].
  unfold with_lock.
  destruct (bool_decide (task_id ∈ _task_locks s)) eqn:Hl;
    unfold bind, get, modify, ret; cbn; rewrite Hd; reflexivity.
Qed.

(** X17. A task with a valid configuration and an id that is not active
    is accepted when the breaker is not open and the job store takes the
    job: [schedule_task] answers true on its first attempt, stores the job
    under the task id and an entry in state "scheduled" that carries the
    job and the configuration, and makes sure the task has a lock; the
    other tasks, the breaker and the browser manager are untouched.  From
    then on the id is taken: scheduling it again answers false and changes
    nothing. *)
Theorem schedule_task_accepts (clock : nat -> Time) (task_id : string)
    (task_config : Config) (priority : option Z) (s : t) :
  invalid_config task_config = false ->
  CircuitBreaker.current_state (clock 0%nat) (_circuit_breaker s)
  <> CircuitBreaker.Open ->
  _active_tasks s !! task_id = None ->
  exists s' d,
    schedule_task clock None task_id task_config priority s
    = (Return true, s')
    /\ _active_tasks s' = <[task_id := d]> (_active_tasks s)
    /\ _scheduler s' = <[task_id := job d]> (_scheduler s)
    /\ _task_locks s' = {[task_id]} ∪ _task_locks s
    /\ _circuit_breaker s' = _circuit_breaker s
    /\ _browser_manager s' = _browser_manager s
    /\ config d = task_config
    /\ status d = "scheduled"
    /\ scheduled_at d = next_run_time (job d)
    /\ job_id (job d) = task_id
    /\ job_kwargs (job d) = task_config
    /\ job_priority (job d) = priority
    /\ forall clock2 failure2 config2 priority2,
         invalid_config config2 = false ->
         schedule_task clock2 failure2 task_id config2 priority2 s'
         = (Return false, s').
Proof.
  intros Hc Ho Ha.
  destruct (with_lock_fields task_id s) as (Hl & Hact & Hsch & Hcb & Hbm).
  eexists _, (scheduled (clock 0%nat) task_id task_config priority).
  split.
  { unfold schedule_task. apply tenacity_retry_return.
    rewrite (schedule_task_attempt_fresh _ None _ _ _ _ Hc Ho Ha).
    reflexivity. }
  simpl. repeat (split; [first [reflexivity | assumption]|]).
  intros clock2 failure2 config2 priority2 Hc2.
  unfold schedule_task. apply tenacity_retry_return.
  rewrite schedule_task_attempt_known;
    [|exact Hc2 | simpl; rewrite lookup_insert_eq; eauto].
  destruct (bool_decide _); [reflexivity|].
  unfold with_lock at 1. simpl.
  rewrite bool_decide_eq_true_2; [reflexivity|].
  rewrite Hl. apply elem_of_union_l, elem_of_singleton. reflexivity.
Qed.

Lemma schedule_task_accepts_witness :
  let clock := fun k : nat => inject_Z (Z.of_nat k) in
  let cfg := Some ({[ "url" := "http://example.com" ]} : gmap string string) in
  let s := TaskScheduler.__init__ (BrowserManager.__init__ ∅) in
  invalid_config cfg = false
  /\ CircuitBreaker.current_state (clock 0%nat) (_circuit_breaker s)
     <> CircuitBreaker.Open
  /\ _active_tasks s !! "t1" = None
  /\ exists s' d,
      schedule_task clock None "t1" cfg (Some 3) s = (Return true, s')
      /\ _active_tasks s' = <[ "t1" := d]> (_active_tasks s)
      /\ status d = "scheduled"
      /\ schedule_task clock None "t1" cfg None s' = (Return false, s').
Proof.
  intros clock cfg s.
  assert (Hc : invalid_config cfg = false) by (vm_compute; reflexivity).
  assert (Ho : CircuitBreaker.current_state (clock 0%nat) (_circuit_breaker s)
               <> CircuitBreaker.Open) by (vm_compute; discriminate).
  assert (Ha : _active_tasks s !! "t1" = None) by (vm_compute; reflexivity).
  split; [exact Hc|]. split; [exact Ho|]. split; [exact Ha|].
  destruct (schedule_task_accepts clock "t1" cfg (Some 3) s Hc Ho Ha)
    as (s' & d & E & Hact & _ & _ & _ & _ & _ & Hst & _ & _ & _ & _ & Hagain).
  exists s', d. split; [exact E|]. split; [exact Hact|].
  split; [exact Hst|]. apply Hagain. exact Hc.
Defined.

(** The attempts of [schedule_task] when the job store refuses the job. *)
Lemma schedule_task_refused (clock : nat -> Time) (e : exn)
    (task_id : string) (task_config : Config) (priority : option Z) (s : t) :
  invalid_config task_config = false ->
  (forall k, CircuitBreaker.current_state (clock k) (_circuit_breaker s)
             <> CircuitBreaker.Open) ->
  _active_tasks s !! task_id = None ->
  schedule_task clock (Some e) task_id task_config priority s
  = (Raise (RetryError e), with_lock task_id s).
Proof.
  intros Hc Ho Ha.
  destruct (with_lock_fields task_id s) as (Hl & Hact & Hsch & Hcb & Hbm).
  assert (Hstep : forall k,
             schedule_task_attempt (clock k) (Some e) task_id task_config
               priority (with_lock task_id s)
             = (Raise e, with_lock task_id s)).
  { intros k. rewrite schedule_task_attempt_fresh;
      [rewrite with_lock_idem; reflexivity | exact Hc | | ].
    - rewrite Hcb. apply Ho.
    - rewrite Hact. exact Ha. }
  unfold schedule_task. cbn [tenacity_retry].
  rewrite (schedule_task_attempt_fresh _ (Some e) _ _ _ _ Hc (Ho 0%nat) Ha).
  rewrite !Hstep. reflexivity.
Qed.

(** X18. When the job store refuses the job of a task that would
    otherwise be accepted, [schedule_task] raises after its three attempts,
    the exception of the job store wrapped in a [RetryError].  No task and
    no job are stored and the breaker is not told of the failure; what
    stays behind is the lock created for the task id. *)
Theorem schedule_task_job_store_failure (clock : nat -> Time) (e : exn)
    (task_id : string) (task_config : Config) (priority : option Z) (s : t) :
  invalid_config task_config = false ->
  (forall k, CircuitBreaker.current_state (clock k) (_circuit_breaker s)
             <> CircuitBreaker.Open) ->
  _active_tasks s !! task_id = None ->
  exists s',
    schedule_task clock (Some e) task_id task_config priority s
    = (Raise (RetryError e), s')
    /\ _active_tasks s' = _active_tasks s
    /\ _scheduler s' = _scheduler s
    /\ _circuit_breaker s' = _circuit_breaker s
    /\ _browser_manager s' = _browser_manager s
    /\ _task_locks s' = {[task_id]} ∪ _task_locks s.
Proof.
  intros Hc Ho Ha. exists (with_lock task_id s).
  split; [apply schedule_task_refused; assumption|].
  destruct (with_lock_fields task_id s) as (Hl & Hact & Hsch & Hcb & Hbm).
  auto 10.
Qed.

Lemma schedule_task_job_store_failure_witness :
  let clock := fun k : nat => inject_Z (Z.of_nat k) in
  let cfg := Some ({[ "url" := "http://example.com" ]} : gmap string string) in
  let s := TaskScheduler.__init__ (BrowserManager.__init__ ∅) in
  invalid_config cfg = false
  /\ (forall k, CircuitBreaker.current_state (clock k) (_circuit_breaker s)
                <> CircuitBreaker.Open)
  /\ _active_tasks s !! "t1" = None
  /\ exists s',
      schedule_task clock (Some ConnectionError) "t1" cfg None s
      = (Raise (RetryError ConnectionError), s')
      /\ _active_tasks s' = _active_tasks s
      /\ _scheduler s' = _scheduler s
      /\ _circuit_breaker s' = _circuit_breaker s
      /\ _browser_manager s' = _browser_manager s
      /\ _task_locks s' = {[ "t1" ]} ∪ _task_locks s.
Proof.
  intros clock cfg s.
  assert (Hc : invalid_config cfg = false) by (vm_compute; reflexivity).
  assert (Ho : forall k,
             CircuitBreaker.current_state (clock k) (_circuit_breaker s)
             <> CircuitBreaker.Open) by (intros k; discriminate).
  assert (Ha : _active_tasks s !! "t1" = None) by (vm_compute; reflexivity).
  split; [exact Hc|]. split; [exact Ho|]. split; [exact Ha|].
  exact (schedule_task_job_store_failure clock ConnectionError "t1" cfg None
           s Hc Ho Ha).
Defined.

End SchedulerSchedule.

Section SchedulerExecute.

Import TaskScheduler SchedulerFacts.

(** The [try] block of [execute_task] on a task id that is not active. *)
Lemma execute_task_try_missing (start finish : Time) (task_id : string)
    (s : t) :
  _active_tasks s !! task_id = None ->
  exists e,
    execute_task_try start finish task_id (s, None) = (Raise e, (s, None)).
Proof.
  intros Ha. unfold execute_task_try. unfold bind at 1, get. cbn [fst].
  destruct (bool_decide (CircuitBreaker.current_state start
                           (_circuit_breaker s) = CircuitBreaker.Open));
    [eexists; reflexivity|].
  destruct (bool_decide (task_id ∈ _task_locks s)); cbn [negb];
    [|eexists; reflexivity].
  rewrite Ha. eexists; reflexivity.
Qed.

(** One attempt of [execute_task] on a task id that is not active: it
    raises, and the handler counts a failure on the breaker. *)
Lemma execute_task_attempt_missing (start finish : Time)
    (cleanup : ResourcePool.Resource -> outcome unit) (task_id : string)
    (s : t) :
  _active_tasks s !! task_id = None ->
  exists e,
    execute_task_attempt start finish cleanup task_id s
    = (Raise e,
       with_circuit_breaker
         (CircuitBreaker.record_failure finish (_circuit_breaker s)) s).
Proof.
  intros Ha.
  destruct (execute_task_try_missing start finish task_id s Ha) as [e E].
  exists e. unfold execute_task_attempt, try_finally, try_except.
  rewrite E. reflexivity.
Qed.

(** X19. Executing a task id that is not active fails on each of the
    three attempts of the retry decorator: the call raises a [RetryError],
    no browser is asked for, the tasks, jobs and locks are as before, and
    the global breaker has three more failures on its account, one per
    attempt. *)
Theorem execute_task_without_task (clock : nat -> Time * Time)
    (cleanup : ResourcePool.Resource -> outcome unit) (task_id : string)
    (s : t) :
  _active_tasks s !! task_id = None ->
  exists e s',
    execute_task clock cleanup task_id s = (Raise (RetryError e), s')
    /\ _circuit_breaker s'
       = CircuitBreaker.record_failure (snd (clock 2%nat))
           (CircuitBreaker.record_failure (snd (clock 1%nat))
              (CircuitBreaker.record_failure (snd (clock 0%nat))
                 (_circuit_breaker s)))
    /\ _active_tasks s' = _active_tasks s
    /\ _scheduler s' = _scheduler s
    /\ _task_locks s' = _task_locks s
    /\ _browser_manager s' = _browser_manager s.
Proof.
  intros Ha. unfold execute_task. cbn [tenacity_retry].
  destruct (execute_task_attempt_missing (fst (clock 0%nat))
              (snd (clock 0%nat)) cleanup task_id s Ha) as [e0 E0].
  rewrite E0. set (s1 := with_circuit_breaker _ s).
  destruct (execute_task_attempt_missing (fst (clock 1%nat))
              (snd (clock 1%nat)) cleanup task_id s1 Ha) as [e1 E1].
  rewrite E1. set (s2 := with_circuit_breaker _ s1).
  destruct (execute_task_attempt_missing (fst (clock 2%nat))
              (snd (clock 2%nat)) cleanup task_id s2 Ha) as [e2 E2].
  rewrite E2. eexists _, _. split; [reflexivity|]. simpl. auto 10.
Qed.

Lemma execute_task_without_task_witness :
  let clock := fun k : nat =>
    (inject_Z (Z.of_nat k), inject_Z (Z.of_nat k) + 1)%Q in
  let s := TaskScheduler.__init__ (BrowserManager.__init__ ∅) in
  _active_tasks s !! "ghost" = None
  /\ exists e s',
      execute_task clock (fun _ => Return tt) "ghost" s
      = (Raise (RetryError e), s')
      /\ CircuitBreaker.failure_count (_circuit_breaker s') = 3
      /\ _browser_manager s' = _browser_manager s.
Proof.
  intros clock s.
  assert (Ha : _active_tasks s !! "ghost" = None) by (vm_compute; reflexivity).
  split; [exact Ha|].
  destruct (execute_task_without_task clock (fun _ => Return tt) "ghost" s Ha)
    as (e & s' & E & Hcb & _ & _ & _ & Hbm).
  exists e, s'. split; [exact E|]. split; [|exact Hbm].
  rewrite Hcb. vm_compute. reflexivity.
Defined.

(** The [try] block of [execute_task] on an active task, once the browser
    is acquired. *)
Lemma execute_task_try_completes (start finish : Time) (task_id : string)
    (s : t) (d : TaskData) (b : ResourcePool.Resource)
    (bm' : BrowserManager.t) :
  CircuitBreaker.current_state start (_circuit_breaker s)
  <> CircuitBreaker.Open ->
  task_id ∈ _task_locks s ->
  _active_tasks s !! task_id = Some d ->
  BrowserManager.get_browser start browser_context_options
    (_browser_manager s) = (Return b, bm') ->
  execute_task_try start finish task_id (s, None)
  = (Return (mkResult "completed" ∅),
     (with_active_tasks
        (alter (set_status_completed start finish) task_id
           (alter (set_status_running start) task_id (_active_tasks s)))
        (with_browser_manager bm' s),
      Some b)).
Proof.
  intros Ho Hl Ha Hg. unfold execute_task_try. unfold bind at 1, get.
  cbn [fst]. rewrite bool_decide_eq_false_2 by exact Ho.
  rewrite bool_decide_eq_true_2 by exact Hl. cbn [negb]. rewrite Ha.
  unfold bind, on_self, on_browser_manager, zoom, modify, ret.
  cbn [fst snd _browser_manager with_active_tasks]. rewrite Hg.
  reflexivity.
Qed.

(** One attempt of [execute_task] on an active task whose browser is
    acquired. *)
Lemma execute_task_attempt_completes (start finish : Time)
    (cleanup : ResourcePool.Resource -> outcome unit) (task_id : string)
    (s : t) (d : TaskData) (b : ResourcePool.Resource)
    (bm' : BrowserManager.t) :
  CircuitBreaker.current_state start (_circuit_breaker s)
  <> CircuitBreaker.Open ->
  task_id ∈ _task_locks s ->
  _active_tasks s !! task_id = Some d ->
  BrowserManager.get_browser start browser_context_options
    (_browser_manager s) = (Return b, bm') ->
  execute_task_attempt start finish cleanup task_id s
  = (Return (mkResult "completed" ∅),
     with_browser_manager
       (snd (BrowserManager.release_browser finish cleanup (str_id b) bm'))
       (with_active_tasks
          (alter (set_status_completed start finish) task_id
             (alter (set_status_running start) task_id (_active_tasks s)))
          s)).
Proof.
  intros Ho Hl Ha Hg.
  unfold execute_task_attempt, try_finally, try_except.
  rewrite (execute_task_try_completes start finish task_id s d b bm'
             Ho Hl Ha Hg).
  unfold execute_task_finally. unfold bind at 1, get. cbn [snd].
  unfold bind, on_self, on_browser_manager, zoom, ret.
  cbn [fst snd _browser_manager with_active_tasks with_browser_manager].
  destruct (release_browser_cases finish cleanup (str_id b) bm')
    as (ok & bm2 & E & _).
  rewrite E. reflexivity.
Qed.

(** X20. An active task whose lock exists is executed on the first
    attempt when the breaker is not open and the pool has a browser to
    give: [execute_task] returns the result "completed", whatever the
    clean-up of the browser does; the entry of the task is in state
    "completed" with its start time, its end time and their difference as
    duration; the other tasks, the jobs, the locks and the breaker are as
    before.  The completed task keeps its id taken: scheduling the id again
    answers false. *)
Theorem execute_task_completes (clock : nat -> Time * Time)
    (cleanup : ResourcePool.Resource -> outcome unit) (task_id : string)
    (s : t) (d : TaskData) :
  CircuitBreaker.current_state (fst (clock 0%nat)) (_circuit_breaker s)
  <> CircuitBreaker.Open ->
  task_id ∈ _task_locks s ->
  _active_tasks s !! task_id = Some d ->
  Qltb 0 (BrowserFacts.acquire_timeout (_browser_manager s)
            browser_context_options)
  && (0 <? ResourcePool._semaphore
             (BrowserManager._browser_pool (_browser_manager s))) = true ->
  exists s',
    execute_task clock cleanup task_id s
    = (Return (mkResult "completed" ∅), s')
    /\ _active_tasks s' !! task_id
       = Some (mkTaskData (job d) (config d) "completed" (scheduled_at d)
                 (Some (fst (clock 0%nat))) (Some (snd (clock 0%nat)))
                 (Some (snd (clock 0%nat) - fst (clock 0%nat))%Q))
    /\ (forall other, other <> task_id ->
          _active_tasks s' !! other = _active_tasks s !! other)
    /\ _scheduler s' = _scheduler s
    /\ _task_locks s' = _task_locks s
    /\ _circuit_breaker s' = _circuit_breaker s
    /\ forall clock2 failure2 config2 priority2,
         invalid_config config2 = false ->
         fst (schedule_task clock2 failure2 task_id config2 priority2 s')
         = Return false.
Proof.
  intros Ho Hl Ha Hw.
  set (start := fst (clock 0%nat)). set (finish := snd (clock 0%nat)).
  pose proof (acquire_decided start
                (BrowserFacts.acquire_timeout (_browser_manager s)
                   browser_context_options) None
                (BrowserManager._browser_pool (_browser_manager s))) as Hacq.
  rewrite Hw in Hacq. destruct Hacq as (b & p' & Eacq & _).
  pose proof (get_browser_unfold start browser_context_options
                (_browser_manager s)) as Hg.
  rewrite Eacq in Hg.
  eexists. split.
  { unfold execute_task. apply tenacity_retry_return.
    exact (execute_task_attempt_completes start finish cleanup task_id s d b
             _ Ho Hl Ha Hg). }
  cbn [_active_tasks _scheduler _task_locks _circuit_breaker
       with_browser_manager with_active_tasks].
  assert (Hdone :
            alter (set_status_completed start finish) task_id
              (alter (set_status_running start) task_id (_active_tasks s))
            !! task_id
            = Some (mkTaskData (job d) (config d) "completed" (scheduled_at d)
                      (Some start) (Some finish) (Some (finish - start)%Q))).
  { rewrite !lookup_alter_eq, Ha. reflexivity. }
  split; [exact Hdone|].
  split; [intros other Hne; rewrite !lookup_alter_ne by congruence;
          reflexivity|].
  repeat (split; [reflexivity|]).
  intros clock2 failure2 config2 priority2 Hc2.
  unfold schedule_task.
  erewrite tenacity_retry_return; [reflexivity|].
  apply schedule_task_attempt_known; [exact Hc2|].
  cbn [_active_tasks with_browser_manager with_active_tasks].
  rewrite Hdone. eauto.
Qed.

Lemma execute_task_completes_witness :
  let clock := fun k : nat =>
    (inject_Z (Z.of_nat k), inject_Z (Z.of_nat k) + 2)%Q in
  let cfg := Some ({[ "url" := "http://example.com" ]} : gmap string string) in
  let s := snd (schedule_task (fun k => inject_Z (Z.of_nat k)) None "t1" cfg
                  None (TaskScheduler.__init__ (BrowserManager.__init__ ∅))) in
  let d := SchedulerFacts.scheduled 0%Q "t1" cfg None in
  CircuitBreaker.current_state (fst (clock 0%nat)) (_circuit_breaker s)
  <> CircuitBreaker.Open
  /\ "t1" ∈ _task_locks s
  /\ _active_tasks s !! "t1" = Some d
  /\ Qltb 0 (BrowserFacts.acquire_timeout (_browser_manager s)
               browser_context_options)
     && (0 <? ResourcePool._semaphore
                (BrowserManager._browser_pool (_browser_manager s))) = true
  /\ exists s',
      execute_task clock (fun _ => Raise ConnectionError) "t1" s
      = (Return (mkResult "completed" ∅), s')
      /\ _active_tasks s' !! "t1"
         = Some (mkTaskData (job d) (config d) "completed" (scheduled_at d)
                   (Some (fst (clock 0%nat))) (Some (snd (clock 0%nat)))
                   (Some (snd (clock 0%nat) - fst (clock 0%nat))%Q))
      /\ fst (schedule_task (fun k => inject_Z (Z.of_nat k)) None "t1" cfg
                None s') = Return false.
Proof.
  intros clock cfg s d.
  assert (Ho : CircuitBreaker.current_state (fst (clock 0%nat))
                 (_circuit_breaker s) <> CircuitBreaker.Open)
    by (vm_compute; discriminate).
  assert (Hl : "t1" ∈ _task_locks s).
  { apply elem_of_union_l, elem_of_singleton. reflexivity. }
  assert (Ha : _active_tasks s !! "t1" = Some d) by (vm_compute; reflexivity).
  assert (Hw : Qltb 0 (BrowserFacts.acquire_timeout (_browser_manager s)
                         browser_context_options)
               && (0 <? ResourcePool._semaphore
                          (BrowserManager._browser_pool (_browser_manager s)))
               = true) by (vm_compute; reflexivity).
  split; [exact Ho|]. split; [exact Hl|]. split; [exact Ha|].
  split; [exact Hw|].
  destruct (execute_task_completes clock (fun _ => Raise ConnectionError)
              "t1" s d Ho Hl Ha Hw)
    as (s' & E & Hd & _ & _ & _ & _ & Hagain).
  exists s'. split; [exact E|]. split; [exact Hd|].
  apply Hagain. vm_compute. reflexivity.
Defined.

End SchedulerExecute.

(** ** services/proxy.py: rotation and the shape of the registry *)

Section Rotation.

Import ProxyService RotationFacts.

Lemma dict_get_pop {V} (k k' : string) (d : Dict.t V) :
  Dict.get k (Dict.pop k' d)
  = if bool_decide (k' = k) then None else Dict.get k d.
Proof.
  induction d as [|[k0 v0] rest IH]; simpl.
  - destruct (bool_decide (k' = k)); reflexivity.
  - destruct (bool_decide (k0 = k')) eqn:E0.
    + apply bool_decide_eq_true in E0. subst k0. rewrite IH.
      destruct (bool_decide (k' = k)); reflexivity.
    + simpl. apply bool_decide_eq_false in E0.
      destruct (bool_decide (k0 = k)) eqn:E1.
      * apply bool_decide_eq_true in E1. subst k0.
        rewrite bool_decide_eq_false_2 by congruence. reflexivity.
      * exact IH.
Qed.

Lemma dict_get_elem {V} (k : string) (v : V) (d : Dict.t V) :
  Dict.get k d = Some v -> (k, v) ∈ d.
Proof.
  induction d as [|[k0 v0] rest IH]; simpl; [discriminate|].
  destruct (bool_decide (k0 = k)) eqn:E.
  - apply bool_decide_eq_true in E. subst k0. intros [= ->]. left.
  - intros H. right. apply IH, H.
Qed.

Lemma dict_elem_get {V} (k : string) (v : V) (d : Dict.t V) :
  NoDup (Dict.keys d) -> (k, v) ∈ d -> Dict.get k d = Some v.
Proof.
  unfold Dict.keys. induction d as [|[k0 v0] rest IH]; simpl; intros Hnd Hin.
  - inversion Hin.
  - apply NoDup_cons in Hnd as [Hout Hnd].
    apply elem_of_cons in Hin as [[= -> ->]|Hin].
    + rewrite bool_decide_eq_true_2; reflexivity.
    + rewrite bool_decide_eq_false_2; [apply IH; assumption|].
      intros ->. apply Hout. apply list_elem_of_fmap. exists (k, v). auto.
Qed.

(** With its label on the gauge, a proxy is removed without an error. *)
Lemma remove_proxy_labelled (url : string) (s : t) :
  is_Some (proxy_health s !! url) ->
  _remove_proxy url s
  = (Return tt,
     with_health (delete url (proxy_health s))
       (with_breakers (Dict.pop url (_circuit_breakers s))
          (with_metrics (Dict.pop url (_proxy_metrics s)) s))).
Proof.
  intros [h Hh]. unfold _remove_proxy, bind, modify, get. cbn.
  rewrite Hh. reflexivity.
Qed.

(** The removal loop of a rotation drops the proxies below the threshold
    and nothing else. *)
Lemma remove_underperforming_spec (items : list (string * ProxyMetrics))
    (s : t) :
  NoDup (Dict.keys items) ->
  (forall url m, (url, m) ∈ items -> underperforming m = true ->
                 is_Some (proxy_health s !! url)) ->
  exists s',
    remove_underperforming items s = (Return tt, s')
    /\ _pool_size s' = _pool_size s
    /\ forall k,
         Dict.get k (_proxy_metrics s')
         = if bool_decide
                (k ∈ (filter (fun e : string * ProxyMetrics =>
                                underperforming (snd e) = true) items).*1)
           then None else Dict.get k (_proxy_metrics s).
Proof.
  unfold Dict.keys. revert s.
  induction items as [|[u m] rest IH]; intros s Hnd Hlab.
  - exists s. split; [reflexivity|]. split; [reflexivity|]. intros k.
    rewrite bool_decide_eq_false_2; [reflexivity | apply not_elem_of_nil].
  - simpl in Hnd. apply NoDup_cons in Hnd as [Hout Hnd].
    cbn [remove_underperforming]. fold (underperforming m).
    rewrite filter_cons. cbn [snd].
    destruct (underperforming m) eqn:Hm.
    + unfold bind at 1.
      rewrite remove_proxy_labelled
        by (apply (Hlab u m); [left | exact Hm]).
      set (s1 := with_health _ _).
      destruct (IH s1 Hnd) as (s' & E & Hps & Hget).
      { intros url m' Hin Hlow. subst s1. cbn [proxy_health with_health].
        rewrite lookup_delete_ne.
        - apply (Hlab url m'); [right; exact Hin | exact Hlow].
        - intros ->. apply Hout. apply list_elem_of_fmap.
          exists (url, m'). auto. }
      unfold bind. rewrite E. exists s'. split; [reflexivity|].
      split; [exact Hps|]. intros k. rewrite Hget.
      rewrite decide_True by reflexivity. cbn [fmap list_fmap fst].
      subst s1. cbn [_proxy_metrics with_health with_breakers with_metrics].
      rewrite dict_get_pop.
      destruct (bool_decide (u = k)) eqn:Ek.
      * apply bool_decide_eq_true in Ek. subst k.
        rewrite (bool_decide_eq_true_2 (u ∈ u :: _)) by left.
        destruct (bool_decide _); reflexivity.
      * apply bool_decide_eq_false in Ek.
        destruct (bool_decide (k ∈ _)) eqn:Er at 1.
        -- apply bool_decide_eq_true in Er.
           rewrite bool_decide_eq_true_2 by (right; exact Er). reflexivity.
        -- apply bool_decide_eq_false in Er.
           rewrite bool_decide_eq_false_2; [reflexivity|].
           intros Hin. apply elem_of_cons in Hin as [->|Hin]; auto.
    + rewrite decide_False by discriminate.
      unfold bind at 1, ret.
      destruct (IH s Hnd) as (s' & E & Hps & Hget).
      { intros url m' Hin Hlow.
        apply (Hlab url m'); [right; exact Hin | exact Hlow]. }
      exists s'. split; [exact E|]. split; [exact Hps | exact Hget].
Qed.

Lemma threshold_le_new :
  (PROXY_SUCCESS_THRESHOLD <= health_score ProxyMetrics_new)%Q.
Proof. apply Qle_bool_iff. reflexivity. Qed.

(** Adding proxies keeps a registry of healthy proxies healthy and drops
    none of its proxies. *)
Lemma add_all_healthy (new_proxies : list (string * bool)) (s : t) :
  all_healthy s ->
  exists s',
    add_all new_proxies s = (Return tt, s')
    /\ all_healthy s'
    /\ forall k, is_Some (Dict.get k (_proxy_metrics s)) ->
                 is_Some (Dict.get k (_proxy_metrics s')).
Proof.
  revert s. induction new_proxies as [|[u v] rest IH]; intros s Hs.
  - exists s. split; [reflexivity|]. auto.
  - cbn [add_all]. unfold _add_proxy. destruct v; cbn [negb].
    + unfold bind at 1. unfold bind at 1, modify.
      set (s1 := with_breakers _ _).
      destruct (IH s1) as (s' & E & Hh & Hk).
      { intros k m. subst s1. cbn [_proxy_metrics with_breakers with_metrics].
        destruct (decide (u = k)) as [->|Hne].
        - rewrite dict_get_set_eq. intros [= <-]. apply threshold_le_new.
        - rewrite dict_get_set_ne by exact Hne. apply Hs. }
      rewrite E. exists s'. split; [reflexivity|]. split; [exact Hh|].
      intros k Hin. apply Hk. subst s1.
      cbn [_proxy_metrics with_breakers with_metrics].
      destruct (decide (u = k)) as [->|Hne].
      * rewrite dict_get_set_eq. eauto.
      * rewrite dict_get_set_ne by exact Hne. exact Hin.
    + unfold bind at 1, ret. apply IH, Hs.
Qed.

(** X21. A rotation never raises.  When the tracked proxies are distinct
    and the gauge has a label for each proxy below the success threshold,
    the rotation leaves only proxies whose health score reaches the
    threshold: those below it are removed, those that reach it are still
    tracked, and the proxies handed back by the upstream source come in
    with the health score 1. *)
Theorem rotation_leaves_only_healthy
    (fetched : Z -> outcome (list (string * bool))) (s : t) :
  NoDup (Dict.keys (_proxy_metrics s)) ->
  labelled s ->
  exists s',
    _rotate_proxies fetched s = (Return tt, s')
    /\ all_healthy s'
    /\ forall url m,
         Dict.get url (_proxy_metrics s) = Some m ->
         (PROXY_SUCCESS_THRESHOLD <= health_score m)%Q ->
         is_Some (Dict.get url (_proxy_metrics s')).
Proof.
  intros Hnd Hlab.
  destruct (remove_underperforming_spec (_proxy_metrics s) s Hnd Hlab)
    as (s1 & E1 & Hps & Hget).
  assert (H1 : all_healthy s1).
  { intros k m Hk. rewrite Hget in Hk.
    destruct (bool_decide (k ∈ _)) eqn:Ek; [discriminate|].
    apply bool_decide_eq_false in Ek. apply Qltb_false.
    destruct (Qltb (health_score m) PROXY_SUCCESS_THRESHOLD) eqn:Hlow;
      [|reflexivity].
    exfalso. apply Ek. apply list_elem_of_fmap. exists (k, m).
    split; [reflexivity|]. apply list_elem_of_filter.
    split; [exact Hlow | apply dict_get_elem, Hk]. }
  assert (Hkept : forall url m,
             Dict.get url (_proxy_metrics s) = Some m ->
             (PROXY_SUCCESS_THRESHOLD <= health_score m)%Q ->
             is_Some (Dict.get url (_proxy_metrics s1))).
  { intros url m Hm Hok. rewrite Hget, bool_decide_eq_false_2, Hm; [eauto|].
    intros Hin. apply list_elem_of_fmap in Hin as ([u m'] & -> & Hin).
    apply list_elem_of_filter in Hin as [Hlow Hin]. cbn [fst snd] in *.
    apply (dict_elem_get _ _ _ Hnd) in Hin. rewrite Hm in Hin.
    injection Hin as <-. apply Qltb_true in Hlow.
    exact (Qlt_not_le _ _ Hlow Hok). }
  unfold _rotate_proxies, try_except. unfold bind at 1, get.
  unfold bind at 1. rewrite E1. unfold bind at 1, get.
  destruct (Dict.len (_proxy_metrics s1) <? _pool_size s1).
  - unfold bind at 1.
    destruct (fetched (_pool_size s1 - Dict.len (_proxy_metrics s1)))
      as [l|e].
    + destruct (add_all_healthy l s1 H1) as (s' & E & Hh & Hk).
      rewrite E. exists s'. split; [reflexivity|]. split; [exact Hh|].
      intros url m Hm Hok. apply Hk. exact (Hkept url m Hm Hok).
    + exists s1. split; [reflexivity|]. split; [exact H1 | exact Hkept].
  - exists s1. split; [reflexivity|]. split; [exact H1 | exact Hkept].
Qed.

Lemma rotation_leaves_only_healthy_witness :
  let s0 := snd (add_all [("http://a:1", true); ("http://b:1", true)]
                   (__init__ 3)) in
  let s := snd (_record_failure "http://b:1" s0) in
  let fetched := fun n : Z =>
    Return (if n =? 2 then [("http://c:1", true); ("http://d:1", false)]
            else []) in
  NoDup (Dict.keys (_proxy_metrics s))
  /\ labelled s
  /\ Dict.keys (_proxy_metrics s) = ["http://a:1"; "http://b:1"]
  /\ exists s',
      _rotate_proxies fetched s = (Return tt, s')
      /\ all_healthy s'
      /\ Dict.keys (_proxy_metrics s') = ["http://a:1"; "http://c:1"].
Proof.
  intros s0 s fetched.
  assert (Hnd : NoDup (Dict.keys (_proxy_metrics s))).
  { apply NoDup_cons. split.
    - intros Hin. apply elem_of_cons in Hin as [Hin|Hin]; [discriminate|].
      inversion Hin.
    - apply NoDup_singleton. }
  assert (Hlab : labelled s).
  { intros url m Hin Hlow.
    apply elem_of_cons in Hin as [[= -> ->]|Hin]; [discriminate Hlow|].
    apply elem_of_cons in Hin as [[= -> ->]|Hin]; [|inversion Hin].
    vm_compute. eauto. }
  split; [exact Hnd|]. split; [exact Hlab|]. split; [reflexivity|].
  destruct (rotation_leaves_only_healthy fetched s Hnd Hlab)
    as (s' & E & Hh & _).
  exists s'. split; [exact E|]. split; [exact Hh|].
  assert (Es : s' = snd (_rotate_proxies fetched s)) by (rewrite E; reflexivity).
  rewrite Es. vm_compute. reflexivity.
Defined.

End Rotation.

Section RegistryInvariant.

Import ProxyService ProxyFacts RotationFacts RegistryFacts.

Lemma dict_keys_set_eq {V} (k : string) (v : V) (d : Dict.t V) :
  Dict.keys (Dict.set k v d)
  = if bool_decide (k ∈ Dict.keys d) then Dict.keys d
    else Dict.keys d ++ [k].
Proof.
  unfold Dict.keys.
  induction d as [|[k0 v0] rest IH]; cbn [Dict.set map fst].
  - rewrite bool_decide_eq_false_2; [reflexivity | apply not_elem_of_nil].
  - destruct (bool_decide (k0 = k)) eqn:E; cbn [map fst].
    + apply bool_decide_eq_true in E. subst k0.
      rewrite bool_decide_eq_true_2; [reflexivity | left].
    + apply bool_decide_eq_false in E. rewrite IH.
      destruct (bool_decide (k ∈ map fst rest)) eqn:Er.
      * apply bool_decide_eq_true in Er.
        rewrite bool_decide_eq_true_2; [reflexivity | right; exact Er].
      * apply bool_decide_eq_false in Er.
        rewrite bool_decide_eq_false_2; [reflexivity|].
        intros Hin. apply elem_of_cons in Hin as [->|Hin]; auto.
Qed.

Lemma dict_keys_pop_eq {V} (k : string) (d : Dict.t V) :
  Dict.keys (Dict.pop k d) = filter (fun x => x <> k) (Dict.keys d).
Proof.
  unfold Dict.keys. induction d as [|[k0 v0] rest IH]; simpl; [reflexivity|].
  rewrite filter_cons.
  destruct (bool_decide (k0 = k)) eqn:E.
  - apply bool_decide_eq_true in E. subst k0.
    rewrite decide_False by auto. exact IH.
  - apply bool_decide_eq_false in E. rewrite decide_True by exact E.
    simpl. rewrite IH. reflexivity.
Qed.

Lemma dict_elem_set {V} (k u : string) (v x : V) (d : Dict.t V) :
  (k, v) ∈ Dict.set u x d -> (k = u /\ v = x) \/ (k, v) ∈ d.
Proof.
  induction d as [|[k0 v0] rest IH]; simpl.
  - intros Hin. apply list_elem_of_singleton in Hin. injection Hin as -> ->.
    auto.
  - destruct (bool_decide (k0 = u)) eqn:E.
    + apply bool_decide_eq_true in E. subst k0. intros Hin.
      apply elem_of_cons in Hin as [[= -> ->]|Hin]; [auto|].
      right. right. exact Hin.
    + intros Hin. apply elem_of_cons in Hin as [[= -> ->]|Hin].
      * right. left.
      * destruct (IH Hin) as [?|?]; [auto|]. right. right. assumption.
Qed.

Lemma dict_elem_pop {V} (k u : string) (v : V) (d : Dict.t V) :
  (k, v) ∈ Dict.pop u d -> k <> u /\ (k, v) ∈ d.
Proof.
  induction d as [|[k0 v0] rest IH]; simpl.
  - intros Hin. inversion Hin.
  - destruct (bool_decide (k0 = u)) eqn:E.
    + intros Hin. destruct (IH Hin). split; [assumption|]. right. assumption.
    + apply bool_decide_eq_false in E. intros Hin.
      apply elem_of_cons in Hin as [[= -> ->]|Hin].
      * split; [exact E | left].
      * destruct (IH Hin). split; [assumption|]. right. assumption.
Qed.

Lemma init_well_formed (pool_size : Z) : well_formed (__init__ pool_size).
Proof.
  split; [apply NoDup_nil_2|]. split; [reflexivity|].
  intros url m Hin. inversion Hin.
Qed.

(** Replacing the metrics of a tracked proxy by metrics with the same
    health score. *)
Lemma wf_set_metrics (u : string) (m m' : ProxyMetrics) (s : t) :
  well_formed s ->
  Dict.get u (_proxy_metrics s) = Some m ->
  health_score m' = health_score m ->
  well_formed (with_metrics (Dict.set u m' (_proxy_metrics s)) s).
Proof.
  intros (Hnd & Hk & Hl) Hg Hh.
  assert (Hkeys : Dict.keys (Dict.set u m' (_proxy_metrics s))
                  = Dict.keys (_proxy_metrics s)).
  { rewrite dict_keys_set_eq, bool_decide_eq_true_2;
      [reflexivity | eapply dict_get_some_in, Hg]. }
  split; [|split]; cbn [_proxy_metrics _circuit_breakers with_metrics].
  - rewrite Hkeys. exact Hnd.
  - rewrite Hkeys. exact Hk.
  - intros k v Hin Hlow. cbn [_proxy_metrics with_metrics proxy_health] in *.
    apply dict_elem_set in Hin as [[-> ->]|Hin].
    + apply (Hl u m); [apply dict_get_elem, Hg|].
      unfold underperforming in *. rewrite <- Hh. exact Hlow.
    + apply (Hl k v); assumption.
Qed.

(** Storing a new health score together with its label. *)
Lemma wf_set_health (u : string) (m m' : ProxyMetrics) (h : Q) (s : t) :
  well_formed s ->
  Dict.get u (_proxy_metrics s) = Some m ->
  well_formed
    (with_health (<[u := h]> (proxy_health s))
       (with_metrics (Dict.set u m' (_proxy_metrics s)) s)).
Proof.
  intros (Hnd & Hk & Hl) Hg.
  assert (Hkeys : Dict.keys (Dict.set u m' (_proxy_metrics s))
                  = Dict.keys (_proxy_metrics s)).
  { rewrite dict_keys_set_eq, bool_decide_eq_true_2;
      [reflexivity | eapply dict_get_some_in, Hg]. }
  split; [|split];
    cbn [_proxy_metrics _circuit_breakers with_metrics with_health].
  - rewrite Hkeys. exact Hnd.
  - rewrite Hkeys. exact Hk.
  - intros k v Hin Hlow.
    cbn [_proxy_metrics with_metrics with_health proxy_health] in *.
    destruct (decide (u = k)) as [->|Hne].
    + rewrite lookup_insert_eq. eauto.
    + rewrite lookup_insert_ne by exact Hne.
      apply dict_elem_set in Hin as [[-> ->]|Hin]; [congruence|].
      apply (Hl k v); assumption.
Qed.

Lemma wf_set_breaker (u : string) (cb cb' : CircuitBreaker.t) (s : t) :
  well_formed s ->
  Dict.get u (_circuit_breakers s) = Some cb ->
  well_formed (with_breakers (Dict.set u cb' (_circuit_breakers s)) s).
Proof.
  intros (Hnd & Hk & Hl) Hg.
  split; [exact Hnd|]. split; [|exact Hl].
  cbn [_proxy_metrics _circuit_breakers with_breakers].
  rewrite dict_keys_set_eq, bool_decide_eq_true_2;
    [exact Hk | eapply dict_get_some_in, Hg].
Qed.

Lemma record_success_wf (now : Time) (u : string) (d : Q) :
  preserves well_formed (_record_success now u d).
Proof.
  intros s Hs. unfold _record_success. unfold bind at 1, get.
  destruct (Dict.get u (_proxy_metrics s)) as [m|] eqn:Hg; [|exact Hs].
  unfold bind at 1, modify. unfold bind at 1.
  set (m1 := mkProxyMetrics _ _ _ _ _ _).
  assert (H1 : well_formed (with_metrics (Dict.set u m1 (_proxy_metrics s)) s))
    by (apply (wf_set_metrics u m m1 s Hs Hg); reflexivity).
  destruct (py_div _ _) as [h|e]; [|exact H1].
  unfold bind, modify. cbn [snd].
  apply (wf_set_health u m1 _ h _ H1).
  cbn [_proxy_metrics with_metrics]. apply dict_get_set_eq.
Qed.

Lemma record_failure_wf (u : string) :
  preserves well_formed (_record_failure u).
Proof.
  intros s Hs. unfold _record_failure. unfold bind at 1, get.
  destruct (Dict.get u (_proxy_metrics s)) as [m|] eqn:Hg; [|exact Hs].
  unfold bind at 1, modify. unfold bind at 1.
  set (m1 := mkProxyMetrics _ _ _ _ _ _).
  assert (H1 : well_formed (with_metrics (Dict.set u m1 (_proxy_metrics s)) s))
    by (apply (wf_set_metrics u m m1 s Hs Hg); reflexivity).
  destruct (py_div _ _) as [h|e]; [|exact H1].
  unfold bind, modify. cbn [snd].
  apply (wf_set_health u m1 _ h _ H1).
  cbn [_proxy_metrics with_metrics]. apply dict_get_set_eq.
Qed.

Lemma add_proxy_wf (is_valid : bool) (u : string) :
  preserves well_formed (_add_proxy is_valid u).
Proof.
  intros s (Hnd & Hk & Hl). unfold _add_proxy.
  destruct is_valid; cbn [negb]; [|repeat split; assumption].
  unfold bind, modify. cbn [snd].
  split; [|split];
    cbn [_proxy_metrics _circuit_breakers with_metrics with_breakers].
  - rewrite dict_keys_set_eq.
    destruct (bool_decide (u ∈ Dict.keys (_proxy_metrics s))) eqn:E;
      [exact Hnd|].
    apply bool_decide_eq_false in E. apply NoDup_app.
    split; [exact Hnd|]. split; [|apply NoDup_singleton].
    intros x Hx Hin. apply list_elem_of_singleton in Hin. subst x. auto.
  - rewrite !dict_keys_set_eq, Hk. reflexivity.
  - intros k v Hin Hlow.
    cbn [_proxy_metrics with_metrics with_breakers proxy_health] in *.
    apply dict_elem_set in Hin as [[-> ->]|Hin]; [discriminate Hlow|].
    apply (Hl k v); assumption.
Qed.

Lemma remove_proxy_wf (u : string) : preserves well_formed (_remove_proxy u).
Proof.
  intros s (Hnd & Hk & Hl).
  assert (Hpop : well_formed
                   (with_breakers (Dict.pop u (_circuit_breakers s))
                      (with_metrics (Dict.pop u (_proxy_metrics s)) s))).
  { split; [|split];
      cbn [_proxy_metrics _circuit_breakers with_metrics with_breakers].
    - rewrite dict_keys_pop_eq. apply NoDup_filter, Hnd.
    - rewrite !dict_keys_pop_eq, Hk. reflexivity.
    - intros k v Hin Hlow.
      cbn [_proxy_metrics with_metrics with_breakers proxy_health] in *.
      apply dict_elem_pop in Hin as [_ Hin]. apply (Hl k v); assumption. }
  unfold _remove_proxy, bind, modify, get. cbn.
  destruct (proxy_health s !! u) as [h|]; [|exact Hpop]. cbn.
  destruct Hpop as (Hnd' & Hk' & Hl'). split; [exact Hnd'|].
  split; [exact Hk'|]. intros k v Hin Hlow.
  cbn [_proxy_metrics with_metrics with_breakers with_health proxy_health]
    in *.
  pose proof (dict_elem_pop _ _ _ _ Hin) as [Hne _].
  rewrite lookup_delete_ne by congruence. apply (Hl' k v); assumption.
Qed.

Lemma get_proxy_attempt_wf (now : Time) :
  preserves well_formed (get_proxy_attempt now).
Proof.
  intros s Hs. unfold get_proxy_attempt. unfold bind at 1, get.
  unfold bind at 1.
  destruct (healthy_proxies now (_proxy_metrics s) (_circuit_breakers s))
    as [[|first others]|e]; try exact Hs.
  destruct (Dict.get _ (_proxy_metrics s)) as [m|] eqn:Hg; [|exact Hs].
  unfold bind, modify, ret. cbn [snd].
  apply (wf_set_metrics _ m _ s Hs Hg). reflexivity.
Qed.

Lemma get_proxy_wf (clock : nat -> Time) :
  preserves well_formed (get_proxy clock).
Proof.
  intros s Hs. unfold get_proxy.
  apply (AsyncRetry_inv well_formed (fun _ => True)
           (fun k => get_proxy_attempt (clock k))); auto.
  intros k. apply get_proxy_attempt_wf.
Qed.

(** The last step of [report_failure]: asking for a replacement. *)
Lemma replacement_wf (replacement : outcome string) (is_valid : bool) :
  preserves well_formed
    (let! s := get in
     if Dict.len (_proxy_metrics s) <? _pool_size s
     then
       try_except
         (let! new_proxy := (fun s => (replacement, s)) in
          _add_proxy is_valid new_proxy)
         (fun _ => ret tt)
     else ret tt).
Proof.
  apply preserves_get. intros s0 H0.
  destruct (Dict.len (_proxy_metrics s0) <? _pool_size s0); [|exact H0].
  apply (preserves_at well_formed); [|exact H0].
  apply preserves_try_except; [|intros _; apply preserves_ret].
  apply preserves_lift_bind. intros a _. apply add_proxy_wf.
Qed.

Lemma report_failure_wf (now : Time) (u : string)
    (replacement : outcome string) (is_valid : bool) :
  preserves well_formed (report_failure now u replacement is_valid).
Proof.
  unfold report_failure.
  apply preserves_bind; [apply record_failure_wf|]. intros _.
  apply preserves_get. intros s Hs.
  set (c1 := match Dict.get u (_circuit_breakers s) with
             | Some cb => _
             | None => ret tt
             end).
  assert (H1 : well_formed (snd (c1 s))).
  { subst c1. destruct (Dict.get u (_circuit_breakers s)) as [cb|] eqn:Hg;
      [|exact Hs].
    unfold bind at 1, modify.
    pose proof (wf_set_breaker u cb (CircuitBreaker.record_failure now cb)
                  s Hs Hg) as H.
    destruct (CircuitBreaker.is_open now _);
      [apply remove_proxy_wf, H | exact H]. }
  unfold bind at 1. destruct (c1 s) as [[[]|e] s1]; cbn [snd] in H1 |- *;
    [|exact H1].
  apply (preserves_at well_formed); [|exact H1]. apply replacement_wf.
Qed.

Lemma remove_underperforming_wf (items : list (string * ProxyMetrics)) :
  preserves well_formed (remove_underperforming items).
Proof.
  induction items as [|[u m] rest IH]; simpl; [apply preserves_ret|].
  apply preserves_bind; [|intros _; exact IH].
  destruct (Qltb (health_score m) PROXY_SUCCESS_THRESHOLD);
    [apply remove_proxy_wf | apply preserves_ret].
Qed.

Lemma add_all_wf (new_proxies : list (string * bool)) :
  preserves well_formed (add_all new_proxies).
Proof.
  induction new_proxies as [|[u v] rest IH]; simpl; [apply preserves_ret|].
  apply preserves_bind; [apply add_proxy_wf | intros _; exact IH].
Qed.

Lemma rotate_proxies_wf (fetched : Z -> outcome (list (string * bool))) :
  preserves well_formed (_rotate_proxies fetched).
Proof.
  unfold _rotate_proxies.
  apply preserves_try_except; [|intros _; apply preserves_ret].
  apply preserves_get. intros s Hs.
  apply (preserves_at well_formed); [|exact Hs].
  apply preserves_bind; [apply remove_underperforming_wf|]. intros _.
  apply preserves_get. intros s0 H0.
  destruct (Dict.len (_proxy_metrics s0) <? _pool_size s0); [|exact H0].
  unfold bind.
  destruct (fetched (_pool_size s0 - Dict.len (_proxy_metrics s0)))
    as [l|e]; cbn [snd]; [|exact H0].
  apply add_all_wf, H0.
Qed.

Lemma run_op_wf (o : op) (s : t) : well_formed s -> well_formed (run_op o s).
Proof.
  intros H. destruct o as [now u d|u|now u probe|clock
                          |now u replacement is_valid|fetched|is_valid u];
    simpl.
  - apply record_success_wf, H.
  - apply record_failure_wf, H.
  - destruct probe; simpl;
      [apply record_success_wf | apply record_failure_wf]; exact H.
  - apply get_proxy_wf, H.
  - apply report_failure_wf, H.
  - apply rotate_proxies_wf, H.
  - apply add_proxy_wf, H.
Qed.

Lemma run_ops_wf (ops : list op) (s : t) :
  well_formed s -> well_formed (run_ops ops s).
Proof.
  unfold run_ops. revert s. induction ops as [|o rest IH]; intros s H; simpl;
    [exact H|].
  apply IH, run_op_wf, H.
Qed.

Lemma well_formed_in_sync (s : t) : well_formed s -> in_sync s.
Proof.
  intros (_ & Hk & _). unfold in_sync. apply forallb_forall.
  intros [u cb] Hin. cbn [fst].
  destruct (Dict.get u (_proxy_metrics s)) eqn:Hg; [reflexivity|].
  exfalso. apply dict_get_none in Hg. apply Hg. rewrite Hk.
  unfold Dict.keys. apply list_elem_of_fmap. exists (u, cb).
  split; [reflexivity|]. apply list_elem_of_In. exact Hin.
Qed.

(** X22. Whatever operations a registry has served since it was created
    (reports of successes and failures, health checks, selections, failure
    reports with their replacements, rotations, additions), it lists no
    proxy twice, its metrics and its breakers cover the same proxies in the
    same order, so that the look-ups of [get_proxy] never miss, and the
    gauge has a label for every proxy whose health score is below the
    threshold, so that a rotation can remove it. *)
Theorem registry_stays_well_formed (pool_size : Z) (ops : list op) :
  let s := run_ops ops (__init__ pool_size) in
  NoDup (Dict.keys (_proxy_metrics s))
  /\ Dict.keys (_proxy_metrics s) = Dict.keys (_circuit_breakers s)
  /\ labelled s
  /\ in_sync s.
Proof.
  intros s.
  assert (H : well_formed s) by apply run_ops_wf, init_well_formed.
  pose proof (well_formed_in_sync s H) as Hs.
  destruct H as (Hnd & Hk & Hl). auto.
Qed.

End RegistryInvariant.

(** ** utils/concurrency.py: what the metrics record *)

Section Metrics.

Import PoolMetrics.

(** What a granted acquisition writes into the metrics of the pool. *)
Lemma acquire_metrics (now : Time) (timeout : Q)
    (resource_id : option string) (p p' : ResourcePool.t)
    (r : ResourcePool.Resource) :
  ResourcePool.acquire now timeout resource_id p = (Return r, p') ->
  ResourcePool._resource_metrics p'
  = match ResourcePool._resource_metrics p with
    | Some m =>
        Some (<[resource_id :=
                  ResourcePool.mkMetrics now
                    (acquisitions_of m resource_id + 1) None None]> m)
    | None => None
    end.
Proof.
  unfold ResourcePool.acquire, try_except, bind,
    ResourcePool.semaphore_wait_for.
  destruct (Qltb 0 timeout && (0 <? ResourcePool._semaphore p));
    [|discriminate].
  unfold ResourcePool.get_or_create, ResourcePool._create_resource,
    acquisitions_of.
  destruct p as [sem res inuse mx met nxt]; simpl.
  destruct res as [|r0 rest]; destruct met as [m|]; simpl;
    intros E; inversion E; reflexivity.
Qed.

(** What the release of a held resource writes into the metrics of the
    pool. *)
Lemma release_metrics (now : Time) (r : ResourcePool.Resource)
    (resource_id : option string) (p : ResourcePool.t)
    (u : ResourcePool.InUse) :
  ResourcePool._in_use p !! resource_id = Some u ->
  ResourcePool._resource_metrics
    (snd (ResourcePool.release now r resource_id p))
  = match ResourcePool._resource_metrics p with
    | Some m =>
        match m !! resource_id with
        | Some e =>
            Some (<[resource_id :=
                      ResourcePool.mkMetrics (ResourcePool.acquire_time e)
                        (ResourcePool.acquisitions e) (Some now)
                        (Some (match ResourcePool.total_usage_time e with
                               | Some t => t
                               | None => 0%Q
                               end + (now - ResourcePool.acquire_time e))%Q)]>
                    m)
        | None => Some m
        end
    | None => None
    end.
Proof.
  intros H. unfold ResourcePool.release, try_except, bind, get. rewrite H.
  destruct p as [sem res inuse mx met nxt]; simpl in *.
  destruct met as [m|]; simpl; [|reflexivity].
  destruct (m !! resource_id); reflexivity.
Qed.

(** X23. The metrics that a pool keeps for a resource id count its
    acquisitions, but its [total_usage_time] is no total: each acquisition
    starts the entry afresh, so after the resource is released the entry
    holds one acquisition more than before and, as usage time, the length
    of the last hold only. *)
Theorem usage_time_is_the_last_hold (t1 t2 : Time) (timeout : Q)
    (resource_id : option string) (p p1 : ResourcePool.t)
    (r : ResourcePool.Resource)
    (m : gmap (option string) ResourcePool.Metrics) :
  ResourcePool._resource_metrics p = Some m ->
  ResourcePool.acquire t1 timeout resource_id p = (Return r, p1) ->
  exists p2 m2 e total,
    ResourcePool.release t2 r resource_id p1 = (Return true, p2)
    /\ ResourcePool._resource_metrics p2 = Some m2
    /\ m2 !! resource_id = Some e
    /\ ResourcePool.acquisitions e = acquisitions_of m resource_id + 1
    /\ ResourcePool.acquire_time e = t1
    /\ ResourcePool.last_release e = Some t2
    /\ ResourcePool.total_usage_time e = Some total
    /\ (total == t2 - t1)%Q.
Proof.
  intros Hm Ha.
  pose proof (acquire_metrics _ _ _ _ _ _ Ha) as Hm1. rewrite Hm in Hm1.
  pose proof (acquire_returns_entry _ _ _ _ _ _ Ha) as Hin.
  destruct (release_held t2 r resource_id p1 _ Hin) as (p2 & E & _).
  pose proof (release_metrics t2 r resource_id p1 _ Hin) as Hm2.
  rewrite E, Hm1 in Hm2. cbn [snd] in Hm2. rewrite lookup_insert_eq in Hm2.
  cbn [ResourcePool.acquire_time ResourcePool.acquisitions
       ResourcePool.total_usage_time] in Hm2.
  eexists p2, _, _, _. split; [exact E|]. split; [exact Hm2|].
  split; [apply lookup_insert_eq|].
  cbn [ResourcePool.acquire_time ResourcePool.acquisitions
       ResourcePool.total_usage_time ResourcePool.last_release].
  repeat (split; [reflexivity|]). apply Qplus_0_l.
Qed.

Lemma usage_time_is_the_last_hold_witness :
  let p0 := ResourcePool.__init__ 2 true in
  let p_a := snd (ResourcePool.acquire 0%Q 30%Q (Some "a") p0) in
  let p := snd (ResourcePool.release 10%Q 0%nat (Some "a") p_a) in
  let m := match ResourcePool._resource_metrics p with
           | Some m => m | None => ∅ end in
  let a := ResourcePool.acquire 20%Q 30%Q (Some "a") p in
  ResourcePool._resource_metrics p = Some m
  /\ (ResourcePool.total_usage_time <$> m !! Some "a") = Some (Some (0 + (10 - 0))%Q)
  /\ a = (Return 0%nat, snd a)
  /\ exists p2 m2 e total,
      ResourcePool.release 25%Q 0%nat (Some "a") (snd a) = (Return true, p2)
      /\ ResourcePool._resource_metrics p2 = Some m2
      /\ m2 !! Some "a" = Some e
      /\ ResourcePool.acquisitions e = 2
      /\ ResourcePool.total_usage_time e = Some total
      /\ (total == 5)%Q.
Proof.
  intros p0 p_a p m a.
  assert (Hm : ResourcePool._resource_metrics p = Some m)
    by (vm_compute; reflexivity).
  assert (Ha : a = (Return 0%nat, snd a)) by (vm_compute; reflexivity).
  split; [exact Hm|]. split; [vm_compute; reflexivity|]. split; [exact Ha|].
  destruct (usage_time_is_the_last_hold 20%Q 25%Q 30%Q (Some "a") p (snd a)
              0%nat m Hm Ha)
    as (p2 & m2 & e & total & E & Hm2 & He & Hacq & _ & _ & Ht & Hq).
  exists p2, m2, e, total. split; [exact E|]. split; [exact Hm2|].
  split; [exact He|]. split; [rewrite Hacq; vm_compute; reflexivity|].
  split; [exact Ht|]. rewrite Hq. reflexivity.
Defined.

(** What a granted slot writes into the task metrics. *)
Lemma task_acquire_metrics (now : Time) (task_id : string) (timeout : Q)
    (task_context : option (gmap string string)) (s s1 : TaskPool.t) :
  TaskPool.acquire now task_id timeout task_context s = (Return true, s1) ->
  is_Some (TaskPool._task_metadata s1 !! task_id)
  /\ TaskPool._task_metrics s1
     = match TaskPool._task_metrics s with
       | Some m =>
           Some (<[task_id :=
                     TaskPool.mkTaskMetrics now (executions_of m task_id + 1)
                       None None]> m)
       | None => None
       end.
Proof.
  unfold TaskPool.acquire, try_except.
  destruct (bool_decide (task_id = "")); [discriminate|].
  unfold bind at 1, get.
  destruct (TaskPool._task_metadata s !! task_id); [discriminate|].
  unfold bind at 1, zoom.
  destruct (ResourcePool.acquire now timeout (Some task_id)
              (TaskPool._resource_pool s)) as [[r|e] p']; [|discriminate].
  unfold executions_of. destruct s as [pool meta met]; simpl.
  destruct met as [m|]; simpl; intros E; inversion E; simpl;
    rewrite lookup_insert_eq; eauto.
Qed.

(** What the release of a known task writes into the task metrics. *)
Lemma task_release_metrics (now : Time) (task_id : string) (s : TaskPool.t)
    (meta : TaskPool.TaskMeta) :
  TaskPool._task_metadata s !! task_id = Some meta ->
  TaskPool._task_metrics (snd (TaskPool.release now task_id s))
  = match TaskPool._task_metrics s with
    | Some m =>
        match m !! task_id with
        | Some e =>
            Some (<[task_id :=
                      TaskPool.mkTaskMetrics (TaskPool.start_time e)
                        (TaskPool.executions e) (Some now)
                        (Some (match TaskPool.total_execution_time e with
                               | Some t => t
                               | None => 0%Q
                               end + (now - TaskPool.start_time e))%Q)]> m)
        | None => Some m
        end
    | None => None
    end.
Proof.
  intros Hm. unfold TaskPool.release, try_except. unfold bind at 1, get.
  rewrite Hm. destruct s as [pool metadata met]; simpl in *.
  unfold bind, modify, zoom, ret, TaskPool._update_task_metrics. simpl.
  destruct met as [m|]; simpl.
  - destruct (m !! task_id); simpl;
      destruct (ResourcePool.release now _ (Some task_id) pool) as [[b|e] p'];
      reflexivity.
  - destruct (ResourcePool.release now _ (Some task_id) pool) as [[b|e] p'];
      reflexivity.
Qed.

(** X24. What [get_task_metrics] reports for a task that was granted a
    slot and has given it back: the executions of the task id counted so
    far plus one, the start and the end of this run, and, under the name
    [total_execution_time], the length of this run alone, whatever the
    earlier runs of the id took. *)
Theorem task_metrics_after_a_run (t1 t2 : Time) (task_id : string)
    (timeout : Q) (task_context : option (gmap string string))
    (s s1 : TaskPool.t) (m : gmap string TaskPool.TaskMetrics) :
  TaskPool._task_metrics s = Some m ->
  TaskPool.acquire t1 task_id timeout task_context s = (Return true, s1) ->
  exists e total,
    get_task_metrics (snd (TaskPool.release t2 task_id s1)) !! task_id
    = Some e
    /\ TaskPool.executions e = executions_of m task_id + 1
    /\ TaskPool.start_time e = t1
    /\ TaskPool.end_time e = Some t2
    /\ TaskPool.total_execution_time e = Some total
    /\ (total == t2 - t1)%Q.
Proof.
  intros Hm Ha.
  destruct (task_acquire_metrics _ _ _ _ _ _ Ha) as [[meta Hmeta] Hm1].
  rewrite Hm in Hm1.
  pose proof (task_release_metrics t2 task_id s1 meta Hmeta) as Hm2.
  rewrite Hm1, lookup_insert_eq in Hm2.
  cbn [TaskPool.start_time TaskPool.executions
       TaskPool.total_execution_time] in Hm2.
  unfold get_task_metrics. rewrite Hm2. eexists _, _.
  split; [apply lookup_insert_eq|].
  cbn [TaskPool.start_time TaskPool.executions TaskPool.end_time
       TaskPool.total_execution_time].
  repeat (split; [reflexivity|]). apply Qplus_0_l.
Qed.

Lemma task_metrics_after_a_run_witness :
  let s0 := TaskPool.__init__ 2 true in
  let s_a := snd (TaskPool.acquire 0%Q "t1" 30%Q None s0) in
  let s := snd (TaskPool.release 10%Q "t1" s_a) in
  let m := get_task_metrics s in
  let a := TaskPool.acquire 20%Q "t1" 30%Q None s in
  TaskPool._task_metrics s = Some m
  /\ (TaskPool.total_execution_time <$> m !! "t1")
     = Some (Some (0 + (10 - 0))%Q)
  /\ a = (Return true, snd a)
  /\ exists e total,
      get_task_metrics (snd (TaskPool.release 25%Q "t1" (snd a))) !! "t1"
      = Some e
      /\ TaskPool.executions e = 2
      /\ TaskPool.total_execution_time e = Some total
      /\ (total == 5)%Q.
Proof.
  intros s0 s_a s m a.
  assert (Hm : TaskPool._task_metrics s = Some m) by (vm_compute; reflexivity).
  assert (Ha : a = (Return true, snd a)) by (vm_compute; reflexivity).
  split; [exact Hm|]. split; [vm_compute; reflexivity|]. split; [exact Ha|].
  destruct (task_metrics_after_a_run 20%Q 25%Q "t1" 30%Q None s (snd a) m
              Hm Ha) as (e & total & He & Hex & _ & _ & Ht & Hq).
  exists e, total. split; [exact He|].
  split; [rewrite Hex; vm_compute; reflexivity|].
  split; [exact Ht|]. rewrite Hq. reflexivity.
Defined.

End Metrics.

(** ** services/proxy.py: the size of the registry *)

Section ReportFailure.

Import ProxyService ProxyFacts RegistryFacts.

Lemma dict_len_keys {V} (d : Dict.t V) :
  Dict.len d = Z.of_nat (length (Dict.keys d)).
Proof. unfold Dict.len, Dict.keys. rewrite length_map. reflexivity. Qed.

Lemma dict_len_set_known {V} (k : string) (v v0 : V) (d : Dict.t V) :
  Dict.get k d = Some v0 -> Dict.len (Dict.set k v d) = Dict.len d.
Proof.
  intros H. rewrite !dict_len_keys, dict_keys_set_eq.
  rewrite bool_decide_eq_true_2; [reflexivity | eapply dict_get_some_in, H].
Qed.

Lemma dict_len_set_le {V} (k : string) (v : V) (d : Dict.t V) :
  Dict.len (Dict.set k v d) <= Dict.len d + 1.
Proof.
  rewrite !dict_len_keys, dict_keys_set_eq.
  destruct (bool_decide (k ∈ Dict.keys d)); [lia|].
  rewrite length_app. simpl. lia.
Qed.

Lemma dict_len_pop_le {V} (k : string) (d : Dict.t V) :
  Dict.len (Dict.pop k d) <= Dict.len d.
Proof.
  rewrite !dict_len_keys, dict_keys_pop_eq.
  pose proof (length_filter (fun x => x <> k) (Dict.keys d)). lia.
Qed.

Lemma record_failure_within (bound size : Z) (u : string) :
  preserves (within bound size) (_record_failure u).
Proof.
  intros s [Hl Hp]. unfold _record_failure. unfold bind at 1, get.
  destruct (Dict.get u (_proxy_metrics s)) as [m|] eqn:Hg; [|split; auto].
  unfold bind at 1, modify. unfold bind at 1.
  set (m1 := mkProxyMetrics _ _ _ _ _ _).
  assert (H1 : Dict.len (Dict.set u m1 (_proxy_metrics s))
               = Dict.len (_proxy_metrics s))
    by (eapply dict_len_set_known, Hg).
  destruct (py_div _ _) as [h|e]; cbn [snd].
  - unfold bind, modify. cbn [snd]. split; [|exact Hp].
    cbn [_proxy_metrics with_metrics with_health].
    erewrite dict_len_set_known by apply dict_get_set_eq. lia.
  - split; [|exact Hp]. cbn [_proxy_metrics with_metrics]. lia.
Qed.

Lemma remove_proxy_within (bound size : Z) (u : string) :
  preserves (within bound size) (_remove_proxy u).
Proof.
  intros s [Hl Hp]. pose proof (dict_len_pop_le u (_proxy_metrics s)).
  unfold _remove_proxy, bind, modify, get, raise.
  cbn [snd proxy_health with_breakers with_metrics].
  destruct (proxy_health s !! u); unfold within;
    cbn -[Dict.len Dict.pop Z.le]; (split; [lia | exact Hp]).
Qed.

Lemma report_failure_within (bound size : Z) (now : Time) (url : string)
    (replacement : outcome string) (is_valid : bool) :
  size <= bound ->
  preserves (within bound size) (report_failure now url replacement is_valid).
Proof.
  intros Hsize. unfold report_failure.
  apply preserves_bind; [apply record_failure_within|]. intros _.
  apply preserves_get. intros s1 H1.
  apply (preserves_at (within bound size)); [|exact H1].
  apply preserves_bind.
  - destruct (Dict.get url (_circuit_breakers s1)) as [cb|];
      [|apply preserves_ret].
    apply preserves_bind; [apply preserves_modify; intros s2 H2; exact H2|].
    intros _. destruct (CircuitBreaker.is_open now _);
      [apply remove_proxy_within | apply preserves_ret].
  - intros _. apply preserves_get. intros s2 [Hl Hp].
    destruct (Dict.len (_proxy_metrics s2) <? _pool_size s2) eqn:Hlt;
      [|split; assumption].
    apply Z.ltb_lt in Hlt.
    unfold try_except, bind.
    destruct replacement as [u|e]; cbn [snd]; [|split; assumption].
    unfold _add_proxy. destruct is_valid; cbn [negb];
      [|split; assumption].
    unfold bind, modify. cbn [snd]. split; [|exact Hp].
    cbn [_proxy_metrics with_metrics with_breakers].
    pose proof (dict_len_set_le u ProxyMetrics_new (_proxy_metrics s2)).
    lia.
Qed.

(** X25. A failure report never lets the registry outgrow its size
    setting: afterwards the registry holds no more proxies than before, or
    no more than [_pool_size] when it held fewer; the size setting is
    unchanged. *)
Theorem report_failure_within_pool_size (now : Time) (url : string)
    (replacement : outcome string) (is_valid : bool) (s : t) :
  let s' := snd (report_failure now url replacement is_valid s) in
  Dict.len (_proxy_metrics s')
  <= Z.max (Dict.len (_proxy_metrics s)) (_pool_size s)
  /\ _pool_size s' = _pool_size s.
Proof.
  intros s'. subst s'.
  apply (report_failure_within
           (Z.max (Dict.len (_proxy_metrics s)) (_pool_size s))
           (_pool_size s)); [lia|].
  split; [lia | reflexivity].
Qed.

End ReportFailure.
